(** * wallclock: a shallow embedding of the two clock programs

    The repository holds two variants of one desktop clock:
    - [src/wallclock.c]: Xinerama monitor selection, a renderer with a
      [force] flag, proportional width measurement ([ext.xOff]);
    - the older variant (module [FixedPitch] below): fixed-pitch width
      heuristic with a 1/8 slack, a [draw(bool dirty)] that always presents.

    The X server, Xft and libc are external collaborators.  Their answers
    are gathered in the record [Xenv]; every call that has an effect outside
    the process is logged as an [event] in the order the program issues it.
    Program state is threaded explicitly through a small state/exit monad. *)

From Stdlib Require Import ZArith List String Ascii Bool Lia QArith.
Import ListNotations.

Open Scope string_scope.
Open Scope list_scope.
Open Scope Z_scope.

(** ** C integers *)

(** [int] is 32 bits wide; results of signed arithmetic are reduced to the
    two's complement range, [size_t] is 64 bits wide and unsigned. *)
Definition to_int (z : Z) : Z := (z + 2 ^ 31) mod 2 ^ 32 - 2 ^ 31.
Definition to_size_t (z : Z) : Z := z mod 2 ^ 64.

Definition int_add (a b : Z) : Z := to_int (a + b).
Definition int_sub (a b : Z) : Z := to_int (a - b).
(** C division truncates towards zero. *)
Definition int_div (a b : Z) : Z := to_int (Z.quot a b).

Definition in_int (z : Z) : Prop := - 2 ^ 31 <= z < 2 ^ 31.

(** ** C strings

    A [char] array holding a NUL-terminated string is modelled by the
    string before the terminator. *)

Definition strcmp (a b : string) : Z :=
  match String.compare a b with
  | Eq => 0
  | Lt => -1
  | Gt => 1
  end.

Definition strlen (s : string) : Z := Z.of_nat (String.length s).

(** [strncpy(dst, src, n)] copies at most [n] bytes of [src]. *)
Definition strncpy (src : string) (n : nat) : string := substring 0 n src.

(** ** libc time *)

Record tm : Type := mk_tm {
  tm_sec : Z; tm_min : Z; tm_hour : Z;
  tm_mday : Z; tm_mon : Z; tm_year : Z;
  tm_wday : Z; tm_yday : Z; tm_isdst : Z
}.

(** ** X11 / Xft data *)

Record XftFont : Type := mk_XftFont {
  xft_ascent : Z;
  xft_descent : Z;
  xft_max_advance_width : Z
}.

Record XGlyphInfo : Type := mk_XGlyphInfo {
  gi_width : Z; gi_height : Z;
  gi_x : Z; gi_y : Z;
  gi_xOff : Z; gi_yOff : Z
}.

Record XColor : Type := mk_XColor { pixel : Z }.
Record XftColor : Type := mk_XftColor { xft_pixel : Z }.

Record XineramaScreenInfo : Type := mk_XineramaScreenInfo {
  screen_number : Z;
  x_org : Z; y_org : Z;
  width : Z; height : Z
}.

(** The two text lines live in [dc.text1] and [dc.text2]; a
    [struct line_t *] is one of these two addresses. *)
Inductive lineref : Type := Text1 | Text2.

Definition lineref_eqb (a b : lineref) : bool :=
  match a, b with
  | Text1, Text1 | Text2, Text2 => true
  | _, _ => false
  end.

(** ** The external world *)

Record Xenv : Type := mk_Xenv {
  (** the complete expansion of a strftime format at a broken-down time,
      before the size limit of the destination is applied *)
  strftime_expand : string -> tm -> string;
  XOpenDisplay : bool;
  DisplayWidth : Z;
  DisplayHeight : Z;
  (** [None]: XineramaIsActive is false; [Some info]: the array that
      XineramaQueryScreens returns *)
  Xinerama : option (list XineramaScreenInfo);
  XftFontOpenName : string -> option XftFont;
  XftColorAllocName : string -> option XftColor;
  XAllocNamedColor : string -> option XColor;
  XftTextExtentsUtf8 : XftFont -> string -> XGlyphInfo
}.

(** [strftime(buf, max, fmt, tm)]: the number of bytes written, not
    counting the terminator, and the string left in [buf]; 0 when the
    expansion and its terminator do not fit (the buffer is then
    unspecified, and the callers below never read it). *)
Definition strftime (E : Xenv) (max : nat) (fmt : string) (t : tm)
  : Z * string :=
  let s := strftime_expand E fmt t in
  if (String.length s <? max)%nat then (strlen s, s) else (0, "").

(** ** Diagnostics and events *)

Inductive message : Type :=
| MsgStrftime (fmt : string)
| MsgLocaltime
| MsgExcessiveWidth (line : lineref) (w : Z) (text font : string)
| MsgCannotLoadFont (font : string)
| MsgCannotLoadColor (color : string)
| MsgCannotOpenDisplay
| MsgExceedsScreens (screen n : Z)
| MsgPoll
| MsgNonMonospaced (font : string)
| MsgCaught (signal : Z)
| MsgGeometry (x y w h : Z)
| MsgFontMetrics (font : string) (a d h : Z).

(** One constructor per externally visible call.  [EvXftDrawStringUtf8]
    records which line's [color] field was passed by address. *)
Inductive event : Type :=
| EvStderr (m : message)
| EvStdout (m : message)
| EvXftTextExtentsUtf8 (xfont : XftFont) (text : string) (len : Z)
| EvXSetForeground (color : Z)
| EvXFillRectangle (x y w h : Z)
| EvXftDrawCreate
| EvXftDrawStringUtf8 (line : lineref) (xfont : XftFont) (x y : Z)
                      (text : string) (len : Z)
| EvXftDrawDestroy
| EvXCopyArea (src_x src_y w h dest_x dest_y : Z)
| EvXSync
| EvXCreatePixmap (w h : Z)
| EvXCreateGC
| EvXSelectInput
| EvXFree
| EvXClearWindow
| EvXFreePixmap
| EvXftColorFree (line : lineref)
| EvXFreeGC
| EvXCloseDisplay.

(** ** The state / exit monad

    A computation ends in one of three ways: it returns ([Done]), the
    process terminates through [exit] ([Exit], with its status), or it
    runs into undefined behaviour ([Undefined]).  Each carries the state
    reached and the events emitted. *)

Inductive outcome (S A : Type) : Type :=
| Done (a : A) (s : S) (out : list event)
| Exit (status : Z) (s : S) (out : list event)
| Undefined (s : S) (out : list event).

Arguments Done {S A} a s out.
Arguments Exit {S A} status s out.
Arguments Undefined {S A} s out.

Definition M (S A : Type) : Type := S -> outcome S A.

Definition ret {S A} (a : A) : M S A := fun s => Done a s [].

Definition bind {S A B} (m : M S A) (k : A -> M S B) : M S B :=
  fun s =>
    match m s with
    | Done a s1 out1 =>
        match k a s1 with
        | Done b s2 out2 => Done b s2 (out1 ++ out2)
        | Exit c s2 out2 => Exit c s2 (out1 ++ out2)
        | Undefined s2 out2 => Undefined s2 (out1 ++ out2)
        end
    | Exit c s1 out1 => Exit c s1 out1
    | Undefined s1 out1 => Undefined s1 out1
    end.

Definition get {S} : M S S := fun s => Done s s [].
Definition modify {S} (f : S -> S) : M S unit := fun s => Done tt (f s) [].
Definition emit {S} (e : event) : M S unit := fun s => Done tt s [e].
Definition exit_ {S A} (status : Z) : M S A := fun s => Exit status s [].
Definition undefined {S A} : M S A := fun s => Undefined s [].

Declare Scope monad_scope.
Delimit Scope monad_scope with monad.
Notation "x <- m ;; k" := (bind m (fun x => k))
  (at level 61, m at next level, right associativity) : monad_scope.
Notation "m ;; k" := (bind m (fun _ => k))
  (at level 61, right associativity) : monad_scope.
Open Scope monad_scope.

(** err(3) family: [warn]/[warnx] write a diagnostic and return,
    [err]/[errx] write it and terminate with the given status. *)
Definition warn {S} (m : message) : M S unit := emit (EvStderr m).
Definition warnx {S} (m : message) : M S unit := emit (EvStderr m).
Definition err {S A} (status : Z) (m : message) : M S A :=
  emit (EvStderr m) ;; exit_ status.
Definition errx {S A} (status : Z) (m : message) : M S A :=
  emit (EvStderr m) ;; exit_ status.
Definition printf {S} (m : message) : M S unit := emit (EvStdout m).

Definition when {S} (b : bool) (m : M S unit) : M S unit :=
  if b then m else ret tt.

Definition outcome_state {S A} (o : outcome S A) : S :=
  match o with
  | Done _ s _ | Exit _ s _ | Undefined s _ => s
  end.

Definition outcome_out {S A} (o : outcome S A) : list event :=
  match o with
  | Done _ _ out | Exit _ _ out | Undefined _ out => out
  end.

(** ** Reading a trace *)



Definition is_draw_of (l : lineref) (e : event) : bool :=
  match e with
  | EvXftDrawStringUtf8 l' _ _ _ _ _ => lineref_eqb l l'
  | _ => false
  end.

Definition is_copy (e : event) : bool :=
  match e with EvXCopyArea _ _ _ _ _ _ => true | _ => false end.


Definition is_excessive_of (l : lineref) (e : event) : bool :=
  match e with
  | EvStderr (MsgExcessiveWidth l' _ _ _) => lineref_eqb l l'
  | _ => false
  end.

(** The string a draw call puts on the canvas of line [l], if [e] is one. *)
Definition painted_by (l : lineref) (e : event) : option string :=
  match e with
  | EvXftDrawStringUtf8 l' _ _ _ text len =>
      if lineref_eqb l l' then Some (substring 0 (Z.to_nat len) text)
      else None
  | _ => None
  end.

(** The string most recently painted for line [l] in a trace, starting
    from [init]. *)
Definition last_painted_from (l : lineref) (init : string)
  (out : list event) : string :=
  fold_left (fun acc e =>
               match painted_by l e with Some s => s | None => acc end)
            out init.

Definition last_painted (l : lineref) (out : list event) : string :=
  last_painted_from l "" out.

Definition count_excessive (l : lineref) (out : list event) : nat :=
  List.length (filter (is_excessive_of l) out).

(** * src/wallclock.c *)

Module Wallclock.

Record linearg_t : Type := mk_linearg {
  arg_fmt : string;
  arg_font : string;
  arg_color : string;
  arg_dy : Z
}.

Record args_t : Type := mk_args {
  args_text1 : linearg_t;
  args_text2 : linearg_t;
  args_background : string;
  args_debug : Z;
  args_screen : Z
}.

(** The initialiser of the global [args]. *)
Definition default_args : args_t :=
  {| args_text1 := {| arg_fmt := "%H:%M";
                      arg_font := "DejaVuSansMono:style=bold:size=400";
                      arg_color := "#202020";
                      arg_dy := 0 |};
     args_text2 := {| arg_fmt := "%Y-%m-%d %a. v. %V";
                      arg_font := "DejaVuSansMono:style=bold:size=60";
                      arg_color := "#303030";
                      arg_dy := 0 |};
     args_background := "#000000";
     args_debug := 1;
     args_screen := -1 |}.

(** [struct line_t].  [line_arg] holds the [linearg_t] that [arg] points
    to; the arguments are constant once the command line is parsed. *)
Record line_t : Type := mk_line {
  line_buf : string;
  line_y : Z;
  line_ascent : Z;
  line_height : Z;
  line_warned : bool;
  line_xfont : XftFont;
  line_color : XftColor;
  line_arg : linearg_t
}.

(** The global [dc]; the opaque X handles (dpy, root, gc, da, cmap, vis)
    are left out. *)
Record dc_t : Type := mk_dc {
  dc_bg : XColor;
  dc_x : Z; dc_y : Z;
  dc_w : Z; dc_h : Z;
  dc_text1 : line_t;
  dc_text2 : line_t
}.

Record state : Type := mk_state {
  args : args_t;
  running : bool;
  dc : dc_t
}.

(** Static storage is zero-initialised. *)
Definition zero_line : line_t :=
  {| line_buf := ""; line_y := 0; line_ascent := 0; line_height := 0;
     line_warned := false; line_xfont := mk_XftFont 0 0 0;
     line_color := mk_XftColor 0; line_arg := mk_linearg "" "" "" 0 |}.

Definition initial_state (a : args_t) : state :=
  {| args := a; running := true;
     dc := {| dc_bg := mk_XColor 0; dc_x := 0; dc_y := 0; dc_w := 0;
              dc_h := 0; dc_text1 := zero_line; dc_text2 := zero_line |} |}.

Definition get_line (l : lineref) (s : state) : line_t :=
  match l with
  | Text1 => dc_text1 (dc s)
  | Text2 => dc_text2 (dc s)
  end.

Definition set_dc (f : dc_t -> dc_t) (s : state) : state :=
  {| args := args s; running := running s; dc := f (dc s) |}.

Definition set_line (l : lineref) (f : line_t -> line_t) (s : state)
  : state :=
  set_dc (fun d =>
    match l with
    | Text1 => {| dc_bg := dc_bg d; dc_x := dc_x d; dc_y := dc_y d;
                  dc_w := dc_w d; dc_h := dc_h d;
                  dc_text1 := f (dc_text1 d); dc_text2 := dc_text2 d |}
    | Text2 => {| dc_bg := dc_bg d; dc_x := dc_x d; dc_y := dc_y d;
                  dc_w := dc_w d; dc_h := dc_h d;
                  dc_text1 := dc_text1 d; dc_text2 := f (dc_text2 d) |}
    end) s.

Definition with_buf (b : string) (l : line_t) : line_t :=
  {| line_buf := b; line_y := line_y l; line_ascent := line_ascent l;
     line_height := line_height l; line_warned := line_warned l;
     line_xfont := line_xfont l; line_color := line_color l;
     line_arg := line_arg l |}.

Definition with_warned (b : bool) (l : line_t) : line_t :=
  {| line_buf := line_buf l; line_y := line_y l;
     line_ascent := line_ascent l; line_height := line_height l;
     line_warned := b; line_xfont := line_xfont l;
     line_color := line_color l; line_arg := line_arg l |}.

Definition with_y (v : Z) (l : line_t) : line_t :=
  {| line_buf := line_buf l; line_y := v; line_ascent := line_ascent l;
     line_height := line_height l; line_warned := line_warned l;
     line_xfont := line_xfont l; line_color := line_color l;
     line_arg := line_arg l |}.

(** The assignments of [initline] once the font is open. *)
Definition with_font (xfont : XftFont) (l : line_t) : line_t :=
  {| line_buf := line_buf l; line_y := line_y l;
     line_ascent := xft_ascent xfont;
     line_height := int_add (xft_ascent xfont) (xft_descent xfont);
     line_warned := line_warned l; line_xfont := xfont;
     line_color := line_color l; line_arg := line_arg l |}.

(** The assignments of [initline] after the colour is allocated. *)
Definition with_color (color : XftColor) (arg : linearg_t) (l : line_t)
  : line_t :=
  {| line_buf := line_buf l; line_y := line_y l;
     line_ascent := line_ascent l; line_height := line_height l;
     line_warned := false; line_xfont := line_xfont l;
     line_color := color; line_arg := arg |}.

Definition with_geometry (x y w h : Z) (d : dc_t) : dc_t :=
  {| dc_bg := dc_bg d; dc_x := x; dc_y := y; dc_w := w; dc_h := h;
     dc_text1 := dc_text1 d; dc_text2 := dc_text2 d |}.

Definition with_bg (c : XColor) (d : dc_t) : dc_t :=
  {| dc_bg := c; dc_x := dc_x d; dc_y := dc_y d; dc_w := dc_w d;
     dc_h := dc_h d; dc_text1 := dc_text1 d; dc_text2 := dc_text2 d |}.

Definition set_running (b : bool) (s : state) : state :=
  {| args := args s; running := b; dc := dc s |}.

Section Program.

Variable E : Xenv.

Definition textnw (xfont : XftFont) (text : string) (len : Z)
  : M state Z :=
  emit (EvXftTextExtentsUtf8 xfont text len) ;;
  ret (gi_xOff (XftTextExtentsUtf8 E xfont
                  (substring 0 (Z.to_nat len) text))).

Definition initline (line : lineref) (arg : linearg_t) : M state unit :=
  match XftFontOpenName E (arg_font arg) with
  | None => errx 1 (MsgCannotLoadFont (arg_font arg))
  | Some xfont =>
      modify (set_line line (with_font xfont)) ;;
      s <- get ;;
      when (1 <? args_debug (args s))
           (printf (MsgFontMetrics (arg_font arg) (xft_ascent xfont)
                                   (xft_descent xfont)
                                   (line_height (get_line line s)))) ;;
      match XftColorAllocName E (arg_color arg) with
      | None => errx 1 (MsgCannotLoadColor (arg_color arg))
      | Some color => modify (set_line line (with_color color arg))
      end
  end.

Definition drawtext (line : lineref) (tmp : tm) (force : bool)
  : M state bool :=
  s <- get ;;
  let l := get_line line s in
  let '(n, buf) := strftime E 64 (arg_fmt (line_arg l)) tmp in
  if n =? 0 then err 1 (MsgStrftime (arg_fmt (line_arg l)))
  else if negb force && (strcmp buf (line_buf l) =? 0) then
    (* no need to redraw *)
    ret false
  else
    let len := strlen buf in
    w <- textnw (line_xfont l) buf len ;;
    when (negb (line_warned l) && (dc_w (dc s) <? w))
         (modify (set_line line (with_warned true)) ;;
          warnx (MsgExcessiveWidth line w buf (arg_font (line_arg l)))) ;;
    emit (EvXSetForeground
            (if 2 <? args_debug (args s) then 3153968 (* 0x302030 *)
             else pixel (dc_bg (dc s)))) ;;
    emit (EvXFillRectangle (dc_x (dc s)) (line_y l) (dc_w (dc s))
                           (line_height l)) ;;
    emit EvXftDrawCreate ;;
    emit (EvXftDrawStringUtf8 line (line_xfont l)
            (int_div (int_sub (dc_w (dc s)) w) 2)
            (int_add (line_y l) (line_ascent l))
            buf len) ;;
    emit EvXftDrawDestroy ;;
    modify (set_line line (with_buf (strncpy buf 64))) ;;
    ret true.

(** [now] is what [localtime(&t)] returns for the current [time(NULL)];
    [None] is the null pointer. *)
Definition draw (now : option tm) : M state bool :=
  let dirty := false in
  match now with
  | None => err 1 MsgLocaltime
  | Some tmp =>
      dirty <- drawtext Text1 tmp dirty ;;
      dirty <- drawtext Text2 tmp dirty ;;
      emit EvXSync ;;
      ret dirty
  end.

(** The scan [for (i = 0; i < n; ++i) if (info[i].x_org == 0) break;]:
    the index at which it stops, [n] when no entry matches. *)
Fixpoint first_origin (info : list XineramaScreenInfo) (i : Z) : Z :=
  match info with
  | [] => i
  | m :: rest => if x_org m =? 0 then i else first_origin rest (i + 1)
  end.

(** [info[i]]; an index outside the array is undefined behaviour. *)
Definition info_at (info : list XineramaScreenInfo) (i : Z)
  : option XineramaScreenInfo :=
  if i <? 0 then None else nth_error info (Z.to_nat i).

Definition copy_to_root : M state unit :=
  s <- get ;;
  emit (EvXCopyArea 0 0 (dc_w (dc s)) (dc_h (dc s))
                    (dc_x (dc s)) (dc_y (dc s))) ;;
  emit EvXSync.

Definition setup (now : option tm) : M state unit :=
  if negb (XOpenDisplay E) then errx 1 MsgCannotOpenDisplay
  else
    modify (set_dc (with_geometry 0 0 (DisplayWidth E) (DisplayHeight E))) ;;
    match Xinerama E with
    | None => ret tt
    | Some info =>
        let n := Z.of_nat (List.length info) in
        s <- get ;;
        i <- (if negb (args_screen (args s) =? -1) then
                if n <=? args_screen (args s) then
                  errx 1 (MsgExceedsScreens (args_screen (args s)) n)
                else ret (args_screen (args s))
              else ret (first_origin info 0)) ;;
        match info_at info i with
        | None => undefined
        | Some m =>
            modify (set_dc (with_geometry (x_org m) (y_org m)
                                          (width m) (height m))) ;;
            emit EvXFree
        end
    end ;;
    s <- get ;;
    when (1 <? args_debug (args s))
         (printf (MsgGeometry (dc_x (dc s)) (dc_y (dc s))
                              (dc_w (dc s)) (dc_h (dc s)))) ;;
    emit (EvXCreatePixmap (dc_w (dc s)) (dc_h (dc s))) ;;
    emit EvXCreateGC ;;
    match XAllocNamedColor E (args_background (args s)) with
    | None => errx 1 (MsgCannotLoadColor (args_background (args s)))
    | Some bg =>
        modify (set_dc (with_bg bg)) ;;
        initline Text1 (args_text1 (args s)) ;;
        initline Text2 (args_text2 (args s)) ;;
        modify (fun s =>
          set_line Text1 (with_y
            (int_add
               (int_div
                  (int_sub (int_sub (dc_h (dc s))
                                    (line_height (dc_text1 (dc s))))
                           (line_height (dc_text2 (dc s))))
                  2)
               (arg_dy (args_text1 (args s))))) s) ;;
        modify (fun s =>
          set_line Text2 (with_y
            (int_add
               (int_add (line_y (dc_text1 (dc s)))
                        (line_height (dc_text1 (dc s))))
               (arg_dy (args_text2 (args s))))) s) ;;
        s <- get ;;
        emit (EvXSetForeground (pixel (dc_bg (dc s)))) ;;
        emit (EvXFillRectangle (dc_x (dc s)) (dc_y (dc s))
                               (dc_w (dc s)) (dc_h (dc s))) ;;
        emit EvXSelectInput ;;
        draw now ;;
        copy_to_root
    end.

Definition catch (signal : Z) : M state unit :=
  modify (set_running false).

Definition cleanup : M state unit :=
  emit EvXClearWindow ;;
  emit EvXFreePixmap ;;
  emit (EvXftColorFree Text1) ;;
  emit (EvXftColorFree Text2) ;;
  emit EvXFreeGC ;;
  emit EvXCloseDisplay.

(** What the world feeds one iteration of the [while (running)] loop:
    a signal delivered while the process waits (if any), the return value
    of [poll], and the answer of [localtime] should [draw] be called. *)
Record tick : Type := mk_tick {
  tick_signal : option Z;
  tick_poll : Z;
  tick_now : option tm
}.

(** The body of the loop.  The returned flag is the local [dirty] when
    the iteration ends. *)
Definition iteration (t : tick) : M state bool :=
  match tick_signal t with
  | Some sig => catch sig
  | None => ret tt
  end ;;
  dirty <- (if tick_poll t =? -1 then warn MsgPoll ;; ret false
            else if tick_poll t =? 0 then draw (tick_now t)
            else ret true) ;;
  when dirty copy_to_root ;;
  ret dirty.

Fixpoint loop (ticks : list tick) : M state unit :=
  match ticks with
  | [] => ret tt
  | t :: rest =>
      s <- get ;;
      if running s then iteration t ;; loop rest else ret tt
  end.

(** [main] from [setup()] on, for a finite run of [ticks]; [cleanup] is
    reached once [running] is cleared. *)
Definition main (now : option tm) (ticks : list tick) : M state unit :=
  setup now ;;
  loop ticks ;;
  s <- get ;;
  if running s then ret tt else cleanup.

End Program.

End Wallclock.

(** * The fixed-pitch variant (second source file) *)

Module FixedPitch.

Record linearg_t : Type := mk_linearg {
  arg_fmt : string;
  arg_font : string;
  arg_color : string;
  arg_dy : Z
}.

Record args_t : Type := mk_args {
  args_text1 : linearg_t;
  args_text2 : linearg_t;
  args_background : string;
  args_debug : Z
}.

Definition default_args : args_t :=
  {| args_text1 := {| arg_fmt := "%H:%M";
                      arg_font := "DejaVuSansMono:style=bold:size=400";
                      arg_color := "#202020";
                      arg_dy := 0 |};
     args_text2 := {| arg_fmt := "%Y-%m-%d %a. v. %V";
                      arg_font := "DejaVuSansMono:style=bold:size=60";
                      arg_color := "#303030";
                      arg_dy := 0 |};
     args_background := "#000000";
     args_debug := 1 |}.

Record line_t : Type := mk_line {
  line_buf : string;
  line_y : Z;
  line_ascent : Z;
  line_height : Z;
  line_fwidth : Z;
  line_warned : bool;
  line_xfont : XftFont;
  line_color : XftColor;
  line_arg : linearg_t
}.

Record dc_t : Type := mk_dc {
  dc_bg : XColor;
  dc_w : Z; dc_h : Z;
  dc_text1 : line_t;
  dc_text2 : line_t
}.

Record state : Type := mk_state {
  args : args_t;
  running : bool;
  dc : dc_t
}.

Definition zero_line : line_t :=
  {| line_buf := ""; line_y := 0; line_ascent := 0; line_height := 0;
     line_fwidth := 0; line_warned := false;
     line_xfont := mk_XftFont 0 0 0; line_color := mk_XftColor 0;
     line_arg := mk_linearg "" "" "" 0 |}.

Definition initial_state (a : args_t) : state :=
  {| args := a; running := true;
     dc := {| dc_bg := mk_XColor 0; dc_w := 0; dc_h := 0;
              dc_text1 := zero_line; dc_text2 := zero_line |} |}.

Definition get_line (l : lineref) (s : state) : line_t :=
  match l with
  | Text1 => dc_text1 (dc s)
  | Text2 => dc_text2 (dc s)
  end.

Definition set_dc (f : dc_t -> dc_t) (s : state) : state :=
  {| args := args s; running := running s; dc := f (dc s) |}.

Definition set_line (l : lineref) (f : line_t -> line_t) (s : state)
  : state :=
  set_dc (fun d =>
    match l with
    | Text1 => {| dc_bg := dc_bg d; dc_w := dc_w d; dc_h := dc_h d;
                  dc_text1 := f (dc_text1 d); dc_text2 := dc_text2 d |}
    | Text2 => {| dc_bg := dc_bg d; dc_w := dc_w d; dc_h := dc_h d;
                  dc_text1 := dc_text1 d; dc_text2 := f (dc_text2 d) |}
    end) s.

Definition with_buf (b : string) (l : line_t) : line_t :=
  {| line_buf := b; line_y := line_y l; line_ascent := line_ascent l;
     line_height := line_height l; line_fwidth := line_fwidth l;
     line_warned := line_warned l; line_xfont := line_xfont l;
     line_color := line_color l; line_arg := line_arg l |}.

Definition with_warned (b : bool) (l : line_t) : line_t :=
  {| line_buf := line_buf l; line_y := line_y l;
     line_ascent := line_ascent l; line_height := line_height l;
     line_fwidth := line_fwidth l; line_warned := b;
     line_xfont := line_xfont l; line_color := line_color l;
     line_arg := line_arg l |}.

Definition with_y (v : Z) (l : line_t) : line_t :=
  {| line_buf := line_buf l; line_y := v; line_ascent := line_ascent l;
     line_height := line_height l; line_fwidth := line_fwidth l;
     line_warned := line_warned l; line_xfont := line_xfont l;
     line_color := line_color l; line_arg := line_arg l |}.

Definition with_fwidth (v : Z) (l : line_t) : line_t :=
  {| line_buf := line_buf l; line_y := line_y l;
     line_ascent := line_ascent l; line_height := line_height l;
     line_fwidth := v; line_warned := line_warned l;
     line_xfont := line_xfont l; line_color := line_color l;
     line_arg := line_arg l |}.

(** The assignments of [initline] up to and including [line->fwidth]. *)
Definition with_font (xfont : XftFont) (l : line_t) : line_t :=
  {| line_buf := line_buf l; line_y := line_y l;
     line_ascent := xft_ascent xfont;
     line_height := int_add (xft_ascent xfont) (xft_descent xfont);
     line_fwidth := xft_max_advance_width xfont;
     line_warned := line_warned l; line_xfont := xfont;
     line_color := line_color l; line_arg := line_arg l |}.

(** The assignments of [initline] after the colour is allocated. *)
Definition with_color (color : XftColor) (arg : linearg_t) (l : line_t)
  : line_t :=
  {| line_buf := line_buf l; line_y := line_y l;
     line_ascent := line_ascent l; line_height := line_height l;
     line_fwidth := line_fwidth l; line_warned := false;
     line_xfont := line_xfont l; line_color := color; line_arg := arg |}.

Definition with_geometry (w h : Z) (d : dc_t) : dc_t :=
  {| dc_bg := dc_bg d; dc_w := w; dc_h := h;
     dc_text1 := dc_text1 d; dc_text2 := dc_text2 d |}.

Definition with_bg (c : XColor) (d : dc_t) : dc_t :=
  {| dc_bg := c; dc_w := dc_w d; dc_h := dc_h d;
     dc_text1 := dc_text1 d; dc_text2 := dc_text2 d |}.

Definition set_running (b : bool) (s : state) : state :=
  {| args := args s; running := b; dc := dc s |}.

(** [fwidth > t * 1.5], the comparison being made in [double].  Both
    operands are exact there: a 32-bit integer and three halves of one
    need at most 33 significant bits. *)
Definition exceeds_one_and_a_half (fwidth t : Z) : bool :=
  negb (Qle_bool (inject_Z fwidth) (inject_Z t * (3 # 2))).

Section Program.

Variable E : Xenv.

Definition textnw (xfont : XftFont) (text : string) (len : Z)
  : M state Z :=
  emit (EvXftTextExtentsUtf8 xfont text len) ;;
  ret (gi_width (XftTextExtentsUtf8 E xfont
                   (substring 0 (Z.to_nat len) text))).

Definition initline (line : lineref) (arg : linearg_t) : M state unit :=
  match XftFontOpenName E (arg_font arg) with
  | None => errx 1 (MsgCannotLoadFont (arg_font arg))
  | Some xfont =>
      modify (set_line line (with_font xfont)) ;;
      t <- textnw xfont "0" 1 ;;
      when (exceeds_one_and_a_half (xft_max_advance_width xfont) t)
           (s <- get ;;
            when (0 <? args_debug (args s))
                 (warnx (MsgNonMonospaced (arg_font arg))) ;;
            modify (set_line line (with_fwidth 0))) ;;
      match XftColorAllocName E (arg_color arg) with
      | None => errx 1 (MsgCannotLoadColor (arg_color arg))
      | Some color => modify (set_line line (with_color color arg))
      end
  end.

Definition setup : M state unit :=
  if negb (XOpenDisplay E) then errx 1 MsgCannotOpenDisplay
  else
    modify (set_dc (with_geometry (DisplayWidth E) (DisplayHeight E))) ;;
    s <- get ;;
    emit (EvXCreatePixmap (dc_w (dc s)) (dc_h (dc s))) ;;
    emit EvXCreateGC ;;
    match XAllocNamedColor E (args_background (args s)) with
    | None => errx 1 (MsgCannotLoadColor (args_background (args s)))
    | Some bg =>
        modify (set_dc (with_bg bg)) ;;
        initline Text1 (args_text1 (args s)) ;;
        initline Text2 (args_text2 (args s)) ;;
        modify (fun s =>
          set_line Text1 (with_y
            (int_add
               (int_div
                  (int_sub (int_sub (dc_h (dc s))
                                    (line_height (dc_text1 (dc s))))
                           (line_height (dc_text2 (dc s))))
                  2)
               (arg_dy (args_text1 (args s))))) s) ;;
        modify (fun s =>
          set_line Text2 (with_y
            (int_add
               (int_add (line_y (dc_text1 (dc s)))
                        (line_height (dc_text1 (dc s))))
               (arg_dy (args_text2 (args s))))) s) ;;
        s <- get ;;
        emit (EvXSetForeground (pixel (dc_bg (dc s)))) ;;
        emit (EvXFillRectangle 0 0 (dc_w (dc s)) (dc_h (dc s))) ;;
        emit EvXSelectInput
    end.

(** [int w = line->fwidth * len;]: the product is formed in [size_t] and
    converted back to [int]. *)
Definition fixed_width (fwidth len : Z) : Z :=
  to_int (to_size_t (to_size_t fwidth * len)).

Definition drawtext (line : lineref) (tmp : tm) : M state unit :=
  s <- get ;;
  let l := get_line line s in
  let '(n, buf) := strftime E 64 (arg_fmt (line_arg l)) tmp in
  if n =? 0 then err 1 (MsgStrftime (arg_fmt (line_arg l)))
  else if strcmp buf (line_buf l) =? 0 then
    (* no need to redraw *)
    ret tt
  else
    let len := strlen buf in
    let w := fixed_width (line_fwidth l) len in
    let ew := 0 in
    w_ew <- (if w =? 0 then
               (* non-monospaced *)
               w <- textnw (line_xfont l) buf len ;;
               ret (w, int_div w 8)
             else ret (w, ew)) ;;
    let w := fst w_ew in
    let ew := snd w_ew in
    when (negb (line_warned l) && (dc_w (dc s) <? int_add w ew))
         (modify (set_line line (with_warned true)) ;;
          warnx (MsgExcessiveWidth line (int_add w ew) buf
                                   (arg_font (line_arg l)))) ;;
    emit (EvXSetForeground
            (if 2 <? args_debug (args s) then 3153968 (* 0x302030 *)
             else pixel (dc_bg (dc s)))) ;;
    emit (EvXFillRectangle (int_div (int_sub (dc_w (dc s)) w) 2)
                           (line_y l) (int_add w ew) (line_height l)) ;;
    emit EvXftDrawCreate ;;
    emit (EvXftDrawStringUtf8 line (line_xfont l)
            (int_div (int_add (int_sub (dc_w (dc s)) w) ew) 2)
            (int_add (line_y l) (line_ascent l))
            buf len) ;;
    emit EvXftDrawDestroy ;;
    modify (set_line line (with_buf (strncpy buf 64))).

(** [now] is the answer of [localtime] when [draw] asks for it. *)
Definition draw (now : option tm) (dirty : bool) : M state unit :=
  when dirty
       match now with
       | None => err 1 MsgLocaltime
       | Some tmp =>
           drawtext Text1 tmp ;;
           drawtext Text2 tmp
       end ;;
  s <- get ;;
  emit (EvXCopyArea 0 0 (dc_w (dc s)) (dc_h (dc s)) 0 0) ;;
  emit EvXSync.

Definition catch (signal : Z) : M state unit :=
  printf (MsgCaught signal) ;;
  modify (set_running false).

Definition cleanup : M state unit :=
  emit EvXClearWindow ;;
  emit EvXFreePixmap ;;
  emit (EvXftColorFree Text1) ;;
  emit (EvXftColorFree Text2) ;;
  emit EvXFreeGC ;;
  emit EvXCloseDisplay.

Record tick : Type := mk_tick {
  tick_signal : option Z;
  tick_poll : Z;
  tick_now : option tm
}.

Definition iteration (t : tick) : M state unit :=
  match tick_signal t with
  | Some sig => catch sig
  | None => ret tt
  end ;;
  if tick_poll t =? -1 then warn MsgPoll
  else if tick_poll t =? 0 then draw (tick_now t) true
  else draw (tick_now t) false.

Fixpoint loop (ticks : list tick) : M state unit :=
  match ticks with
  | [] => ret tt
  | t :: rest =>
      s <- get ;;
      if running s then iteration t ;; loop rest else ret tt
  end.

(** [main] from [setup()] on, for a finite run of [ticks]. *)
Definition main (now : option tm) (ticks : list tick) : M state unit :=
  setup ;;
  draw now true ;;
  loop ticks ;;
  s <- get ;;
  if running s then ret tt else cleanup.

End Program.

End FixedPitch.

(** * A concrete world, for running the programs on examples *)

Module Sample.

Definition digit (d : Z) : ascii := ascii_of_nat (48 + Z.to_nat (d mod 10)).

Definition two_digits (n : Z) : string :=
  String (digit (n / 10)) (String (digit n) "").

Definition four_digits (n : Z) : string :=
  String (digit (n / 1000)) (String (digit (n / 100))
    (String (digit (n / 10)) (String (digit n) ""))).

(** The conversions %H %M %S %Y %m %d and %% of strftime. *)
Definition conversion (c : ascii) (t : tm) : string :=
  if Ascii.eqb c "H" then two_digits (tm_hour t)
  else if Ascii.eqb c "M" then two_digits (tm_min t)
  else if Ascii.eqb c "S" then two_digits (tm_sec t)
  else if Ascii.eqb c "Y" then four_digits (tm_year t + 1900)
  else if Ascii.eqb c "m" then two_digits (tm_mon t + 1)
  else if Ascii.eqb c "d" then two_digits (tm_mday t)
  else if Ascii.eqb c "%" then "%"
  else "".

Fixpoint expand (fmt : string) (t : tm) : string :=
  match fmt with
  | EmptyString => ""
  | String c rest =>
      if Ascii.eqb c "%" then
        match rest with
        | EmptyString => ""
        | String k rest' => (conversion k t ++ expand rest' t)%string
        end
      else String c (expand rest t)
  end.

(** Fonts: ["prop"] has a maximum advance of 120, every other name one of
    100; ["missing"] cannot be opened. *)
Definition open_font (name : string) : option XftFont :=
  if String.eqb name "missing" then None
  else if String.eqb name "prop" then Some (mk_XftFont 80 20 120)
  else Some (mk_XftFont 80 20 100).

(** Every glyph advances by [adv] pixels. *)
Definition extents (adv : Z) (f : XftFont) (text : string) : XGlyphInfo :=
  let w := adv * strlen text in
  {| gi_width := w; gi_height := xft_ascent f + xft_descent f;
     gi_x := 0; gi_y := xft_ascent f; gi_xOff := w; gi_yOff := 0 |}.

Definition two_monitors : list XineramaScreenInfo :=
  [ mk_XineramaScreenInfo 0 0 0 1920 1080;
    mk_XineramaScreenInfo 1 1920 0 1280 1024 ].

(** A display of [dw] x [dh] pixels whose glyphs advance by [adv]. *)
Definition world (xin : option (list XineramaScreenInfo)) (adv dw dh : Z)
  : Xenv :=
  {| strftime_expand := expand;
     XOpenDisplay := true;
     DisplayWidth := dw;
     DisplayHeight := dh;
     Xinerama := xin;
     XftFontOpenName := open_font;
     XftColorAllocName := fun _ => Some (mk_XftColor 2105376);
     XAllocNamedColor := fun _ => Some (mk_XColor 0);
     XftTextExtentsUtf8 := extents adv |}.

Definition env0 : Xenv := world None 70 1920 1080.

(** 2024-03-05 12:00:00 and one minute later. *)
Definition noon : tm := mk_tm 0 0 12 5 2 124 2 64 0.
Definition noon01 : tm := mk_tm 0 1 12 5 2 124 2 64 0.

End Sample.

(** * Auxiliary notions used in the statements *)

(** The string the renderer works with once [strftime] has returned a
    non-zero count; [None] when the renderer takes the fatal branch. *)
Definition formatted (E : Xenv) (fmt : string) (t : tm) : option string :=
  let '(n, buf) := strftime E 64 fmt t in
  if n =? 0 then None else Some buf.

Definition is_draw (e : event) : bool :=
  is_draw_of Text1 e || is_draw_of Text2 e.

Definition is_sync (e : event) : bool :=
  match e with EvXSync => true | _ => false end.

(** A copy of the canvas immediately followed by a synchronisation. *)
Fixpoint presented (out : list event) : bool :=
  match out with
  | [] => false
  | e :: rest =>
      match rest with
      | e' :: _ => (is_copy e && is_sync e') || presented rest
      | [] => false
      end
  end.



Definition is_stderr (e : event) : bool :=
  match e with EvStderr _ => true | _ => false end.

(** Events that neither paint a string nor report an excessive width. *)
Definition is_neutral (e : event) : bool :=
  match e with
  | EvXftDrawStringUtf8 _ _ _ _ _ _ => false
  | EvStderr (MsgExcessiveWidth _ _ _ _) => false
  | _ => true
  end.

Definition changed (text : string) (l_buf : string) : bool :=
  negb (String.eqb text l_buf).

(** What a repaint of [line] with [text] emits and leaves behind in
    [src/wallclock.c], written out as data. *)
Module WallclockPaint.
Import Wallclock.

Definition measured (E : Xenv) (l : line_t) (text : string) : Z :=
  gi_xOff (XftTextExtentsUtf8 E (line_xfont l)
             (substring 0 (Z.to_nat (strlen text)) text)).

Definition excessive (E : Xenv) (s : state) (line : lineref)
  (text : string) : bool :=
  negb (line_warned (get_line line s))
  && (dc_w (dc s) <? measured E (get_line line s) text).

(** The band of a line: the full surface width at the line's height. *)
Definition band (s : state) (line : lineref) : event :=
  EvXFillRectangle (dc_x (dc s)) (line_y (get_line line s))
                   (dc_w (dc s)) (line_height (get_line line s)).


Definition draw_string (E : Xenv) (s : state) (line : lineref)
  (text : string) : event :=
  let l := get_line line s in
  EvXftDrawStringUtf8 line (line_xfont l)
    (int_div (int_sub (dc_w (dc s)) (measured E l text)) 2)
    (int_add (line_y l) (line_ascent l))
    text (strlen text).

Definition repaint_events (E : Xenv) (s : state) (line : lineref)
  (text : string) : list event :=
  let l := get_line line s in
  [EvXftTextExtentsUtf8 (line_xfont l) text (strlen text)]
  ++ (if excessive E s line text then
        [EvStderr (MsgExcessiveWidth line (measured E l text) text
                                     (arg_font (line_arg l)))]
      else [])
  ++ [EvXSetForeground (if 2 <? args_debug (args s) then 3153968
                        else pixel (dc_bg (dc s)));
      band s line;
      EvXftDrawCreate;
      draw_string E s line text;
      EvXftDrawDestroy].

Definition repaint_state (E : Xenv) (s : state) (line : lineref)
  (text : string) : state :=
  set_line line (with_buf (strncpy text 64))
    (if excessive E s line text then set_line line (with_warned true) s
     else s).

Definition line_fmt (s : state) (line : lineref) : string :=
  arg_fmt (line_arg (get_line line s)).

End WallclockPaint.

(** The same for the fixed-pitch variant. *)
Module FixedPitchPaint.
Import FixedPitch.

Definition measured (E : Xenv) (l : line_t) (text : string) : Z :=
  gi_width (XftTextExtentsUtf8 E (line_xfont l)
              (substring 0 (Z.to_nat (strlen text)) text)).

(** The fixed-pitch path is the one on which [w] is not zero after
    [int w = line->fwidth * len]. *)
Definition fixed_pitch (l : line_t) (text : string) : bool :=
  negb (fixed_width (line_fwidth l) (strlen text) =? 0).

Definition paint_w (E : Xenv) (l : line_t) (text : string) : Z :=
  if fixed_pitch l text then fixed_width (line_fwidth l) (strlen text)
  else measured E l text.

Definition paint_ew (E : Xenv) (l : line_t) (text : string) : Z :=
  if fixed_pitch l text then 0 else int_div (measured E l text) 8.

Definition paint_width (E : Xenv) (l : line_t) (text : string) : Z :=
  int_add (paint_w E l text) (paint_ew E l text).

Definition excessive (E : Xenv) (s : state) (line : lineref)
  (text : string) : bool :=
  negb (line_warned (get_line line s))
  && (dc_w (dc s) <? paint_width E (get_line line s) text).

Definition clear_rect (E : Xenv) (s : state) (line : lineref)
  (text : string) : event :=
  let l := get_line line s in
  EvXFillRectangle (int_div (int_sub (dc_w (dc s)) (paint_w E l text)) 2)
                   (line_y l) (paint_width E l text) (line_height l).

Definition draw_string (E : Xenv) (s : state) (line : lineref)
  (text : string) : event :=
  let l := get_line line s in
  EvXftDrawStringUtf8 line (line_xfont l)
    (int_div (int_add (int_sub (dc_w (dc s)) (paint_w E l text))
                      (paint_ew E l text)) 2)
    (int_add (line_y l) (line_ascent l))
    text (strlen text).

Definition repaint_events (E : Xenv) (s : state) (line : lineref)
  (text : string) : list event :=
  let l := get_line line s in
  (if fixed_pitch l text then []
   else [EvXftTextExtentsUtf8 (line_xfont l) text (strlen text)])
  ++ (if excessive E s line text then
        [EvStderr (MsgExcessiveWidth line (paint_width E l text) text
                                     (arg_font (line_arg l)))]
      else [])
  ++ [EvXSetForeground (if 2 <? args_debug (args s) then 3153968
                        else pixel (dc_bg (dc s)));
      clear_rect E s line text;
      EvXftDrawCreate;
      draw_string E s line text;
      EvXftDrawDestroy].

Definition repaint_state (E : Xenv) (s : state) (line : lineref)
  (text : string) : state :=
  set_line line (with_buf (strncpy text 64))
    (if excessive E s line text then set_line line (with_warned true) s
     else s).

Definition line_fmt (s : state) (line : lineref) : string :=
  arg_fmt (line_arg (get_line line s)).

End FixedPitchPaint.

(** * Concrete states for the examples *)

Module Examples.
Import Sample.

Definition mono : XftFont := mk_XftFont 80 20 100.

(** src/wallclock.c: a 1920x1080 surface, line 1 at y = 440 and line 2 at
    y = 540, both 100 pixels high. *)
Definition wargs (fmt1 fmt2 : string) (debug screen : Z)
  : Wallclock.args_t :=
  Wallclock.mk_args (Wallclock.mk_linearg fmt1 "mono" "#202020" 0)
                    (Wallclock.mk_linearg fmt2 "mono" "#303030" 0)
                    "#000000" debug screen.

Definition wline (arg : Wallclock.linearg_t) (buf : string) (y : Z)
  : Wallclock.line_t :=
  Wallclock.mk_line buf y 80 100 false mono (mk_XftColor 2105376) arg.

Definition wstate (fmt1 buf1 fmt2 buf2 : string) : Wallclock.state :=
  let a := wargs fmt1 fmt2 1 (-1) in
  Wallclock.mk_state a true
    (Wallclock.mk_dc (mk_XColor 0) 0 0 1920 1080
       (wline (Wallclock.args_text1 a) buf1 440)
       (wline (Wallclock.args_text2 a) buf2 540)).

(** The clock of src/wallclock.c showing 12:00 on 2024-03-05. *)
Definition wnoon : Wallclock.state :=
  wstate "%H:%M" "12:00" "%Y-%m-%d" "2024-03-05".

(** The fixed-pitch variant, same geometry. *)
Definition pargs (fmt1 fmt2 font1 : string) (debug : Z) : FixedPitch.args_t :=
  FixedPitch.mk_args (FixedPitch.mk_linearg fmt1 font1 "#202020" 0)
                  (FixedPitch.mk_linearg fmt2 "mono" "#303030" 0)
                  "#000000" debug.

Definition pline (arg : FixedPitch.linearg_t) (buf : string) (y : Z)
  : FixedPitch.line_t :=
  FixedPitch.mk_line buf y 80 100 100 false mono (mk_XftColor 2105376) arg.

Definition pstate (fmt1 buf1 fmt2 buf2 : string) : FixedPitch.state :=
  let a := pargs fmt1 fmt2 "mono" 1 in
  FixedPitch.mk_state a true
    (FixedPitch.mk_dc (mk_XColor 0) 1920 1080
       (pline (FixedPitch.args_text1 a) buf1 440)
       (pline (FixedPitch.args_text2 a) buf2 540)).

Definition pnoon : FixedPitch.state :=
  pstate "%H:%M" "12:00" "%Y-%m-%d" "2024-03-05".

(** Sixteen four-digit years: 64 bytes, one more than the buffer holds. *)
Definition long_fmt : string :=
  "%Y%Y%Y%Y%Y%Y%Y%Y%Y%Y%Y%Y%Y%Y%Y%Y".

End Examples.

(** Worlds and states in which a line is too wide for the surface. *)
Module Wide.
Import Sample Examples.

(** Every glyph advances by 500 pixels: "12:00" measures 2500 on a
    surface 1920 wide. *)
Definition env500 : Xenv := world None 500 1920 1080.

(** The fixed-pitch variant on a surface 400 wide: five characters of
    advance 100 take 500. *)
Definition pnarrow : FixedPitch.state :=
  FixedPitch.set_dc (FixedPitch.with_geometry 400 300)
    (pstate "%H:%M" "11:59" "%Y-%m-%d" "2024-03-05").

End Wide.

(** Start-up states of the fixed-pitch variant for the width policy. *)
Module Policy.
Import Sample Examples.




End Policy.

(** Worlds and start states for monitor selection. *)
Module Monitors.
Import Sample Examples.

(** Xinerama is active and reports the two monitors of [two_monitors]. *)
Definition env2 : Xenv := world (Some two_monitors) 70 3200 1080.

(** The state [main] hands to [setup] after [-s screen]. *)
Definition requested (screen : Z) : Wallclock.state :=
  Wallclock.initial_state (wargs "%H:%M" "%Y-%m-%d" 1 screen).

End Monitors.

(** * Assertions over a state and the trace emitted so far *)

Definition assertion (S : Type) : Type := S -> list event -> Prop.

(** [hoare P m Qn Qx]: started in a state and after a trace satisfying
    [P], the computation [m] either returns [a] with [Qn a] holding of the
    final state and trace, or stops (by [exit] or undefined behaviour) with
    [Qx] holding of them. *)
Definition hoare {S A} (P : assertion S) (m : M S A)
  (Qn : A -> assertion S) (Qx : assertion S) : Prop :=
  forall s pre, P s pre ->
    match m s with
    | Done a s' out => Qn a s' (pre ++ out)
    | Exit _ s' out | Undefined s' out => Qx s' (pre ++ out)
    end.

(** [triple P m Q]: [Q] holds however [m] ends. *)
Definition triple {S A} (P : assertion S) (m : M S A) (Q : assertion S)
  : Prop :=
  hoare P m (fun _ => Q) Q.

Definition entails {S} (P Q : assertion S) : Prop :=
  forall s h, P s h -> Q s h.

(** The invariant of a line: its [buf] is the string last painted for it,
    and the excessive-width diagnostic was written at most once, and not
    at all while [warned] is still clear. *)
Definition line_invariant (buf : string) (warned : bool) (l : lineref)
  (h : list event) : Prop :=
  buf = last_painted l h
  /\ (warned = false -> count_excessive l h = 0%nat)
  /\ (count_excessive l h <= 1)%nat.

Definition Wallclock_inv : assertion Wallclock.state :=
  fun s h => forall l,
    line_invariant (Wallclock.line_buf (Wallclock.get_line l s))
                   (Wallclock.line_warned (Wallclock.get_line l s)) l h.

Definition FixedPitch_inv : assertion FixedPitch.state :=
  fun s h => forall l,
    line_invariant (FixedPitch.line_buf (FixedPitch.get_line l s))
                   (FixedPitch.line_warned (FixedPitch.get_line l s)) l h.

(** Before the first draw: both buffers empty, nothing painted and no
    excessive-width diagnostic written. *)
Definition Wallclock_pristine : assertion Wallclock.state :=
  fun s h =>
    (forall l, Wallclock.line_buf (Wallclock.get_line l s) = "")
    /\ forallb is_neutral h = true.

Definition FixedPitch_pristine : assertion FixedPitch.state :=
  fun s h =>
    (forall l, FixedPitch.line_buf (FixedPitch.get_line l s) = "")
    /\ forallb is_neutral h = true.

(** The surface geometry of src/wallclock.c. *)
Definition Wallclock_geometry (s : Wallclock.state) : Z * Z * Z * Z :=
  (Wallclock.dc_x (Wallclock.dc s), Wallclock.dc_y (Wallclock.dc s),
   Wallclock.dc_w (Wallclock.dc s), Wallclock.dc_h (Wallclock.dc s)).

(** The surface has geometry [g] and the pixmap request [px] has been
    issued. *)
Definition Wallclock_surface (g : Z * Z * Z * Z) (px : event)
  : assertion Wallclock.state :=
  fun s h => Wallclock_geometry s = g /\ In px h.

Definition is_create_pixmap (e : event) : bool :=
  match e with EvXCreatePixmap _ _ => true | _ => false end.

(** * Further notions, for properties of whole runs *)

(** A draw call is well formed when its length argument is the length of
    its string and lies between 1 and 63. *)
Definition bounded_draw (e : event) : Prop :=
  match e with
  | EvXftDrawStringUtf8 _ _ _ _ text len => len = strlen text /\ 0 < len < 64
  | _ => True
  end.

(** Both buffers hold fewer than 64 bytes (so the terminator fits) and
    every draw call so far was well formed. *)
Definition Wallclock_bounded : assertion Wallclock.state :=
  fun s h =>
    (forall l,
        (String.length (Wallclock.line_buf (Wallclock.get_line l s)) < 64)%nat)
    /\ Forall bounded_draw h.

Definition FixedPitch_bounded : assertion FixedPitch.state :=
  fun s h =>
    (forall l,
        (String.length (FixedPitch.line_buf (FixedPitch.get_line l s)) < 64)%nat)
    /\ Forall bounded_draw h.


(** The events the loop emits outside a repaint: its diagnostics, the
    handler's line, the synchronisation and the copy to the root window. *)
Definition loop_event (e : event) : bool :=
  match e with
  | EvStderr (MsgStrftime _) | EvStderr MsgLocaltime | EvStderr MsgPoll => true
  | EvStdout (MsgCaught _) => true
  | EvXSync => true
  | EvXCopyArea _ _ _ _ _ _ => true
  | _ => false
  end.

(** The requests of [cleanup], in the order it issues them. *)
Definition cleanup_events : list event :=
  [EvXClearWindow; EvXFreePixmap; EvXftColorFree Text1; EvXftColorFree Text2;
   EvXFreeGC; EvXCloseDisplay].

Definition is_cleanup (e : event) : bool :=
  match e with
  | EvXClearWindow | EvXFreePixmap | EvXftColorFree _ | EvXFreeGC
  | EvXCloseDisplay => true
  | _ => false
  end.







(** Ticks for the examples of whole runs. *)
Module Runs.
Import Sample.

(** A timeout at 12:00, SIGTERM caught during a wait that then fails, and
    a timeout at 12:01. *)
Definition w_timeout : Wallclock.tick := Wallclock.mk_tick None 0 (Some noon).
Definition w_sigterm : Wallclock.tick := Wallclock.mk_tick (Some 15) (-1) None.
Definition w_later : Wallclock.tick := Wallclock.mk_tick None 0 (Some noon01).
Definition w_poll_error : Wallclock.tick := Wallclock.mk_tick None (-1) None.
Definition w_expose : Wallclock.tick := Wallclock.mk_tick None 1 None.

Definition p_timeout : FixedPitch.tick :=
  FixedPitch.mk_tick None 0 (Some noon).
Definition p_sigterm : FixedPitch.tick :=
  FixedPitch.mk_tick (Some 15) (-1) None.
Definition p_later : FixedPitch.tick :=
  FixedPitch.mk_tick None 0 (Some noon01).
Definition p_poll_error : FixedPitch.tick :=
  FixedPitch.mk_tick None (-1) None.
Definition p_expose : FixedPitch.tick := FixedPitch.mk_tick None 1 None.

(** The states [main] starts from, with the formats %H:%M and %Y-%m-%d. *)
Definition w_start : Wallclock.state :=
  Wallclock.initial_state (Examples.wargs "%H:%M" "%Y-%m-%d" 1 (-1)).
Definition p_start : FixedPitch.state :=
  FixedPitch.initial_state (Examples.pargs "%H:%M" "%Y-%m-%d" "mono" 1).

End Runs.


(** An outcome that, if it is a termination of the process, has status 1
    and a diagnostic on standard error as the last thing written. *)
Definition fatal_outcome {S A} (o : outcome S A) : Prop :=
  match o with
  | Exit status _ out =>
      status = 1 /\ exists pre m, out = pre ++ [EvStderr m]
  | _ => True
  end.

Definition fails_with_diagnostic {S A} (m : M S A) : Prop :=
  forall s, fatal_outcome (m s).


(** The warning of a failed [poll], and a trace without such warnings. *)
Definition is_poll_warning (e : event) : bool :=
  match e with EvStderr MsgPoll => true | _ => false end.

Definition drop_poll_warnings (out : list event) : list event :=
  filter (fun e => negb (is_poll_warning e)) out.

(** Two outcomes that end the same way, in the same state, and whose
    traces differ at most in warnings of failed polls. *)
Definition same_but_poll_warnings {S A} (o1 o2 : outcome S A) : Prop :=
  match o1, o2 with
  | Done a s out, Done a' s' out' =>
      a = a' /\ s = s' /\ drop_poll_warnings out = drop_poll_warnings out'
  | Exit c s out, Exit c' s' out' =>
      c = c' /\ s = s' /\ drop_poll_warnings out = drop_poll_warnings out'
  | Undefined s out, Undefined s' out' =>
      s = s' /\ drop_poll_warnings out = drop_poll_warnings out'
  | _, _ => False
  end.

(** An iteration in which [poll] fails and no signal is caught. *)
Definition Wallclock_poll_failed (t : Wallclock.tick) : bool :=
  (Wallclock.tick_poll t =? -1)
  && match Wallclock.tick_signal t with None => true | Some _ => false end.

Definition FixedPitch_poll_failed (t : FixedPitch.tick) : bool :=
  (FixedPitch.tick_poll t =? -1)
  && match FixedPitch.tick_signal t with None => true | Some _ => false end.


(** What start-up settles: everything but the lines' [buf] and [warned]
    and the flag [running]. *)
Definition Wallclock_line_settled (l : Wallclock.line_t) :=
  (Wallclock.line_y l, Wallclock.line_ascent l, Wallclock.line_height l,
   Wallclock.line_xfont l, Wallclock.line_color l, Wallclock.line_arg l).

Definition Wallclock_settled (s : Wallclock.state) :=
  (Wallclock.args s, Wallclock.dc_bg (Wallclock.dc s), Wallclock_geometry s,
   Wallclock_line_settled (Wallclock.dc_text1 (Wallclock.dc s)),
   Wallclock_line_settled (Wallclock.dc_text2 (Wallclock.dc s))).

Definition FixedPitch_line_settled (l : FixedPitch.line_t) :=
  (FixedPitch.line_y l, FixedPitch.line_ascent l, FixedPitch.line_height l,
   FixedPitch.line_fwidth l, FixedPitch.line_xfont l,
   FixedPitch.line_color l, FixedPitch.line_arg l).

Definition FixedPitch_settled (s : FixedPitch.state) :=
  (FixedPitch.args s, FixedPitch.dc_bg (FixedPitch.dc s),
   FixedPitch.dc_w (FixedPitch.dc s), FixedPitch.dc_h (FixedPitch.dc s),
   FixedPitch_line_settled (FixedPitch.dc_text1 (FixedPitch.dc s)),
   FixedPitch_line_settled (FixedPitch.dc_text2 (FixedPitch.dc s))).


(** A line as [initline] leaves it for the argument record [a]: it points
    to [a], holds the font and the colour opened under the names given
    there, and its metrics are those of the font. *)
Definition Wallclock_line_ready (E : Xenv) (a : Wallclock.linearg_t)
  (l : Wallclock.line_t) : Prop :=
  Wallclock.line_arg l = a
  /\ XftFontOpenName E (Wallclock.arg_font a) = Some (Wallclock.line_xfont l)
  /\ XftColorAllocName E (Wallclock.arg_color a)
     = Some (Wallclock.line_color l)
  /\ Wallclock.line_ascent l = xft_ascent (Wallclock.line_xfont l)
  /\ Wallclock.line_height l
     = int_add (xft_ascent (Wallclock.line_xfont l))
               (xft_descent (Wallclock.line_xfont l)).

(** The state as [setup] arranges it. *)
Definition Wallclock_laid_out (E : Xenv) (s : Wallclock.state) : Prop :=
  let a := Wallclock.args s in
  let l1 := Wallclock.dc_text1 (Wallclock.dc s) in
  let l2 := Wallclock.dc_text2 (Wallclock.dc s) in
  Wallclock_line_ready E (Wallclock.args_text1 a) l1
  /\ Wallclock_line_ready E (Wallclock.args_text2 a) l2
  /\ XAllocNamedColor E (Wallclock.args_background a)
     = Some (Wallclock.dc_bg (Wallclock.dc s))
  /\ Wallclock.line_y l1
     = int_add
         (int_div
            (int_sub (int_sub (Wallclock.dc_h (Wallclock.dc s))
                              (Wallclock.line_height l1))
                     (Wallclock.line_height l2)) 2)
         (Wallclock.arg_dy (Wallclock.args_text1 a))
  /\ Wallclock.line_y l2
     = int_add (int_add (Wallclock.line_y l1) (Wallclock.line_height l1))
               (Wallclock.arg_dy (Wallclock.args_text2 a)).

Definition FixedPitch_line_ready (E : Xenv) (a : FixedPitch.linearg_t)
  (l : FixedPitch.line_t) : Prop :=
  FixedPitch.line_arg l = a
  /\ XftFontOpenName E (FixedPitch.arg_font a)
     = Some (FixedPitch.line_xfont l)
  /\ XftColorAllocName E (FixedPitch.arg_color a)
     = Some (FixedPitch.line_color l)
  /\ FixedPitch.line_ascent l = xft_ascent (FixedPitch.line_xfont l)
  /\ FixedPitch.line_height l
     = int_add (xft_ascent (FixedPitch.line_xfont l))
               (xft_descent (FixedPitch.line_xfont l)).

Definition FixedPitch_laid_out (E : Xenv) (s : FixedPitch.state) : Prop :=
  let a := FixedPitch.args s in
  let l1 := FixedPitch.dc_text1 (FixedPitch.dc s) in
  let l2 := FixedPitch.dc_text2 (FixedPitch.dc s) in
  FixedPitch_line_ready E (FixedPitch.args_text1 a) l1
  /\ FixedPitch_line_ready E (FixedPitch.args_text2 a) l2
  /\ XAllocNamedColor E (FixedPitch.args_background a)
     = Some (FixedPitch.dc_bg (FixedPitch.dc s))
  /\ FixedPitch.line_y l1
     = int_add
         (int_div
            (int_sub (int_sub (FixedPitch.dc_h (FixedPitch.dc s))
                              (FixedPitch.line_height l1))
                     (FixedPitch.line_height l2)) 2)
         (FixedPitch.arg_dy (FixedPitch.args_text1 a))
  /\ FixedPitch.line_y l2
     = int_add (int_add (FixedPitch.line_y l1) (FixedPitch.line_height l1))
               (FixedPitch.arg_dy (FixedPitch.args_text2 a)).




(** Whether every copy of the canvas to the root window was made with both
    lines drawn: [d1] and [d2] tell which lines were drawn before [out];
    the first copy decides, since what is drawn stays drawn. *)
Fixpoint shown_complete (d1 d2 : bool) (out : list event) : bool :=
  match out with
  | [] => true
  | e :: rest =>
      if is_copy e then d1 && d2
      else shown_complete (d1 || is_draw_of Text1 e)
                          (d2 || is_draw_of Text2 e) rest
  end.

Definition both_drawn (h : list event) : bool :=
  existsb (is_draw_of Text1) h && existsb (is_draw_of Text2) h.

(** Nothing copied yet, and no line holds a text. *)
Definition Wallclock_blank : assertion Wallclock.state :=
  fun s h =>
    existsb is_copy h = false
    /\ forall l, Wallclock.line_buf (Wallclock.get_line l s) = "".

Definition FixedPitch_blank : assertion FixedPitch.state :=
  fun s h =>
    existsb is_copy h = false
    /\ forall l, FixedPitch.line_buf (FixedPitch.get_line l s) = "".

(** Every copy so far showed both lines, and so will every later one. *)
Definition frames_complete {S} : assertion S :=
  fun _ h =>
    shown_complete false false h = true
    /\ existsb is_copy h || both_drawn h = true.

Definition shown_complete_so_far {S} : assertion S :=
  fun _ h => shown_complete false false h = true.

(** * Properties *)

(** ** Strings and formatting *)

Lemma strcmp_eqb (a b : string) : (strcmp a b =? 0) = String.eqb a b.
Proof.
  unfold strcmp.
  destruct (String.eqb_spec a b) as [->|Hne].
  - pose proof (String.compare_antisym b b) as Ha.
    destruct (String.compare b b); simpl in Ha; try discriminate.
    reflexivity.
  - destruct (String.compare a b) eqn:Hc; try reflexivity.
    apply String.compare_eq_iff in Hc. contradiction.
Qed.

Lemma substring_all (s : string) (n : nat) :
  (String.length s <= n)%nat -> substring 0 n s = s.
Proof.
  revert n. induction s as [|c s IH]; intros [|n] H; simpl in *;
    try reflexivity; try lia.
  f_equal. apply IH. lia.
Qed.

Lemma strncpy_fits (s : string) :
  (String.length s < 64)%nat -> strncpy s 64 = s.
Proof. intros H. apply substring_all. lia. Qed.

Lemma substring_strlen (s : string) :
  substring 0 (Z.to_nat (strlen s)) s = s.
Proof.
  apply substring_all. unfold strlen. rewrite Nat2Z.id. apply le_n.
Qed.

Lemma formatted_Some (E : Xenv) (fmt : string) (t : tm) (text : string) :
  formatted E fmt t = Some text <->
  text = strftime_expand E fmt t /\ (0 < String.length text < 64)%nat.
Proof.
  unfold formatted, strftime, strlen.
  destruct (Nat.ltb_spec (String.length (strftime_expand E fmt t)) 64)
    as [Hlt|Hge].
  - destruct (Z.eqb_spec (Z.of_nat (String.length (strftime_expand E fmt t)))
                0) as [Hz|Hnz].
    + split; [discriminate|]. intros [-> H]. lia.
    + split.
      * intros [= <-]. split; [reflexivity|lia].
      * intros [-> _]. reflexivity.
  - simpl. split; [discriminate|]. intros [-> H]. lia.
Qed.

Lemma formatted_None (E : Xenv) (fmt : string) (t : tm) :
  (64 <= String.length (strftime_expand E fmt t))%nat ->
  formatted E fmt t = None.
Proof.
  intros H. destruct (formatted E fmt t) as [text|] eqn:Hf; [|reflexivity].
  apply formatted_Some in Hf. destruct Hf as [-> Hf]. lia.
Qed.

Lemma formatted_fits (E : Xenv) (fmt : string) (t : tm) (text : string) :
  formatted E fmt t = Some text -> strncpy text 64 = text.
Proof.
  intros H. apply formatted_Some in H. apply strncpy_fits. lia.
Qed.

(** ** The renderer of src/wallclock.c, case by case *)

Lemma Wallclock_drawtext_spec (E : Xenv) (s : Wallclock.state)
  (line : lineref) (tmp : tm) (force : bool) :
  Wallclock.drawtext E line tmp force s =
  match formatted E (WallclockPaint.line_fmt s line) tmp with
  | None => Exit 1 s [EvStderr (MsgStrftime (WallclockPaint.line_fmt s line))]
  | Some text =>
      if negb force
         && String.eqb text (Wallclock.line_buf (Wallclock.get_line line s))
      then Done false s []
      else Done true (WallclockPaint.repaint_state E s line text)
                     (WallclockPaint.repaint_events E s line text)
  end.
Proof.
  unfold Wallclock.drawtext, formatted, WallclockPaint.line_fmt.
  unfold bind at 1. unfold get at 1.
  destruct (strftime E 64 _ tmp) as [n buf].
  destruct (n =? 0); [reflexivity|].
  rewrite strcmp_eqb.
  destruct (negb force && String.eqb buf _); [reflexivity|].
  unfold WallclockPaint.repaint_state, WallclockPaint.repaint_events,
    WallclockPaint.excessive, WallclockPaint.measured,
    WallclockPaint.band, WallclockPaint.draw_string.
  cbv [bind Wallclock.textnw emit ret when warnx modify].
  destruct (negb _ && _); reflexivity.
Qed.

(** ** The renderer of the fixed-pitch variant, case by case *)

Lemma FixedPitch_drawtext_spec (E : Xenv) (s : FixedPitch.state)
  (line : lineref) (tmp : tm) :
  FixedPitch.drawtext E line tmp s =
  match formatted E (FixedPitchPaint.line_fmt s line) tmp with
  | None => Exit 1 s [EvStderr (MsgStrftime (FixedPitchPaint.line_fmt s line))]
  | Some text =>
      if String.eqb text (FixedPitch.line_buf (FixedPitch.get_line line s))
      then Done tt s []
      else Done tt (FixedPitchPaint.repaint_state E s line text)
                   (FixedPitchPaint.repaint_events E s line text)
  end.
Proof.
  unfold FixedPitch.drawtext, formatted, FixedPitchPaint.line_fmt.
  unfold bind at 1. unfold get at 1.
  destruct (strftime E 64 _ tmp) as [n buf].
  destruct (n =? 0); [reflexivity|].
  rewrite strcmp_eqb.
  destruct (String.eqb buf _); [reflexivity|].
  unfold FixedPitchPaint.repaint_state, FixedPitchPaint.repaint_events,
    FixedPitchPaint.clear_rect, FixedPitchPaint.draw_string,
    FixedPitchPaint.excessive, FixedPitchPaint.paint_width, FixedPitchPaint.paint_w,
    FixedPitchPaint.paint_ew, FixedPitchPaint.fixed_pitch, FixedPitchPaint.measured.
  destruct (FixedPitch.fixed_width _ _ =? 0) eqn:Hw;
    cbv [bind FixedPitch.textnw emit ret when warnx modify fst snd];
    cbn [negb];
    match goal with
    | |- context [negb ?a && ?b] => destruct (negb a && b)
    end; reflexivity.
Qed.

(** ** What a repaint leaves untouched *)

Lemma Wallclock_repaint_buf (E : Xenv) (s : Wallclock.state)
  (line : lineref) (text : string) :
  Wallclock.line_buf
    (Wallclock.get_line line (WallclockPaint.repaint_state E s line text))
  = strncpy text 64.
Proof.
  unfold WallclockPaint.repaint_state.
  destruct (WallclockPaint.excessive E s line text), line; reflexivity.
Qed.

Lemma Wallclock_repaint_other (E : Xenv) (s : Wallclock.state)
  (line l : lineref) (text : string) :
  l <> line ->
  Wallclock.get_line l (WallclockPaint.repaint_state E s line text)
  = Wallclock.get_line l s.
Proof.
  unfold WallclockPaint.repaint_state. intros Hne.
  destruct (WallclockPaint.excessive E s line text), line, l;
    try reflexivity; contradiction.
Qed.

Lemma Wallclock_repaint_frame (E : Xenv) (s : Wallclock.state)
  (line l : lineref) (text : string) :
  let s' := WallclockPaint.repaint_state E s line text in
  Wallclock.line_arg (Wallclock.get_line l s')
    = Wallclock.line_arg (Wallclock.get_line l s)
  /\ Wallclock.line_y (Wallclock.get_line l s')
     = Wallclock.line_y (Wallclock.get_line l s)
  /\ Wallclock.line_height (Wallclock.get_line l s')
     = Wallclock.line_height (Wallclock.get_line l s)
  /\ Wallclock.line_ascent (Wallclock.get_line l s')
     = Wallclock.line_ascent (Wallclock.get_line l s)
  /\ Wallclock.line_xfont (Wallclock.get_line l s')
     = Wallclock.line_xfont (Wallclock.get_line l s)
  /\ Wallclock.dc_x (Wallclock.dc s') = Wallclock.dc_x (Wallclock.dc s)
  /\ Wallclock.dc_y (Wallclock.dc s') = Wallclock.dc_y (Wallclock.dc s)
  /\ Wallclock.dc_w (Wallclock.dc s') = Wallclock.dc_w (Wallclock.dc s)
  /\ Wallclock.dc_h (Wallclock.dc s') = Wallclock.dc_h (Wallclock.dc s)
  /\ Wallclock.args s' = Wallclock.args s
  /\ Wallclock.running s' = Wallclock.running s.
Proof.
  unfold WallclockPaint.repaint_state.
  destruct (WallclockPaint.excessive E s line text), line, l;
    repeat split; reflexivity.
Qed.

Lemma Wallclock_repaint_fmt (E : Xenv) (s : Wallclock.state)
  (line l : lineref) (text : string) :
  WallclockPaint.line_fmt (WallclockPaint.repaint_state E s line text) l
  = WallclockPaint.line_fmt s l.
Proof.
  unfold WallclockPaint.line_fmt.
  now rewrite (proj1 (Wallclock_repaint_frame E s line l text)).
Qed.

Lemma FixedPitch_repaint_buf (E : Xenv) (s : FixedPitch.state)
  (line : lineref) (text : string) :
  FixedPitch.line_buf
    (FixedPitch.get_line line (FixedPitchPaint.repaint_state E s line text))
  = strncpy text 64.
Proof.
  unfold FixedPitchPaint.repaint_state.
  destruct (FixedPitchPaint.excessive E s line text), line; reflexivity.
Qed.

Lemma FixedPitch_repaint_other (E : Xenv) (s : FixedPitch.state)
  (line l : lineref) (text : string) :
  l <> line ->
  FixedPitch.get_line l (FixedPitchPaint.repaint_state E s line text)
  = FixedPitch.get_line l s.
Proof.
  unfold FixedPitchPaint.repaint_state. intros Hne.
  destruct (FixedPitchPaint.excessive E s line text), line, l;
    try reflexivity; contradiction.
Qed.

Lemma FixedPitch_repaint_frame (E : Xenv) (s : FixedPitch.state)
  (line l : lineref) (text : string) :
  let s' := FixedPitchPaint.repaint_state E s line text in
  FixedPitch.line_arg (FixedPitch.get_line l s')
    = FixedPitch.line_arg (FixedPitch.get_line l s)
  /\ FixedPitch.line_y (FixedPitch.get_line l s')
     = FixedPitch.line_y (FixedPitch.get_line l s)
  /\ FixedPitch.line_height (FixedPitch.get_line l s')
     = FixedPitch.line_height (FixedPitch.get_line l s)
  /\ FixedPitch.line_fwidth (FixedPitch.get_line l s')
     = FixedPitch.line_fwidth (FixedPitch.get_line l s)
  /\ FixedPitch.line_xfont (FixedPitch.get_line l s')
     = FixedPitch.line_xfont (FixedPitch.get_line l s)
  /\ FixedPitch.dc_w (FixedPitch.dc s') = FixedPitch.dc_w (FixedPitch.dc s)
  /\ FixedPitch.dc_h (FixedPitch.dc s') = FixedPitch.dc_h (FixedPitch.dc s)
  /\ FixedPitch.args s' = FixedPitch.args s
  /\ FixedPitch.running s' = FixedPitch.running s.
Proof.
  unfold FixedPitchPaint.repaint_state.
  destruct (FixedPitchPaint.excessive E s line text), line, l;
    repeat split; reflexivity.
Qed.

Lemma FixedPitch_repaint_fmt (E : Xenv) (s : FixedPitch.state)
  (line l : lineref) (text : string) :
  FixedPitchPaint.line_fmt (FixedPitchPaint.repaint_state E s line text) l
  = FixedPitchPaint.line_fmt s l.
Proof.
  unfold FixedPitchPaint.line_fmt.
  now rewrite (proj1 (FixedPitch_repaint_frame E s line l text)).
Qed.

(** ** Skipping an unchanged line *)



(** ** Format failure *)

(** C7.  In both variants, when the expansion of the line's format at the
    given time does not fit the 64-byte buffer together with its
    terminator, the renderer writes the strftime diagnostic and terminates
    the process with status 1; nothing else is emitted (no measurement, no
    painting) and the state at the exit is the state of the call. *)
Theorem drawtext_format_failure_is_fatal (E : Xenv) :
  (forall (s : Wallclock.state) (line : lineref) (tmp : tm) (force : bool),
      (64 <= String.length
               (strftime_expand E (WallclockPaint.line_fmt s line) tmp))%nat ->
      Wallclock.drawtext E line tmp force s
      = Exit 1 s [EvStderr (MsgStrftime (WallclockPaint.line_fmt s line))])
  /\ (forall (s : FixedPitch.state) (line : lineref) (tmp : tm),
      (64 <= String.length
               (strftime_expand E (FixedPitchPaint.line_fmt s line) tmp))%nat ->
      FixedPitch.drawtext E line tmp s
      = Exit 1 s [EvStderr (MsgStrftime (FixedPitchPaint.line_fmt s line))]).
Proof.
  split.
  - intros s line tmp force H.
    now rewrite Wallclock_drawtext_spec, (formatted_None _ _ _ H).
  - intros s line tmp H.
    now rewrite FixedPitch_drawtext_spec, (formatted_None _ _ _ H).
Qed.

Lemma drawtext_format_failure_is_fatal_witness :
  let ws := Examples.wstate Examples.long_fmt "" "%Y-%m-%d" "" in
  let ps := Examples.pstate "%H:%M" "" Examples.long_fmt "" in
  ((64 <= String.length
            (strftime_expand Sample.env0 (WallclockPaint.line_fmt ws Text1)
               Sample.noon))%nat
   /\ Wallclock.drawtext Sample.env0 Text1 Sample.noon true ws
      = Exit 1 ws [EvStderr (MsgStrftime Examples.long_fmt)])
  /\ ((64 <= String.length
               (strftime_expand Sample.env0 (FixedPitchPaint.line_fmt ps Text2)
                  Sample.noon))%nat
      /\ FixedPitch.drawtext Sample.env0 Text2 Sample.noon ps
         = Exit 1 ps [EvStderr (MsgStrftime Examples.long_fmt)]).
Proof.
  cbv zeta.
  pose proof (drawtext_format_failure_is_fatal Sample.env0) as [W P].
  split; split.
  - vm_compute. apply le_n.
  - apply (W (Examples.wstate Examples.long_fmt "" "%Y-%m-%d" "")).
    vm_compute. apply le_n.
  - vm_compute. apply le_n.
  - apply (P (Examples.pstate "%H:%M" "" Examples.long_fmt "")).
    vm_compute. apply le_n.
Defined.

(** An empty expansion cannot be told from one that does not fit:
    [strftime] returns 0 for both, and the renderer takes the same fatal
    branch. *)
Example empty_expansion_is_fatal :
  let s := Examples.wstate "" "" "%Y-%m-%d" "" in
  formatted Sample.env0 (WallclockPaint.line_fmt s Text1) Sample.noon = None
  /\ Wallclock.drawtext Sample.env0 Text1 Sample.noon false s
     = Exit 1 s [EvStderr (MsgStrftime "")].
Proof. split; reflexivity. Qed.

(** ** One full draw of src/wallclock.c *)

Lemma bind_Done {S A B} (m : M S A) (k : A -> M S B) (s s1 : S) (a : A)
  (out1 : list event) :
  m s = Done a s1 out1 ->
  bind m k s = match k a s1 with
               | Done b s2 out2 => Done b s2 (out1 ++ out2)
               | Exit c s2 out2 => Exit c s2 (out1 ++ out2)
               | Undefined s2 out2 => Undefined s2 (out1 ++ out2)
               end.
Proof. intros H. unfold bind. now rewrite H. Qed.

Lemma bind_Exit {S A B} (m : M S A) (k : A -> M S B) (s s1 : S) (c : Z)
  (out1 : list event) :
  m s = Exit c s1 out1 -> bind m k s = Exit c s1 out1.
Proof. intros H. unfold bind. now rewrite H. Qed.

Section WallclockDraw.

Import Wallclock WallclockPaint.

Variable E : Xenv.
Variable s : state.
Variable tmp : tm.
Variables t1 t2 : string.
Hypothesis Hf1 : formatted E (line_fmt s Text1) tmp = Some t1.
Hypothesis Hf2 : formatted E (line_fmt s Text2) tmp = Some t2.

Let c1 := changed t1 (line_buf (get_line Text1 s)).
Let c2 := changed t2 (line_buf (get_line Text2 s)).
Let s1 := if c1 then repaint_state E s Text1 t1 else s.
Let out1 := if c1 then repaint_events E s Text1 t1 else [].
Let s2 := if c1 || c2 then repaint_state E s1 Text2 t2 else s1.
Let out2 := if c1 || c2 then repaint_events E s1 Text2 t2 else [].

Lemma Wallclock_draw_first :
  drawtext E Text1 tmp false s = Done c1 s1 out1.
Proof.
  rewrite Wallclock_drawtext_spec, Hf1.
  subst c1 s1 out1. unfold changed. cbn [negb andb].
  now destruct (String.eqb t1 _).
Qed.

Lemma Wallclock_draw_second :
  drawtext E Text2 tmp c1 s1 = Done (c1 || c2) s2 out2.
Proof.
  rewrite Wallclock_drawtext_spec.
  assert (Hfmt : line_fmt s1 Text2 = line_fmt s Text2).
  { subst s1. destruct c1; [apply Wallclock_repaint_fmt|reflexivity]. }
  assert (Hbuf : line_buf (get_line Text2 s1) = line_buf (get_line Text2 s)).
  { subst s1. destruct c1; [|reflexivity].
    rewrite Wallclock_repaint_other; [reflexivity|discriminate]. }
  rewrite Hfmt, Hf2, Hbuf.
  subst s2 out2 c2. unfold changed.
  destruct c1; cbn [negb andb orb]; [reflexivity|].
  now destruct (String.eqb t2 _).
Qed.

Lemma Wallclock_draw_Done :
  draw E (Some tmp) s = Done (c1 || c2) s2 (out1 ++ out2 ++ [EvXSync]).
Proof.
  unfold draw.
  rewrite (bind_Done _ _ _ _ _ _ Wallclock_draw_first).
  rewrite (bind_Done _ _ _ _ _ _ Wallclock_draw_second).
  reflexivity.
Qed.

End WallclockDraw.

Lemma changed_false_iff (a b : string) : changed a b = false <-> a = b.
Proof.
  unfold changed. destruct (String.eqb_spec a b); simpl; split;
    congruence.
Qed.

Lemma Wallclock_repaint_events_In (E : Xenv) (s : Wallclock.state)
  (line : lineref) (text : string) :
  In (WallclockPaint.band s line)
     (WallclockPaint.repaint_events E s line text)
  /\ In (WallclockPaint.draw_string E s line text)
        (WallclockPaint.repaint_events E s line text).
Proof.
  unfold WallclockPaint.repaint_events.
  split; apply in_or_app; right; apply in_or_app; right; simpl; tauto.
Qed.

(** ** The force chain of [draw] *)

(** C10.  In src/wallclock.c, [draw] calls [drawtext] for line 1 without
    force and passes its result as the force flag of the call for line 2.
    With [c1], [c2] telling whether the text formatted for line 1, line 2
    differs from that line's [buf]: the first call returns [c1], the
    second is called with force [c1] and returns [c1 || c2]; when [c1]
    holds line 2 is cleared and drawn again and its [buf] rewritten even
    if [c2] is false; and [draw] returns false exactly when neither text
    differs. *)
Theorem draw_forces_second_line (E : Xenv) (s : Wallclock.state) (tmp : tm)
  (t1 t2 : string) :
  formatted E (WallclockPaint.line_fmt s Text1) tmp = Some t1 ->
  formatted E (WallclockPaint.line_fmt s Text2) tmp = Some t2 ->
  let c1 := changed t1 (Wallclock.line_buf (Wallclock.get_line Text1 s)) in
  let c2 := changed t2 (Wallclock.line_buf (Wallclock.get_line Text2 s)) in
  exists (s1 s2 : Wallclock.state) (out1 out2 : list event),
    Wallclock.drawtext E Text1 tmp false s = Done c1 s1 out1
    /\ Wallclock.drawtext E Text2 tmp c1 s1 = Done (c1 || c2) s2 out2
    /\ Wallclock.draw E (Some tmp) s
       = Done (c1 || c2) s2 (out1 ++ out2 ++ [EvXSync])
    /\ (c1 = true ->
        In (WallclockPaint.band s1 Text2) out2
        /\ In (WallclockPaint.draw_string E s1 Text2 t2) out2
        /\ Wallclock.line_buf (Wallclock.get_line Text2 s2) = t2)
    /\ ((c1 || c2) = false <->
        t1 = Wallclock.line_buf (Wallclock.get_line Text1 s)
        /\ t2 = Wallclock.line_buf (Wallclock.get_line Text2 s)).
Proof.
  intros Hf1 Hf2 c1 c2.
  pose proof (Wallclock_draw_first E s tmp t1 Hf1) as H1.
  pose proof (Wallclock_draw_second E s tmp t1 t2 Hf2) as H2.
  pose proof (Wallclock_draw_Done E s tmp t1 t2 Hf1 Hf2) as H3.
  cbv zeta in H1, H2, H3. fold c1 in H1, H2, H3. fold c2 in H2, H3.
  eexists _, _, _, _.
  split; [exact H1|]. split; [exact H2|]. split; [exact H3|].
  split.
  - intros Hc1. rewrite Hc1. cbn [orb].
    pose proof (Wallclock_repaint_events_In E
                  (WallclockPaint.repaint_state E s Text1 t1) Text2 t2)
      as [Hb Hd].
    split; [exact Hb|]. split; [exact Hd|].
    rewrite Wallclock_repaint_buf. exact (formatted_fits _ _ _ _ Hf2).
  - rewrite orb_false_iff. unfold c1, c2.
    now rewrite !changed_false_iff.
Qed.

Lemma draw_forces_second_line_witness :
  let s := Examples.wnoon in
  formatted Sample.env0 (WallclockPaint.line_fmt s Text1) Sample.noon01
    = Some "12:01"
  /\ formatted Sample.env0 (WallclockPaint.line_fmt s Text2) Sample.noon01
     = Some "2024-03-05"
  /\ exists (s1 s2 : Wallclock.state) (out1 out2 : list event),
       Wallclock.drawtext Sample.env0 Text1 Sample.noon01 false s
       = Done true s1 out1
       /\ Wallclock.drawtext Sample.env0 Text2 Sample.noon01 true s1
          = Done true s2 out2
       /\ Wallclock.draw Sample.env0 (Some Sample.noon01) s
          = Done true s2 (out1 ++ out2 ++ [EvXSync])
       /\ In (EvXFillRectangle 0 540 1920 100) out2.
Proof.
  cbv zeta. split; [reflexivity|]. split; [reflexivity|].
  destruct (draw_forces_second_line Sample.env0 Examples.wnoon Sample.noon01
              "12:01" "2024-03-05" eq_refl eq_refl)
    as (s1 & s2 & out1 & out2 & H1 & H2 & H3 & H4 & _).
  exists s1, s2, out1, out2.
  split; [exact H1|]. split; [exact H2|]. split; [exact H3|].
  destruct (H4 eq_refl) as [Hb _].
  assert (Hs1 : s1 = WallclockPaint.repaint_state Sample.env0 Examples.wnoon
                       Text1 "12:01").
  { vm_compute in H1. injection H1 as <- _. reflexivity. }
  rewrite Hs1 in Hb. exact Hb.
Defined.

(** ** Rules for triples *)

Section HoareRules.

Context {S : Type}.
Implicit Types P R Qx : assertion S.

Lemma hoare_ret {A} P (Qn : A -> assertion S) Qx (a : A) :
  (forall s h, P s h -> Qn a s h) -> hoare P (ret a) Qn Qx.
Proof. intros Hq s pre H. simpl. rewrite app_nil_r. now apply Hq. Qed.

Lemma hoare_get P (Qn : S -> assertion S) Qx :
  (forall s h, P s h -> Qn s s h) -> hoare P get Qn Qx.
Proof. intros Hq s pre H. simpl. rewrite app_nil_r. now apply Hq. Qed.

Lemma hoare_modify P (Qn : unit -> assertion S) Qx (f : S -> S) :
  (forall s h, P s h -> Qn tt (f s) h) -> hoare P (modify f) Qn Qx.
Proof. intros Hq s pre H. simpl. rewrite app_nil_r. now apply Hq. Qed.

Lemma hoare_emit P (Qn : unit -> assertion S) Qx (e : event) :
  (forall s h, P s h -> Qn tt s (h ++ [e])) -> hoare P (emit e) Qn Qx.
Proof. intros Hq s pre H. simpl. now apply Hq. Qed.

Lemma hoare_exit {A} P (Qn : A -> assertion S) Qx (c : Z) :
  (forall s h, P s h -> Qx s h) -> hoare P (exit_ c) Qn Qx.
Proof. intros Hq s pre H. simpl. rewrite app_nil_r. now apply Hq. Qed.

Lemma hoare_undefined {A} P (Qn : A -> assertion S) Qx :
  (forall s h, P s h -> Qx s h) -> hoare P undefined Qn Qx.
Proof. intros Hq s pre H. simpl. rewrite app_nil_r. now apply Hq. Qed.

Lemma hoare_errx {A} P (Qn : A -> assertion S) Qx (c : Z) (m : message) :
  (forall s h, P s h -> Qx s (h ++ [EvStderr m])) ->
  hoare P (errx c m) Qn Qx.
Proof. intros Hq s pre H. simpl. now apply Hq. Qed.

Lemma hoare_bind {A B} P (R : A -> assertion S) (Qn : B -> assertion S) Qx
  (m : M S A) (k : A -> M S B) :
  hoare P m R Qx -> (forall a, hoare (R a) (k a) Qn Qx) ->
  hoare P (bind m k) Qn Qx.
Proof.
  intros Hm Hk s pre H. specialize (Hm s pre H).
  unfold bind. destruct (m s) as [a s1 out1|c s1 out1|s1 out1];
    try exact Hm.
  specialize (Hk a s1 _ Hm).
  destruct (k a s1); rewrite app_assoc; exact Hk.
Qed.

Lemma hoare_conseq {A} P P' (Qn Qn' : A -> assertion S) Qx Qx'
  (m : M S A) :
  entails P P' -> hoare P' m Qn' Qx' ->
  (forall a, entails (Qn' a) (Qn a)) -> entails Qx' Qx ->
  hoare P m Qn Qx.
Proof.
  intros HP Hm Hn Hx s pre H. specialize (Hm s pre (HP _ _ H)).
  destruct (m s); [now apply Hn|now apply Hx|now apply Hx].
Qed.

(** The state read by [get] is the current one. *)
Lemma hoare_get_bind {B} P (Qn : B -> assertion S) Qx (k : S -> M S B) :
  (forall s0, hoare (fun s h => s = s0 /\ P s h) (k s0) Qn Qx) ->
  hoare P (bind get k) Qn Qx.
Proof.
  intros Hk s pre H. unfold bind, get.
  specialize (Hk s s pre (conj eq_refl H)).
  destruct (k s s); simpl in *; exact Hk.
Qed.

(** Invariants: the same assertion before, after, and at every stop. *)

Lemma triple_ret {A} P (a : A) : triple P (ret a) P.
Proof. apply hoare_ret. auto. Qed.

Lemma triple_get P : triple P get P.
Proof. apply hoare_get. auto. Qed.

Lemma triple_exit {A} P (c : Z) : triple P (@exit_ S A c) P.
Proof. apply hoare_exit. auto. Qed.

Lemma triple_undefined {A} P : triple P (@undefined S A) P.
Proof. apply hoare_undefined. auto. Qed.

Lemma triple_modify P (f : S -> S) :
  (forall s h, P s h -> P (f s) h) -> triple P (modify f) P.
Proof. intros H. apply hoare_modify. exact H. Qed.

Lemma triple_emit P (e : event) :
  (forall s h, P s h -> P s (h ++ [e])) -> triple P (emit e) P.
Proof. intros H. apply hoare_emit. exact H. Qed.

Lemma triple_errx {A} P (c : Z) (m : message) :
  (forall s h, P s h -> P s (h ++ [EvStderr m])) ->
  triple P (@errx S A c m) P.
Proof. intros H. apply hoare_errx. exact H. Qed.

Lemma triple_seq {A B} P (m : M S A) (k : A -> M S B) :
  triple P m P -> (forall a, triple P (k a) P) -> triple P (bind m k) P.
Proof. intros Hm Hk. eapply hoare_bind; [exact Hm|exact Hk]. Qed.

Lemma triple_when P (b : bool) (m : M S unit) :
  triple P m P -> triple P (when b m) P.
Proof. intros Hm. destruct b; [exact Hm|apply triple_ret]. Qed.

Lemma triple_conseq {A} P P' Q Q' (m : M S A) :
  entails P P' -> triple P' m Q' -> entails Q' Q -> triple P m Q.
Proof.
  intros HP Hm HQ. eapply hoare_conseq; [exact HP|exact Hm| |exact HQ].
  intros a. exact HQ.
Qed.

Lemma triple_outcome {A} P Q (m : M S A) (s : S) (pre : list event) :
  triple P m Q -> P s pre ->
  Q (outcome_state (m s)) (pre ++ outcome_out (m s)).
Proof.
  intros Hm H. specialize (Hm s pre H). destruct (m s); exact Hm.
Qed.

End HoareRules.

(** Walks down a computation built from the monad's primitives and proves
    that it keeps an invariant; [side] discharges what the invariant must
    satisfy at each [modify] and [emit], [known] closes calls of functions
    whose triple is already proved. *)
Ltac inv_tac side known :=
  lazymatch goal with
  | |- triple _ (bind _ _) _ =>
      apply triple_seq; [inv_tac side known|intro; inv_tac side known]
  | |- triple _ (ret _) _ => apply triple_ret
  | |- triple _ get _ => apply triple_get
  | |- triple _ (exit_ _) _ => apply triple_exit
  | |- triple _ undefined _ => apply triple_undefined
  | |- triple _ (modify _) _ => apply triple_modify; side
  | |- triple _ (emit _) _ => apply triple_emit; side
  | |- triple _ (errx _ _) _ => apply triple_errx; side
  | |- triple _ (err _ _) _ => apply triple_errx; side
  | |- triple _ (warn _) _ => apply triple_emit; side
  | |- triple _ (warnx _) _ => apply triple_emit; side
  | |- triple _ (printf _) _ => apply triple_emit; side
  | |- triple _ (when _ _) _ => apply triple_when; inv_tac side known
  | |- triple _ (if ?b then _ else _) _ => destruct b; inv_tac side known
  | |- triple _ (match ?x with Some _ => _ | None => _ end) _ =>
      destruct x; inv_tac side known
  | |- _ => known
  end.

(** ** Invariants of the loop of src/wallclock.c *)

Section WallclockInvariant.

Import Wallclock WallclockPaint.

Variable E : Xenv.
Variable I : assertion state.

Hypothesis I_neutral :
  forall s h e, is_neutral e = true -> I s h -> I s (h ++ [e]).
Hypothesis I_running :
  forall s h b, I s h -> I (set_running b s) h.
Hypothesis I_repaint :
  forall s h line tmp text,
    I s h -> formatted E (line_fmt s line) tmp = Some text ->
    I (repaint_state E s line text) (h ++ repaint_events E s line text).

Lemma Wallclock_drawtext_triple (line : lineref) (tmp : tm) (force : bool) :
  triple I (drawtext E line tmp force) I.
Proof.
  intros s pre H. rewrite Wallclock_drawtext_spec.
  destruct (formatted E (line_fmt s line) tmp) as [text|] eqn:Hf.
  - destruct (negb force && _).
    + now rewrite app_nil_r.
    + now apply I_repaint with (tmp := tmp).
  - now apply I_neutral.
Qed.

Ltac wc_side :=
  intros; first [apply I_neutral; [reflexivity|assumption]
                |apply I_running; assumption].

Lemma Wallclock_draw_triple (now : option tm) : triple I (draw E now) I.
Proof.
  unfold draw. destruct now as [tmp|];
    inv_tac wc_side ltac:(idtac; apply Wallclock_drawtext_triple).
Qed.

Lemma Wallclock_copy_triple : triple I copy_to_root I.
Proof. unfold copy_to_root. inv_tac wc_side idtac. Qed.

Lemma Wallclock_catch_triple (sig : Z) : triple I (catch sig) I.
Proof. unfold catch. inv_tac wc_side idtac. Qed.

Lemma Wallclock_cleanup_triple : triple I cleanup I.
Proof. unfold cleanup. inv_tac wc_side idtac. Qed.

Lemma Wallclock_iteration_triple (t : tick) : triple I (iteration E t) I.
Proof.
  unfold iteration.
  inv_tac wc_side
    ltac:(idtac; first [apply Wallclock_draw_triple|apply Wallclock_copy_triple
                |apply Wallclock_catch_triple]).
Qed.

Lemma Wallclock_loop_triple (ticks : list tick) : triple I (loop E ticks) I.
Proof.
  induction ticks as [|t rest IH]; simpl.
  - apply triple_ret.
  - inv_tac wc_side
      ltac:(idtac; first [apply Wallclock_iteration_triple|exact IH]).
Qed.

End WallclockInvariant.

(** ** Reading traces *)

Lemma last_painted_app (l : lineref) (h out : list event) :
  last_painted l (h ++ out) = last_painted_from l (last_painted l h) out.
Proof. unfold last_painted, last_painted_from. apply fold_left_app. Qed.

Lemma count_excessive_app (l : lineref) (h out : list event) :
  count_excessive l (h ++ out)
  = (count_excessive l h + count_excessive l out)%nat.
Proof. unfold count_excessive. now rewrite filter_app, length_app. Qed.

Lemma neutral_not_painting (l : lineref) (e : event) :
  is_neutral e = true -> painted_by l e = None /\ is_excessive_of l e = false.
Proof.
  destruct e as [m|m| | | | | | | | | | | | | | | | |]; simpl;
    try discriminate; try (split; reflexivity).
  destruct m; simpl; try discriminate; split; reflexivity.
Qed.

Lemma last_painted_neutral (l : lineref) (h : list event) (e : event) :
  is_neutral e = true -> last_painted l (h ++ [e]) = last_painted l h.
Proof.
  intros H. rewrite last_painted_app. simpl.
  now rewrite (proj1 (neutral_not_painting l e H)).
Qed.

Lemma count_excessive_neutral (l : lineref) (h : list event) (e : event) :
  is_neutral e = true -> count_excessive l (h ++ [e]) = count_excessive l h.
Proof.
  intros H. rewrite count_excessive_app. unfold count_excessive at 2.
  simpl. rewrite (proj2 (neutral_not_painting l e H)). simpl. lia.
Qed.

Lemma all_neutral_last_painted (l : lineref) (h : list event) :
  forallb is_neutral h = true ->
  last_painted l h = "" /\ count_excessive l h = 0%nat.
Proof.
  induction h as [|e h IH] using rev_ind; intros H; [split; reflexivity|].
  rewrite forallb_app in H. apply andb_prop in H. destruct H as [Hh He].
  simpl in He. rewrite andb_true_r in He.
  rewrite last_painted_neutral, count_excessive_neutral by exact He.
  now apply IH.
Qed.

Lemma line_invariant_neutral (buf : string) (warned : bool) (l : lineref)
  (h : list event) (e : event) :
  is_neutral e = true ->
  line_invariant buf warned l h -> line_invariant buf warned l (h ++ [e]).
Proof.
  unfold line_invariant. intros He H.
  now rewrite last_painted_neutral, count_excessive_neutral.
Qed.

Lemma Wallclock_last_painted_repaint (E : Xenv) (s : Wallclock.state)
  (line l : lineref) (text : string) (h : list event) :
  last_painted l (h ++ WallclockPaint.repaint_events E s line text)
  = if lineref_eqb l line then text else last_painted l h.
Proof.
  rewrite last_painted_app.
  unfold WallclockPaint.repaint_events, WallclockPaint.draw_string,
    WallclockPaint.band.
  destruct (WallclockPaint.excessive E s line text); simpl;
    destruct (lineref_eqb l line); try reflexivity;
    apply substring_strlen.
Qed.

Lemma Wallclock_count_excessive_repaint (E : Xenv) (s : Wallclock.state)
  (line l : lineref) (text : string) (h : list event) :
  count_excessive l (h ++ WallclockPaint.repaint_events E s line text)
  = (count_excessive l h
     + if lineref_eqb l line && WallclockPaint.excessive E s line text
       then 1 else 0)%nat.
Proof.
  rewrite count_excessive_app. f_equal.
  unfold count_excessive, WallclockPaint.repaint_events,
    WallclockPaint.draw_string, WallclockPaint.band.
  destruct (WallclockPaint.excessive E s line text); simpl;
    destruct (lineref_eqb l line); reflexivity.
Qed.

Lemma lineref_eqb_eq (a b : lineref) : lineref_eqb a b = true <-> a = b.
Proof. destruct a, b; simpl; split; congruence. Qed.

Lemma lineref_eqb_neq (a b : lineref) : lineref_eqb a b = false <-> a <> b.
Proof. destruct a, b; simpl; split; congruence. Qed.

Lemma Wallclock_repaint_warned (E : Xenv) (s : Wallclock.state)
  (line : lineref) (text : string) :
  Wallclock.line_warned
    (Wallclock.get_line line (WallclockPaint.repaint_state E s line text))
  = Wallclock.line_warned (Wallclock.get_line line s)
    || WallclockPaint.excessive E s line text.
Proof.
  unfold WallclockPaint.repaint_state.
  destruct (WallclockPaint.excessive E s line text), line; simpl;
    now rewrite ?orb_true_r, ?orb_false_r.
Qed.

Lemma Wallclock_inv_repaint (E : Xenv) (s : Wallclock.state)
  (h : list event) (line : lineref) (tmp : tm) (text : string) :
  Wallclock_inv s h ->
  formatted E (WallclockPaint.line_fmt s line) tmp = Some text ->
  Wallclock_inv (WallclockPaint.repaint_state E s line text)
                (h ++ WallclockPaint.repaint_events E s line text).
Proof.
  intros Hinv Hf l. specialize (Hinv l). unfold line_invariant in *.
  rewrite Wallclock_last_painted_repaint, Wallclock_count_excessive_repaint.
  destruct (lineref_eqb l line) eqn:Hl.
  - apply lineref_eqb_eq in Hl. subst l.
    rewrite Wallclock_repaint_buf, Wallclock_repaint_warned.
    rewrite (formatted_fits _ _ _ _ Hf). cbn [andb].
    destruct Hinv as (_ & Hw & Hc).
    split; [reflexivity|].
    destruct (WallclockPaint.excessive E s line text) eqn:Hx.
    + unfold WallclockPaint.excessive in Hx. apply andb_prop in Hx.
      destruct Hx as [Hx _]. apply negb_true_iff in Hx.
      rewrite (Hw Hx). rewrite orb_true_r. split; [discriminate|lia].
    + rewrite orb_false_r, Nat.add_0_r. split; assumption.
  - apply lineref_eqb_neq in Hl.
    rewrite (Wallclock_repaint_other E s line l text Hl).
    cbn [andb]. now rewrite Nat.add_0_r.
Qed.

Lemma Wallclock_inv_neutral (s : Wallclock.state) (h : list event)
  (e : event) :
  is_neutral e = true -> Wallclock_inv s h -> Wallclock_inv s (h ++ [e]).
Proof. intros He H l. now apply line_invariant_neutral. Qed.

Lemma Wallclock_inv_running (s : Wallclock.state) (h : list event)
  (b : bool) :
  Wallclock_inv s h -> Wallclock_inv (Wallclock.set_running b s) h.
Proof. intros H l. exact (H l). Qed.

Lemma Wallclock_pristine_inv : entails Wallclock_pristine Wallclock_inv.
Proof.
  intros s h [Hbuf Hn] l. unfold line_invariant.
  destruct (all_neutral_last_painted l h Hn) as [-> ->].
  rewrite Hbuf. split; [reflexivity|]. split; [reflexivity|lia].
Qed.

Lemma triple_seq_switch {S A B} (P Q : assertion S) (m : M S A)
  (k : A -> M S B) :
  triple P m P -> entails P Q -> (forall a, triple P (k a) Q) ->
  triple P (bind m k) Q.
Proof.
  intros Hm HPQ Hk. apply (hoare_bind P (fun _ => P)); [|exact Hk].
  eapply hoare_conseq;
    [intros s h H; exact H|exact Hm|intros a s h H; exact H|exact HPQ].
Qed.

Lemma triple_seq_after {S A B} (P Q : assertion S) (m : M S A)
  (k : A -> M S B) :
  triple P m Q -> (forall a, triple Q (k a) Q) -> triple P (bind m k) Q.
Proof. intros Hm Hk. exact (hoare_bind P (fun _ => Q) _ _ m k Hm Hk). Qed.

Lemma triple_weaken {S A} (P Q : assertion S) (m : M S A) :
  triple P m P -> entails P Q -> triple P m Q.
Proof.
  intros Hm HPQ. eapply triple_conseq; [|exact Hm|exact HPQ].
  intros s h H; exact H.
Qed.

(** Follows the spine of a computation while an assertion [P] holds that
    entails the goal [Q] (lemma [ent]), and stops at the call on which
    [stop] succeeds. *)
Ltac spine side known ent stop :=
  lazymatch goal with
  | |- triple _ (bind ?m _) _ =>
      first [ stop m
            | apply triple_seq_switch;
              [inv_tac side known|exact ent
              |intro; spine side known ent stop] ]
  | |- triple _ (if ?b then _ else _) _ =>
      destruct b; spine side known ent stop
  | |- triple _ (match ?x with Some _ => _ | None => _ end) _ =>
      destruct x; spine side known ent stop
  | |- _ => apply triple_weaken; [inv_tac side known|exact ent]
  end.

Ltac pristine_side :=
  let Hb := fresh "Hb" in
  let Hn := fresh "Hn" in
  intros ? ? [Hb Hn]; split;
  [ first [ exact Hb
          | let l := fresh "l" in
            intros l; pose proof (Hb Text1); pose proof (Hb Text2);
            destruct l; assumption ]
  | first [ exact Hn | rewrite forallb_app, Hn; reflexivity ] ].

(** ** Start-up of src/wallclock.c *)

Lemma Wallclock_initline_pristine (E : Xenv) (line : lineref)
  (arg : Wallclock.linearg_t) :
  triple Wallclock_pristine (Wallclock.initline E line arg)
         Wallclock_pristine.
Proof.
  unfold Wallclock.initline. destruct line; inv_tac pristine_side idtac.
Qed.

Lemma Wallclock_setup_inv (E : Xenv) (now : option tm) :
  triple Wallclock_pristine (Wallclock.setup E now) Wallclock_inv.
Proof.
  unfold Wallclock.setup.
  spine pristine_side ltac:(idtac; apply Wallclock_initline_pristine)
        Wallclock_pristine_inv
        ltac:(fun m => lazymatch m with Wallclock.draw _ _ => idtac end).
  eapply triple_conseq;
    [apply Wallclock_pristine_inv| |intros s h H; exact H].
  inv_tac ltac:(idtac; intros; apply Wallclock_inv_neutral;
                [reflexivity|assumption])
          ltac:(idtac; first [apply Wallclock_draw_triple
                      |apply Wallclock_copy_triple];
                first [apply Wallclock_inv_neutral
                      |apply Wallclock_inv_running
                      |apply Wallclock_inv_repaint]).
Qed.

Lemma Wallclock_main_inv (E : Xenv) (now : option tm)
  (ticks : list Wallclock.tick) :
  triple Wallclock_pristine (Wallclock.main E now ticks) Wallclock_inv.
Proof.
  unfold Wallclock.main.
  apply triple_seq_after; [apply Wallclock_setup_inv|intros _].
  inv_tac ltac:(idtac; intros; apply Wallclock_inv_neutral;
                [reflexivity|assumption])
          ltac:(idtac; first [apply Wallclock_loop_triple
                      |apply Wallclock_cleanup_triple];
                first [apply Wallclock_inv_neutral
                      |apply Wallclock_inv_running
                      |apply Wallclock_inv_repaint]).
Qed.

Lemma Wallclock_initial_pristine (a : Wallclock.args_t) :
  Wallclock_pristine (Wallclock.initial_state a) [].
Proof. split; [intros []; reflexivity|reflexivity]. Qed.

(** ** Invariants of the loop of the fixed-pitch variant *)

Section FixedPitchInvariant.

Import FixedPitch FixedPitchPaint.

Variable E : Xenv.
Variable I : assertion state.

Hypothesis I_neutral :
  forall s h e, is_neutral e = true -> I s h -> I s (h ++ [e]).
Hypothesis I_running :
  forall s h b, I s h -> I (set_running b s) h.
Hypothesis I_repaint :
  forall s h line tmp text,
    I s h -> formatted E (line_fmt s line) tmp = Some text ->
    I (repaint_state E s line text) (h ++ repaint_events E s line text).

Lemma FixedPitch_drawtext_triple (line : lineref) (tmp : tm) :
  triple I (drawtext E line tmp) I.
Proof.
  intros s pre H. rewrite FixedPitch_drawtext_spec.
  destruct (formatted E (line_fmt s line) tmp) as [text|] eqn:Hf.
  - destruct (String.eqb text _).
    + now rewrite app_nil_r.
    + now apply I_repaint with (tmp := tmp).
  - now apply I_neutral.
Qed.

Ltac pc_side :=
  intros; first [apply I_neutral; [reflexivity|assumption]
                |apply I_running; assumption].

Lemma FixedPitch_draw_triple (now : option tm) (dirty : bool) :
  triple I (draw E now dirty) I.
Proof.
  unfold draw.
  inv_tac pc_side ltac:(idtac; apply FixedPitch_drawtext_triple).
Qed.

Lemma FixedPitch_catch_triple (sig : Z) : triple I (catch sig) I.
Proof. unfold catch. inv_tac pc_side idtac. Qed.

Lemma FixedPitch_cleanup_triple : triple I cleanup I.
Proof. unfold cleanup. inv_tac pc_side idtac. Qed.

Lemma FixedPitch_iteration_triple (t : tick) : triple I (iteration E t) I.
Proof.
  unfold iteration.
  inv_tac pc_side
    ltac:(idtac; first [apply FixedPitch_draw_triple
                       |apply FixedPitch_catch_triple]).
Qed.

Lemma FixedPitch_loop_triple (ticks : list tick) : triple I (loop E ticks) I.
Proof.
  induction ticks as [|t rest IH]; simpl.
  - apply triple_ret.
  - inv_tac pc_side
      ltac:(idtac; first [apply FixedPitch_iteration_triple|exact IH]).
Qed.

End FixedPitchInvariant.

Lemma FixedPitch_last_painted_repaint (E : Xenv) (s : FixedPitch.state)
  (line l : lineref) (text : string) (h : list event) :
  last_painted l (h ++ FixedPitchPaint.repaint_events E s line text)
  = if lineref_eqb l line then text else last_painted l h.
Proof.
  rewrite last_painted_app.
  unfold FixedPitchPaint.repaint_events, FixedPitchPaint.draw_string,
    FixedPitchPaint.clear_rect.
  destruct (FixedPitchPaint.fixed_pitch _ text),
    (FixedPitchPaint.excessive E s line text); simpl;
    destruct (lineref_eqb l line); try reflexivity;
    apply substring_strlen.
Qed.

Lemma FixedPitch_count_excessive_repaint (E : Xenv) (s : FixedPitch.state)
  (line l : lineref) (text : string) (h : list event) :
  count_excessive l (h ++ FixedPitchPaint.repaint_events E s line text)
  = (count_excessive l h
     + if lineref_eqb l line && FixedPitchPaint.excessive E s line text
       then 1 else 0)%nat.
Proof.
  rewrite count_excessive_app. f_equal.
  unfold count_excessive, FixedPitchPaint.repaint_events,
    FixedPitchPaint.draw_string, FixedPitchPaint.clear_rect.
  destruct (FixedPitchPaint.fixed_pitch _ text),
    (FixedPitchPaint.excessive E s line text); simpl;
    destruct (lineref_eqb l line); reflexivity.
Qed.

Lemma FixedPitch_repaint_warned (E : Xenv) (s : FixedPitch.state)
  (line : lineref) (text : string) :
  FixedPitch.line_warned
    (FixedPitch.get_line line (FixedPitchPaint.repaint_state E s line text))
  = FixedPitch.line_warned (FixedPitch.get_line line s)
    || FixedPitchPaint.excessive E s line text.
Proof.
  unfold FixedPitchPaint.repaint_state.
  destruct (FixedPitchPaint.excessive E s line text), line; simpl;
    now rewrite ?orb_true_r, ?orb_false_r.
Qed.

Lemma FixedPitch_inv_repaint (E : Xenv) (s : FixedPitch.state)
  (h : list event) (line : lineref) (tmp : tm) (text : string) :
  FixedPitch_inv s h ->
  formatted E (FixedPitchPaint.line_fmt s line) tmp = Some text ->
  FixedPitch_inv (FixedPitchPaint.repaint_state E s line text)
              (h ++ FixedPitchPaint.repaint_events E s line text).
Proof.
  intros Hinv Hf l. specialize (Hinv l). unfold line_invariant in *.
  rewrite FixedPitch_last_painted_repaint, FixedPitch_count_excessive_repaint.
  destruct (lineref_eqb l line) eqn:Hl.
  - apply lineref_eqb_eq in Hl. subst l.
    rewrite FixedPitch_repaint_buf, FixedPitch_repaint_warned.
    rewrite (formatted_fits _ _ _ _ Hf). cbn [andb].
    destruct Hinv as (_ & Hw & Hc).
    split; [reflexivity|].
    destruct (FixedPitchPaint.excessive E s line text) eqn:Hx.
    + unfold FixedPitchPaint.excessive in Hx. apply andb_prop in Hx.
      destruct Hx as [Hx _]. apply negb_true_iff in Hx.
      rewrite (Hw Hx). rewrite orb_true_r. split; [discriminate|lia].
    + rewrite orb_false_r, Nat.add_0_r. split; assumption.
  - apply lineref_eqb_neq in Hl.
    rewrite (FixedPitch_repaint_other E s line l text Hl).
    cbn [andb]. now rewrite Nat.add_0_r.
Qed.

Lemma FixedPitch_inv_neutral (s : FixedPitch.state) (h : list event)
  (e : event) :
  is_neutral e = true -> FixedPitch_inv s h -> FixedPitch_inv s (h ++ [e]).
Proof. intros He H l. now apply line_invariant_neutral. Qed.

Lemma FixedPitch_inv_running (s : FixedPitch.state) (h : list event)
  (b : bool) :
  FixedPitch_inv s h -> FixedPitch_inv (FixedPitch.set_running b s) h.
Proof. intros H l. exact (H l). Qed.

Lemma FixedPitch_pristine_inv : entails FixedPitch_pristine FixedPitch_inv.
Proof.
  intros s h [Hbuf Hn] l. unfold line_invariant.
  destruct (all_neutral_last_painted l h Hn) as [-> ->].
  rewrite Hbuf. split; [reflexivity|]. split; [reflexivity|lia].
Qed.

Lemma FixedPitch_initline_pristine (E : Xenv) (line : lineref)
  (arg : FixedPitch.linearg_t) :
  triple FixedPitch_pristine (FixedPitch.initline E line arg) FixedPitch_pristine.
Proof.
  unfold FixedPitch.initline, FixedPitch.textnw.
  destruct line; inv_tac pristine_side idtac.
Qed.

Lemma FixedPitch_setup_pristine (E : Xenv) :
  triple FixedPitch_pristine (FixedPitch.setup E) FixedPitch_pristine.
Proof.
  unfold FixedPitch.setup.
  inv_tac pristine_side ltac:(idtac; apply FixedPitch_initline_pristine).
Qed.

Lemma FixedPitch_main_inv (E : Xenv) (now : option tm)
  (ticks : list FixedPitch.tick) :
  triple FixedPitch_pristine (FixedPitch.main E now ticks) FixedPitch_inv.
Proof.
  unfold FixedPitch.main.
  apply triple_seq_switch;
    [apply FixedPitch_setup_pristine|exact FixedPitch_pristine_inv|intros _].
  eapply triple_conseq;
    [apply FixedPitch_pristine_inv| |intros s h H; exact H].
  inv_tac ltac:(idtac; intros; apply FixedPitch_inv_neutral;
                [reflexivity|assumption])
          ltac:(idtac; first [apply FixedPitch_draw_triple
                             |apply FixedPitch_loop_triple
                             |apply FixedPitch_cleanup_triple];
                first [apply FixedPitch_inv_neutral
                      |apply FixedPitch_inv_running
                      |apply FixedPitch_inv_repaint]).
Qed.

Lemma FixedPitch_initial_pristine (a : FixedPitch.args_t) :
  FixedPitch_pristine (FixedPitch.initial_state a) [].
Proof. split; [intros []; reflexivity|reflexivity]. Qed.

(** ** The buffer of a line is what was last painted for it *)

(** C4.  In both variants, at the end of every run of [main] (any
    arguments, any sequence of ticks, however the run ends) the [buf] of
    each line is the string of the last [XftDrawStringUtf8] issued for
    that line, and the empty string if none was issued.  A call of the
    renderer that paints leaves exactly the painted string in the line's
    [buf] and does not touch the other line; a call that does not paint
    (it skips, or exits on a format failure) leaves the state as it was
    and draws nothing. *)
Theorem buf_is_last_painted (E : Xenv) :
  (forall (a : Wallclock.args_t) (now : option tm)
          (ticks : list Wallclock.tick) (l : lineref),
      let o := Wallclock.main E now ticks (Wallclock.initial_state a) in
      Wallclock.line_buf (Wallclock.get_line l (outcome_state o))
      = last_painted l (outcome_out o))
  /\ (forall (a : FixedPitch.args_t) (now : option tm)
             (ticks : list FixedPitch.tick) (l : lineref),
      let o := FixedPitch.main E now ticks (FixedPitch.initial_state a) in
      FixedPitch.line_buf (FixedPitch.get_line l (outcome_state o))
      = last_painted l (outcome_out o))
  /\ (forall (s : Wallclock.state) (line : lineref) (tmp : tm)
             (force : bool),
      let o := Wallclock.drawtext E line tmp force s in
      (existsb is_draw (outcome_out o) = true ->
       exists text,
         o = Done true (outcome_state o) (outcome_out o)
         /\ In (WallclockPaint.draw_string E s line text) (outcome_out o)
         /\ Wallclock.line_buf (Wallclock.get_line line (outcome_state o))
            = text
         /\ forall l, l <> line ->
              Wallclock.get_line l (outcome_state o)
              = Wallclock.get_line l s)
      /\ (existsb is_draw (outcome_out o) = false -> outcome_state o = s))
  /\ (forall (s : FixedPitch.state) (line : lineref) (tmp : tm),
      let o := FixedPitch.drawtext E line tmp s in
      (existsb is_draw (outcome_out o) = true ->
       exists text,
         o = Done tt (outcome_state o) (outcome_out o)
         /\ In (FixedPitchPaint.draw_string E s line text) (outcome_out o)
         /\ FixedPitch.line_buf (FixedPitch.get_line line (outcome_state o))
            = text
         /\ forall l, l <> line ->
              FixedPitch.get_line l (outcome_state o) = FixedPitch.get_line l s)
      /\ (existsb is_draw (outcome_out o) = false -> outcome_state o = s)).
Proof.
  split; [|split; [|split]].
  - intros a now ticks l o.
    pose proof (triple_outcome _ _ _ _ [] (Wallclock_main_inv E now ticks)
                  (Wallclock_initial_pristine a) l) as H.
    exact (proj1 H).
  - intros a now ticks l o.
    pose proof (triple_outcome _ _ _ _ [] (FixedPitch_main_inv E now ticks)
                  (FixedPitch_initial_pristine a) l) as H.
    exact (proj1 H).
  - intros s line tmp force o. subst o.
    rewrite Wallclock_drawtext_spec.
    destruct (formatted E (WallclockPaint.line_fmt s line) tmp)
      as [text|] eqn:Hf; [|split; [discriminate|reflexivity]].
    destruct (negb force && _); [split; [discriminate|reflexivity]|].
    cbn [outcome_state outcome_out]. split.
    + intros _. exists text. split; [reflexivity|].
      split; [apply Wallclock_repaint_events_In|].
      split; [|intros l Hl; now apply Wallclock_repaint_other].
      rewrite Wallclock_repaint_buf. exact (formatted_fits _ _ _ _ Hf).
    + unfold WallclockPaint.repaint_events, WallclockPaint.draw_string.
      rewrite !existsb_app. cbn [existsb is_draw is_draw_of].
      destruct line; cbn [lineref_eqb orb];
        rewrite ?orb_true_r; discriminate.
  - intros s line tmp o. subst o.
    rewrite FixedPitch_drawtext_spec.
    destruct (formatted E (FixedPitchPaint.line_fmt s line) tmp)
      as [text|] eqn:Hf; [|split; [discriminate|reflexivity]].
    destruct (String.eqb text _); [split; [discriminate|reflexivity]|].
    cbn [outcome_state outcome_out]. split.
    + intros _. exists text. split; [reflexivity|].
      split.
      { unfold FixedPitchPaint.repaint_events.
        apply in_or_app; right; apply in_or_app; right; simpl; tauto. }
      split; [|intros l Hl; now apply FixedPitch_repaint_other].
      rewrite FixedPitch_repaint_buf. exact (formatted_fits _ _ _ _ Hf).
    + unfold FixedPitchPaint.repaint_events, FixedPitchPaint.draw_string.
      rewrite !existsb_app. cbn [existsb is_draw is_draw_of].
      destruct line; cbn [lineref_eqb orb];
        rewrite ?orb_true_r; discriminate.
Qed.

Lemma buf_is_last_painted_witness :
  let ws := Examples.wstate "%H:%M" "11:59" "%Y-%m-%d" "2024-03-05" in
  let wo := Wallclock.drawtext Sample.env0 Text1 Sample.noon false ws in
  let ps := Examples.pstate "%H:%M" "11:59" "%Y-%m-%d" "2024-03-05" in
  let po := FixedPitch.drawtext Sample.env0 Text1 Sample.noon ps in
  (existsb is_draw (outcome_out wo) = true
   /\ exists text,
        In (WallclockPaint.draw_string Sample.env0 ws Text1 text)
           (outcome_out wo)
        /\ Wallclock.line_buf (Wallclock.get_line Text1 (outcome_state wo))
           = text)
  /\ (existsb is_draw (outcome_out po) = true
      /\ exists text,
           In (FixedPitchPaint.draw_string Sample.env0 ps Text1 text)
              (outcome_out po)
           /\ FixedPitch.line_buf (FixedPitch.get_line Text1 (outcome_state po))
              = text)
  /\ (existsb is_draw
        (outcome_out (Wallclock.drawtext Sample.env0 Text1 Sample.noon false
                        Examples.wnoon)) = false
      /\ outcome_state (Wallclock.drawtext Sample.env0 Text1 Sample.noon
                          false Examples.wnoon) = Examples.wnoon)
  /\ (existsb is_draw
        (outcome_out (FixedPitch.drawtext Sample.env0 Text1 Sample.noon
                        Examples.pnoon)) = false
      /\ outcome_state (FixedPitch.drawtext Sample.env0 Text1 Sample.noon
                          Examples.pnoon) = Examples.pnoon).
Proof.
  cbv zeta.
  pose proof (buf_is_last_painted Sample.env0) as (_ & _ & W & P).
  split; [|split; [|split]].
  - split; [reflexivity|].
    destruct (proj1 (W (Examples.wstate "%H:%M" "11:59" "%Y-%m-%d"
                                        "2024-03-05")
                       Text1 Sample.noon false) eq_refl)
      as (text & _ & Hin & Hbuf & _).
    exists text. split; assumption.
  - split; [reflexivity|].
    destruct (proj1 (P (Examples.pstate "%H:%M" "11:59" "%Y-%m-%d"
                                        "2024-03-05")
                       Text1 Sample.noon) eq_refl)
      as (text & _ & Hin & Hbuf & _).
    exists text. split; assumption.
  - split; [reflexivity|].
    exact (proj2 (W Examples.wnoon Text1 Sample.noon false) eq_refl).
  - split; [reflexivity|].
    exact (proj2 (P Examples.pnoon Text1 Sample.noon) eq_refl).
Defined.

(** ** The excessive-width diagnostic *)

(** C6.  In both variants, over every run of [main] the excessive-width
    diagnostic is written at most once for each line.  Whenever the
    renderer is on its painting path, the line it draws is the complete
    formatted string with its full length, also when the computed width
    exceeds the surface width; in that case the diagnostic is written if
    and only if the line had not been warned about before. *)
Theorem excessive_width_warned_once (E : Xenv) :
  (forall (a : Wallclock.args_t) (now : option tm)
          (ticks : list Wallclock.tick) (l : lineref),
      (count_excessive l
         (outcome_out (Wallclock.main E now ticks (Wallclock.initial_state a)))
       <= 1)%nat)
  /\ (forall (a : FixedPitch.args_t) (now : option tm)
             (ticks : list FixedPitch.tick) (l : lineref),
      (count_excessive l
         (outcome_out (FixedPitch.main E now ticks (FixedPitch.initial_state a)))
       <= 1)%nat)
  /\ (forall (s : Wallclock.state) (line : lineref) (tmp : tm)
             (force : bool) (text : string),
      formatted E (WallclockPaint.line_fmt s line) tmp = Some text ->
      negb force
      && String.eqb text (Wallclock.line_buf (Wallclock.get_line line s))
      = false ->
      Wallclock.dc_w (Wallclock.dc s)
      < WallclockPaint.measured E (Wallclock.get_line line s) text ->
      exists s' out x y,
        Wallclock.drawtext E line tmp force s = Done true s' out
        /\ In (EvXftDrawStringUtf8 line
                 (Wallclock.line_xfont (Wallclock.get_line line s))
                 x y text (strlen text)) out
        /\ Wallclock.line_warned (Wallclock.get_line line s') = true
        /\ count_excessive line out
           = if Wallclock.line_warned (Wallclock.get_line line s)
             then 0%nat else 1%nat)
  /\ (forall (s : FixedPitch.state) (line : lineref) (tmp : tm)
             (text : string),
      formatted E (FixedPitchPaint.line_fmt s line) tmp = Some text ->
      String.eqb text (FixedPitch.line_buf (FixedPitch.get_line line s)) = false ->
      FixedPitch.dc_w (FixedPitch.dc s)
      < FixedPitchPaint.paint_width E (FixedPitch.get_line line s) text ->
      exists s' out x y,
        FixedPitch.drawtext E line tmp s = Done tt s' out
        /\ In (EvXftDrawStringUtf8 line
                 (FixedPitch.line_xfont (FixedPitch.get_line line s))
                 x y text (strlen text)) out
        /\ FixedPitch.line_warned (FixedPitch.get_line line s') = true
        /\ count_excessive line out
           = if FixedPitch.line_warned (FixedPitch.get_line line s)
             then 0%nat else 1%nat).
Proof.
  split; [|split; [|split]].
  - intros a now ticks l.
    pose proof (triple_outcome _ _ _ _ [] (Wallclock_main_inv E now ticks)
                  (Wallclock_initial_pristine a) l) as H.
    exact (proj2 (proj2 H)).
  - intros a now ticks l.
    pose proof (triple_outcome _ _ _ _ [] (FixedPitch_main_inv E now ticks)
                  (FixedPitch_initial_pristine a) l) as H.
    exact (proj2 (proj2 H)).
  - intros s line tmp force text Hf Hpaint Hw.
    rewrite Wallclock_drawtext_spec, Hf, Hpaint.
    eexists _, _, _, _. split; [reflexivity|].
    split; [apply Wallclock_repaint_events_In|].
    apply Z.ltb_lt in Hw.
    rewrite Wallclock_repaint_warned.
    pose proof (Wallclock_count_excessive_repaint E s line line text [])
      as Hc. cbn [app] in Hc. rewrite Hc.
    unfold WallclockPaint.excessive. rewrite Hw.
    assert (Hl : lineref_eqb line line = true) by now destruct line.
    rewrite Hl.
    destruct (Wallclock.line_warned (Wallclock.get_line line s));
      split; reflexivity.
  - intros s line tmp text Hf Hpaint Hw.
    rewrite FixedPitch_drawtext_spec, Hf, Hpaint.
    eexists _, _, _, _. split; [reflexivity|].
    split.
    { unfold FixedPitchPaint.repaint_events.
      apply in_or_app; right; apply in_or_app; right; simpl.
      right; right; right; left. reflexivity. }
    apply Z.ltb_lt in Hw.
    rewrite FixedPitch_repaint_warned.
    pose proof (FixedPitch_count_excessive_repaint E s line line text [])
      as Hc. cbn [app] in Hc. rewrite Hc.
    unfold FixedPitchPaint.excessive. rewrite Hw.
    assert (Hl : lineref_eqb line line = true) by now destruct line.
    rewrite Hl.
    destruct (FixedPitch.line_warned (FixedPitch.get_line line s));
      split; reflexivity.
Qed.

Lemma excessive_width_warned_once_witness :
  let ws := Examples.wstate "%H:%M" "11:59" "%Y-%m-%d" "2024-03-05" in
  (formatted Wide.env500 (WallclockPaint.line_fmt ws Text1) Sample.noon
   = Some "12:00"
   /\ Wallclock.dc_w (Wallclock.dc ws)
      < WallclockPaint.measured Wide.env500 (Wallclock.get_line Text1 ws)
          "12:00"
   /\ exists s' out x y,
        Wallclock.drawtext Wide.env500 Text1 Sample.noon false ws
        = Done true s' out
        /\ In (EvXftDrawStringUtf8 Text1 Examples.mono x y "12:00" 5) out
        /\ count_excessive Text1 out = 1%nat)
  /\ (formatted Sample.env0 (FixedPitchPaint.line_fmt Wide.pnarrow Text1)
        Sample.noon = Some "12:00"
      /\ FixedPitch.dc_w (FixedPitch.dc Wide.pnarrow)
         < FixedPitchPaint.paint_width Sample.env0
             (FixedPitch.get_line Text1 Wide.pnarrow) "12:00"
      /\ exists s' out x y,
           FixedPitch.drawtext Sample.env0 Text1 Sample.noon Wide.pnarrow
           = Done tt s' out
           /\ In (EvXftDrawStringUtf8 Text1 Examples.mono x y "12:00" 5) out
           /\ count_excessive Text1 out = 1%nat).
Proof.
  cbv zeta. split.
  - split; [reflexivity|]. split; [reflexivity|].
    destruct (proj1 (proj2 (proj2 (excessive_width_warned_once Wide.env500)))
                (Examples.wstate "%H:%M" "11:59" "%Y-%m-%d" "2024-03-05")
                Text1 Sample.noon false "12:00" eq_refl eq_refl eq_refl)
      as (s' & out & x & y & Hd & Hin & _ & Hc).
    exists s', out, x, y. repeat split; assumption.
  - split; [reflexivity|]. split; [reflexivity|].
    destruct (proj2 (proj2 (proj2 (excessive_width_warned_once Sample.env0)))
                Wide.pnarrow Text1 Sample.noon "12:00"
                eq_refl eq_refl eq_refl)
      as (s' & out & x & y & Hd & Hin & _ & Hc).
    exists s', out, x, y. repeat split; assumption.
Defined.

(** ** The signal handler *)

(** C8, as the code has it.  In src/wallclock.c the handler only clears
    [running]: it emits nothing and leaves [args] and [dc] as they were.
    In the fixed-pitch variant it first prints the line
    [caught <signal>] on standard output and then clears [running];
    [args] and [dc] are untouched there too. *)
Theorem catch_effect (signal : Z) :
  (forall s : Wallclock.state,
      Wallclock.catch signal s
      = Done tt {| Wallclock.args := Wallclock.args s;
                   Wallclock.running := false;
                   Wallclock.dc := Wallclock.dc s |} [])
  /\ (forall s : FixedPitch.state,
      FixedPitch.catch signal s
      = Done tt {| FixedPitch.args := FixedPitch.args s;
                   FixedPitch.running := false;
                   FixedPitch.dc := FixedPitch.dc s |}
                [EvStdout (MsgCaught signal)]).
Proof. split; intros s; reflexivity. Qed.

(** C8 fails in the fixed-pitch variant: handling SIGTERM (15) writes to
    standard output. *)
Lemma catch_prints_in_fixed_pitch_variant :
  outcome_out (FixedPitch.catch 15 Examples.pnoon) = [EvStdout (MsgCaught 15)]
  /\ outcome_out (FixedPitch.catch 15 Examples.pnoon) <> [].
Proof. split; [reflexivity|discriminate]. Qed.

(** ** Presenting the canvas *)

Lemma presented_app_end (pre : list event) (c : event) :
  is_copy c = true -> presented (pre ++ [c; EvXSync]) = true.
Proof.
  intros Hc. induction pre as [|e pre IH].
  - simpl. now rewrite Hc.
  - change ((e :: pre) ++ [c; EvXSync]) with (e :: (pre ++ [c; EvXSync])).
    destruct (pre ++ [c; EvXSync]) as [|e' rest] eqn:Hp.
    + destruct pre; discriminate.
    + cbn [presented]. cbn [presented] in IH. rewrite IH.
      apply orb_true_r.
Qed.

Lemma presented_copy (out : list event) :
  presented out = true -> existsb is_copy out = true.
Proof.
  induction out as [|e out IH]; [discriminate|].
  destruct out as [|e' rest]; [discriminate|].
  cbn [presented]. intros H. apply orb_prop in H. destruct H as [H|H].
  - apply andb_prop in H. cbn [existsb]. now rewrite (proj1 H).
  - change (existsb is_copy (e :: e' :: rest))
      with (is_copy e || existsb is_copy (e' :: rest)).
    rewrite (IH H). apply orb_true_r.
Qed.

Lemma no_copy_not_presented (out : list event) :
  existsb is_copy out = false -> presented out = false.
Proof.
  intros H. destruct (presented out) eqn:Hp; [|reflexivity].
  apply presented_copy in Hp. congruence.
Qed.

Lemma Wallclock_repaint_events_kinds (E : Xenv) (s : Wallclock.state)
  (line : lineref) (text : string) :
  existsb is_draw (WallclockPaint.repaint_events E s line text) = true
  /\ existsb is_copy (WallclockPaint.repaint_events E s line text) = false.
Proof.
  unfold WallclockPaint.repaint_events, WallclockPaint.draw_string,
    WallclockPaint.band.
  destruct (WallclockPaint.excessive E s line text), line; split;
    reflexivity.
Qed.

Lemma FixedPitch_repaint_events_kinds (E : Xenv) (s : FixedPitch.state)
  (line : lineref) (text : string) :
  existsb is_draw (FixedPitchPaint.repaint_events E s line text) = true
  /\ existsb is_copy (FixedPitchPaint.repaint_events E s line text) = false.
Proof.
  unfold FixedPitchPaint.repaint_events, FixedPitchPaint.draw_string,
    FixedPitchPaint.clear_rect.
  destruct (FixedPitchPaint.fixed_pitch _ text),
    (FixedPitchPaint.excessive E s line text), line; split; reflexivity.
Qed.

(** A completed [draw] of src/wallclock.c reports whether it painted, and
    never copies. *)
Lemma Wallclock_draw_painted (E : Xenv) (now : option tm)
  (s s' : Wallclock.state) (d : bool) (out : list event) :
  Wallclock.draw E now s = Done d s' out ->
  existsb is_draw out = d /\ existsb is_copy out = false.
Proof.
  destruct now as [tmp|]; [|discriminate].
  destruct (formatted E (WallclockPaint.line_fmt s Text1) tmp)
    as [t1|] eqn:Hf1.
  - destruct (formatted E (WallclockPaint.line_fmt s Text2) tmp)
      as [t2|] eqn:Hf2.
    + rewrite (Wallclock_draw_Done E s tmp t1 t2 Hf1 Hf2).
      intros [= <- _ <-]. rewrite !existsb_app.
      destruct (changed t1 _); cbn [orb].
      * destruct (Wallclock_repaint_events_kinds E s Text1 t1) as [-> ->].
        destruct (Wallclock_repaint_events_kinds E
                    (WallclockPaint.repaint_state E s Text1 t1) Text2 t2)
          as [_ ->].
        split; reflexivity.
      * destruct (changed t2 _); cbn [orb existsb app];
          [|split; reflexivity].
        destruct (Wallclock_repaint_events_kinds E s Text2 t2) as [-> ->].
        split; reflexivity.
    + unfold Wallclock.draw.
      rewrite (bind_Done _ _ _ _ _ _ (Wallclock_draw_first E s tmp t1 Hf1)).
      cbv beta.
      erewrite bind_Exit; [discriminate|].
      rewrite Wallclock_drawtext_spec.
      assert (Hfmt : WallclockPaint.line_fmt
                       (if changed t1 (Wallclock.line_buf
                                         (Wallclock.get_line Text1 s))
                        then WallclockPaint.repaint_state E s Text1 t1
                        else s) Text2
                     = WallclockPaint.line_fmt s Text2).
      { destruct (changed t1 _); [apply Wallclock_repaint_fmt|reflexivity]. }
      rewrite Hfmt, Hf2. reflexivity.
  - unfold Wallclock.draw.
    rewrite (bind_Exit _ _ s s 1 [EvStderr (MsgStrftime
               (WallclockPaint.line_fmt s Text1))]); [discriminate|].
    now rewrite Wallclock_drawtext_spec, Hf1.
Qed.

Lemma Wallclock_iteration_spec (E : Xenv) (t : Wallclock.tick)
  (s : Wallclock.state) :
  let s0 := match Wallclock.tick_signal t with
            | Some _ => Wallclock.set_running false s
            | None => s
            end in
  Wallclock.iteration E t s =
  if Wallclock.tick_poll t =? -1 then Done false s0 [EvStderr MsgPoll]
  else if Wallclock.tick_poll t =? 0 then
    match Wallclock.draw E (Wallclock.tick_now t) s0 with
    | Done d s1 out1 =>
        Done d s1
          (out1 ++ if d then
                     [EvXCopyArea 0 0 (Wallclock.dc_w (Wallclock.dc s1))
                        (Wallclock.dc_h (Wallclock.dc s1))
                        (Wallclock.dc_x (Wallclock.dc s1))
                        (Wallclock.dc_y (Wallclock.dc s1));
                      EvXSync]
                   else [])
    | Exit c s1 out1 => Exit c s1 out1
    | Undefined s1 out1 => Undefined s1 out1
    end
  else
    Done true s0
      [EvXCopyArea 0 0 (Wallclock.dc_w (Wallclock.dc s0))
         (Wallclock.dc_h (Wallclock.dc s0))
         (Wallclock.dc_x (Wallclock.dc s0))
         (Wallclock.dc_y (Wallclock.dc s0));
       EvXSync].
Proof.
  unfold Wallclock.iteration, bind.
  destruct (Wallclock.tick_signal t); cbn [Wallclock.catch modify ret];
    (destruct (Wallclock.tick_poll t =? -1); [reflexivity|]);
    (destruct (Wallclock.tick_poll t =? 0); [|reflexivity]);
    cbn [app];
    match goal with
    | |- context [Wallclock.draw E ?n ?x] =>
        destruct (Wallclock.draw E n x) as [[|] s1 out1| |]
    end; cbn; rewrite ?app_nil_r; reflexivity.
Qed.

Lemma bind_Done_inv {S A B} (m : M S A) (k : A -> M S B) (s s2 : S)
  (b : B) (out : list event) :
  bind m k s = Done b s2 out ->
  exists a s1 out1 out2,
    m s = Done a s1 out1 /\ k a s1 = Done b s2 out2 /\ out = out1 ++ out2.
Proof.
  unfold bind. destruct (m s) as [a s1 out1| |]; try discriminate.
  destruct (k a s1) as [b' s2' out2| |] eqn:Hk; try discriminate.
  intros [= <- <- <-]. now exists a, s1, out1, out2.
Qed.

(** A completed [draw] of the fixed-pitch variant always ends with the
    copy of the canvas and the synchronisation. *)
Lemma FixedPitch_draw_presents (E : Xenv) (now : option tm) (dirty : bool)
  (s s' : FixedPitch.state) (out : list event) :
  FixedPitch.draw E now dirty s = Done tt s' out ->
  exists outd,
    out = outd ++ [EvXCopyArea 0 0 (FixedPitch.dc_w (FixedPitch.dc s'))
                     (FixedPitch.dc_h (FixedPitch.dc s')) 0 0; EvXSync].
Proof.
  unfold FixedPitch.draw. intros H.
  apply bind_Done_inv in H.
  destruct H as (a & s1 & out1 & out2 & _ & Hk & ->).
  cbv in Hk. injection Hk as <- <-. now exists out1.
Qed.

Lemma FixedPitch_iteration_presents (E : Xenv) (t : FixedPitch.tick)
  (s s' : FixedPitch.state) (out : list event) :
  FixedPitch.iteration E t s = Done tt s' out ->
  if FixedPitch.tick_poll t =? -1 then existsb is_copy out = false
  else exists outd c, is_copy c = true /\ out = outd ++ [c; EvXSync].
Proof.
  unfold FixedPitch.iteration. intros H.
  apply bind_Done_inv in H.
  destruct H as (a & s1 & out1 & out2 & Hsig & Hk & ->).
  assert (Hout1 : existsb is_copy out1 = false).
  { destruct (FixedPitch.tick_signal t); cbv in Hsig;
      injection Hsig as _ _ <-; reflexivity. }
  destruct (FixedPitch.tick_poll t =? -1).
  - cbv in Hk. injection Hk as _ <-.
    rewrite existsb_app, Hout1. reflexivity.
  - assert (Hd : exists dirty,
               FixedPitch.draw E (FixedPitch.tick_now t) dirty s1
               = Done tt s' out2).
    { destruct (FixedPitch.tick_poll t =? 0); eauto. }
    destruct Hd as [dirty Hd].
    apply FixedPitch_draw_presents in Hd. destruct Hd as [outd ->].
    eexists (out1 ++ outd), _. split; [|now rewrite app_assoc].
    reflexivity.
Qed.

(** C3, as the code has it.  For every completed iteration of the loop:
    in src/wallclock.c the canvas is copied to the root window and the
    connection synchronised exactly when a line was painted in this
    iteration or [poll] reported activity (a result other than -1 and 0);
    in the fixed-pitch variant this happens exactly when [poll] did not
    fail, that is on every timeout and on every activity, whether or not
    a line changed.  In both, a copy is always followed by the
    synchronisation. *)
Theorem present_policy (E : Xenv) :
  (forall (s s' : Wallclock.state) (t : Wallclock.tick) (dirty : bool)
          (out : list event),
      Wallclock.iteration E t s = Done dirty s' out ->
      (presented out = true <->
       existsb is_draw out = true
       \/ (Wallclock.tick_poll t <> -1 /\ Wallclock.tick_poll t <> 0))
      /\ existsb is_copy out = presented out)
  /\ (forall (s s' : FixedPitch.state) (t : FixedPitch.tick) (out : list event),
      FixedPitch.iteration E t s = Done tt s' out ->
      (presented out = true <-> FixedPitch.tick_poll t <> -1)
      /\ existsb is_copy out = presented out).
Proof.
  split.
  - intros s s' t dirty out H.
    rewrite Wallclock_iteration_spec in H. cbv zeta in H.
    destruct (Z.eqb_spec (Wallclock.tick_poll t) (-1)) as [Hp|Hp].
    { injection H as _ _ <-. cbn. split; [|reflexivity].
      split; [discriminate|]. intros [Hd|[Hn _]];
        [discriminate|contradiction]. }
    destruct (Z.eqb_spec (Wallclock.tick_poll t) 0) as [Hz|Hz].
    + destruct (Wallclock.draw E _ _) as [d s1 out1| |] eqn:Hd;
        try discriminate.
      injection H as <- <- <-.
      destruct (Wallclock_draw_painted _ _ _ _ _ _ Hd) as [Hdraw Hcopy].
      destruct d.
      * rewrite presented_app_end by reflexivity.
        rewrite !existsb_app, Hdraw. cbn. rewrite orb_true_r.
        split; [|reflexivity]. split; auto.
      * rewrite app_nil_r, Hdraw, Hcopy.
        rewrite (no_copy_not_presented _ Hcopy).
        split; [|reflexivity].
        split; [discriminate|]. intros [Hx|[_ Hx]];
          [discriminate|contradiction].
    + injection H as _ _ <-. cbn. split; [|reflexivity].
      split; auto.
  - intros s s' t out H.
    pose proof (FixedPitch_iteration_presents E t s s' out H) as Hp.
    destruct (Z.eqb_spec (FixedPitch.tick_poll t) (-1)) as [He|He].
    + rewrite Hp, (no_copy_not_presented _ Hp). split; [|reflexivity].
      split; [discriminate|contradiction].
    + destruct Hp as (outd & c & Hc & ->).
      rewrite (presented_app_end outd c Hc).
      rewrite existsb_app. cbn. rewrite Hc, orb_true_r.
      split; [|reflexivity]. split; auto.
Qed.

Lemma present_policy_witness :
  (Wallclock.iteration Sample.env0 (Wallclock.mk_tick None 0 (Some Sample.noon))
     Examples.wnoon = Done false Examples.wnoon [EvXSync]
   /\ presented [EvXSync] = false /\ existsb is_copy [EvXSync] = false)
  /\ (FixedPitch.iteration Sample.env0 (FixedPitch.mk_tick None 0 (Some Sample.noon))
        Examples.pnoon
      = Done tt Examples.pnoon [EvXCopyArea 0 0 1920 1080 0 0; EvXSync]
      /\ presented [EvXCopyArea 0 0 1920 1080 0 0; EvXSync] = true).
Proof.
  split.
  - assert (H : Wallclock.iteration Sample.env0
                  (Wallclock.mk_tick None 0 (Some Sample.noon)) Examples.wnoon
                = Done false Examples.wnoon [EvXSync]) by reflexivity.
    split; [exact H|].
    destruct (proj1 (present_policy Sample.env0) _ _ _ _ _ H) as [Hiff Hc].
    split; [|rewrite Hc]; destruct (presented [EvXSync]) eqn:Hp;
      try reflexivity;
      destruct (proj1 Hiff eq_refl) as [Hd|[_ Hz]];
      try discriminate Hd; exfalso; apply Hz; reflexivity.
  - assert (H : FixedPitch.iteration Sample.env0
                  (FixedPitch.mk_tick None 0 (Some Sample.noon)) Examples.pnoon
                = Done tt Examples.pnoon
                    [EvXCopyArea 0 0 1920 1080 0 0; EvXSync]) by reflexivity.
    split; [exact H|].
    destruct (proj2 (present_policy Sample.env0) _ _ _ _ H) as [Hiff _].
    apply Hiff. discriminate.
Defined.

(** C3 fails in the fixed-pitch variant: on a timeout at which both lines
    already show the current strings, nothing is painted, the state is
    unchanged, no activity was reported, and the canvas is copied all the
    same. *)
Lemma timeout_copies_unchanged_canvas :
  let t := FixedPitch.mk_tick None 0 (Some Sample.noon) in
  let o := FixedPitch.iteration Sample.env0 t Examples.pnoon in
  FixedPitch.tick_poll t = 0
  /\ outcome_state o = Examples.pnoon
  /\ existsb is_draw (outcome_out o) = false
  /\ existsb is_copy (outcome_out o) = true
  /\ presented (outcome_out o) = true.
Proof. cbv zeta. repeat split; reflexivity. Qed.

(** ** What a draw clears *)

Lemma Wallclock_draw_inv (E : Xenv) (now : option tm)
  (s s' : Wallclock.state) (d : bool) (out : list event) :
  Wallclock.draw E now s = Done d s' out ->
  exists tmp t1 t2,
    now = Some tmp
    /\ formatted E (WallclockPaint.line_fmt s Text1) tmp = Some t1
    /\ formatted E (WallclockPaint.line_fmt s Text2) tmp = Some t2.
Proof.
  destruct now as [tmp|]; [|discriminate].
  destruct (formatted E (WallclockPaint.line_fmt s Text1) tmp)
    as [t1|] eqn:Hf1.
  - destruct (formatted E (WallclockPaint.line_fmt s Text2) tmp)
      as [t2|] eqn:Hf2; [intros _; now exists tmp, t1, t2|].
    unfold Wallclock.draw.
    rewrite (bind_Done _ _ _ _ _ _ (Wallclock_draw_first E s tmp t1 Hf1)).
    cbv beta. erewrite bind_Exit; [discriminate|].
    rewrite Wallclock_drawtext_spec.
    assert (Hfmt : WallclockPaint.line_fmt
                     (if changed t1 (Wallclock.line_buf
                                       (Wallclock.get_line Text1 s))
                      then WallclockPaint.repaint_state E s Text1 t1
                      else s) Text2
                   = WallclockPaint.line_fmt s Text2).
    { destruct (changed t1 _); [apply Wallclock_repaint_fmt|reflexivity]. }
    rewrite Hfmt, Hf2. reflexivity.
  - unfold Wallclock.draw.
    rewrite (bind_Exit _ _ s s 1 [EvStderr (MsgStrftime
               (WallclockPaint.line_fmt s Text1))]); [discriminate|].
    now rewrite Wallclock_drawtext_spec, Hf1.
Qed.




Section FixedPitchDraw.

Import FixedPitch FixedPitchPaint.

Variable E : Xenv.
Variable s : state.
Variable tmp : tm.
Variables t1 t2 : string.
Hypothesis Hf1 : formatted E (line_fmt s Text1) tmp = Some t1.
Hypothesis Hf2 : formatted E (line_fmt s Text2) tmp = Some t2.

Let c1 := changed t1 (line_buf (get_line Text1 s)).
Let c2 := changed t2 (line_buf (get_line Text2 s)).
Let s1 := if c1 then repaint_state E s Text1 t1 else s.
Let out1 := if c1 then repaint_events E s Text1 t1 else [].
Let s2 := if c2 then repaint_state E s1 Text2 t2 else s1.
Let out2 := if c2 then repaint_events E s1 Text2 t2 else [].

Lemma FixedPitch_draw_first : drawtext E Text1 tmp s = Done tt s1 out1.
Proof.
  rewrite FixedPitch_drawtext_spec, Hf1.
  subst c1 s1 out1. unfold changed.
  now destruct (String.eqb t1 _).
Qed.

Lemma FixedPitch_draw_second : drawtext E Text2 tmp s1 = Done tt s2 out2.
Proof.
  rewrite FixedPitch_drawtext_spec.
  assert (Hfmt : line_fmt s1 Text2 = line_fmt s Text2).
  { subst s1. destruct c1; [apply FixedPitch_repaint_fmt|reflexivity]. }
  assert (Hbuf : line_buf (get_line Text2 s1) = line_buf (get_line Text2 s)).
  { subst s1. destruct c1; [|reflexivity].
    rewrite FixedPitch_repaint_other; [reflexivity|discriminate]. }
  rewrite Hfmt, Hf2, Hbuf.
  subst s2 out2 c2. unfold changed.
  now destruct (String.eqb t2 _).
Qed.

Lemma FixedPitch_draw_Done :
  draw E (Some tmp) true s
  = Done tt s2 (out1 ++ out2
                ++ [EvXCopyArea 0 0 (dc_w (dc s2)) (dc_h (dc s2)) 0 0;
                    EvXSync]).
Proof.
  unfold draw. cbn [when].
  erewrite bind_Done;
    [|erewrite bind_Done; [|exact FixedPitch_draw_first];
      rewrite FixedPitch_draw_second; reflexivity].
  cbn. now rewrite <- app_assoc.
Qed.

End FixedPitchDraw.

Lemma FixedPitch_draw_inv (E : Xenv) (now : option tm)
  (s s' : FixedPitch.state) (out : list event) :
  FixedPitch.draw E now true s = Done tt s' out ->
  exists tmp t1 t2,
    now = Some tmp
    /\ formatted E (FixedPitchPaint.line_fmt s Text1) tmp = Some t1
    /\ formatted E (FixedPitchPaint.line_fmt s Text2) tmp = Some t2.
Proof.
  destruct now as [tmp|]; [|discriminate].
  destruct (formatted E (FixedPitchPaint.line_fmt s Text1) tmp)
    as [t1|] eqn:Hf1.
  - destruct (formatted E (FixedPitchPaint.line_fmt s Text2) tmp)
      as [t2|] eqn:Hf2; [intros _; now exists tmp, t1, t2|].
    unfold FixedPitch.draw. cbn [when].
    erewrite bind_Exit; [discriminate|].
    erewrite bind_Done; [|exact (FixedPitch_draw_first E s tmp t1 Hf1)].
    rewrite FixedPitch_drawtext_spec.
    assert (Hfmt : FixedPitchPaint.line_fmt
                     (if changed t1 (FixedPitch.line_buf
                                       (FixedPitch.get_line Text1 s))
                      then FixedPitchPaint.repaint_state E s Text1 t1
                      else s) Text2
                   = FixedPitchPaint.line_fmt s Text2).
    { destruct (changed t1 _); [apply FixedPitch_repaint_fmt|reflexivity]. }
    rewrite Hfmt, Hf2. reflexivity.
  - unfold FixedPitch.draw. cbn [when].
    erewrite bind_Exit; [discriminate|].
    erewrite bind_Exit; [reflexivity|].
    now rewrite FixedPitch_drawtext_spec, Hf1.
Qed.



Lemma Wallclock_repaint_draws (E : Xenv) (s : Wallclock.state)
  (line l : lineref) (text : string) :
  existsb (is_draw_of l) (WallclockPaint.repaint_events E s line text)
  = lineref_eqb l line.
Proof.
  unfold WallclockPaint.repaint_events, WallclockPaint.draw_string.
  destruct (WallclockPaint.excessive E s line text); cbn;
    now rewrite orb_false_r.
Qed.

Lemma FixedPitch_repaint_draws (E : Xenv) (s : FixedPitch.state)
  (line l : lineref) (text : string) :
  existsb (is_draw_of l) (FixedPitchPaint.repaint_events E s line text)
  = lineref_eqb l line.
Proof.
  unfold FixedPitchPaint.repaint_events, FixedPitchPaint.draw_string.
  destruct (FixedPitchPaint.fixed_pitch _ text),
    (FixedPitchPaint.excessive E s line text); cbn;
    now rewrite orb_false_r.
Qed.





(** ** The width policy of the fixed-pitch variant *)


Lemma to_int_small (z : Z) : in_int z -> to_int z = z.
Proof.
  unfold in_int, to_int. intros H.
  rewrite Z.mod_small by lia. lia.
Qed.







(** ** Monitor selection in src/wallclock.c *)

Ltac surface_side :=
  let Hg := fresh "Hg" in
  let Hin := fresh "Hin" in
  intros ? ? [Hg Hin]; split;
  [ first [exact Hg|rewrite <- Hg; reflexivity]
  | first [exact Hin|apply in_or_app; left; exact Hin] ].

Lemma Wallclock_surface_repaint (E : Xenv) (g : Z * Z * Z * Z) (px : event)
  (s : Wallclock.state) (h : list event) (line : lineref) (tmp : tm)
  (text : string) :
  Wallclock_surface g px s h ->
  formatted E (WallclockPaint.line_fmt s line) tmp = Some text ->
  Wallclock_surface g px (WallclockPaint.repaint_state E s line text)
                    (h ++ WallclockPaint.repaint_events E s line text).
Proof.
  intros [Hg Hin] _. split; [|apply in_or_app; left; exact Hin].
  rewrite <- Hg. unfold Wallclock_geometry.
  destruct (Wallclock_repaint_frame E s line Text1 text)
    as (_ & _ & _ & _ & _ & -> & -> & -> & -> & _).
  reflexivity.
Qed.

Lemma Wallclock_surface_neutral (g : Z * Z * Z * Z) (px : event)
  (s : Wallclock.state) (h : list event) (e : event) :
  is_neutral e = true ->
  Wallclock_surface g px s h -> Wallclock_surface g px s (h ++ [e]).
Proof.
  intros _ [Hg Hin]. split; [exact Hg|apply in_or_app; left; exact Hin].
Qed.

Lemma Wallclock_surface_running (g : Z * Z * Z * Z) (px : event)
  (s : Wallclock.state) (h : list event) (b : bool) :
  Wallclock_surface g px s h ->
  Wallclock_surface g px (Wallclock.set_running b s) h.
Proof. intros [Hg Hin]. split; [exact Hg|exact Hin]. Qed.

Lemma Wallclock_initline_surface (E : Xenv) (g : Z * Z * Z * Z)
  (px : event) (line : lineref) (arg : Wallclock.linearg_t) :
  triple (Wallclock_surface g px) (Wallclock.initline E line arg)
         (Wallclock_surface g px).
Proof.
  unfold Wallclock.initline. destruct line; inv_tac surface_side idtac.
Qed.

Lemma hoare_triple {S A} (P Q : assertion S) (m : M S A) :
  triple P m Q -> hoare P m (fun _ => Q) Q.
Proof. intros H. exact H. Qed.

(** Once the geometry is settled, the rest of [setup] creates the pixmap
    with the surface extent and never changes the geometry again. *)
Ltac setup_rest :=
  let s0 := fresh "s0" in
  apply hoare_get_bind; intros s0; cbv beta;
  match goal with
  | |- hoare _ (bind _ _) (fun _ => Wallclock_surface ?g ?px) _ =>
      apply (hoare_bind _ (fun _ s h => s = s0 /\ Wallclock_geometry s = g));
      [ match goal with
        | |- hoare _ (when ?c _) _ _ =>
            destruct c;
            [apply hoare_emit|apply hoare_ret];
            (let H := fresh "H" in intros ? ? H; exact H)
        end
      | intros _;
        apply (hoare_bind _ (fun _ => Wallclock_surface g px));
        [ apply hoare_emit;
          (let Hg := fresh "Hg" in
           intros ? ? [-> Hg]; split; [exact Hg|];
           apply in_or_app; right; left;
           unfold Wallclock_geometry in Hg; injection Hg as _ _ <- <-;
           reflexivity)
        | intros _; apply hoare_triple;
          inv_tac surface_side
            ltac:(idtac;
                  first [ apply Wallclock_initline_surface
                        | first [apply Wallclock_draw_triple
                                |apply Wallclock_copy_triple];
                          first [apply Wallclock_surface_neutral
                                |apply Wallclock_surface_running
                                |apply Wallclock_surface_repaint] ]) ] ]
  end.

Lemma Wallclock_setup_whole_display (E : Xenv) (now : option tm)
  (s : Wallclock.state) :
  XOpenDisplay E = true -> Xinerama E = None ->
  hoare (fun s' h => s' = s /\ h = []) (Wallclock.setup E now)
    (fun _ => Wallclock_surface (0, 0, DisplayWidth E, DisplayHeight E)
                (EvXCreatePixmap (DisplayWidth E) (DisplayHeight E)))
    (Wallclock_surface (0, 0, DisplayWidth E, DisplayHeight E)
       (EvXCreatePixmap (DisplayWidth E) (DisplayHeight E))).
Proof.
  intros Hopen Hxin. unfold Wallclock.setup. rewrite Hopen, Hxin.
  cbn [negb].
  apply (hoare_bind _ (fun _ s' h =>
           Wallclock_geometry s' = (0, 0, DisplayWidth E, DisplayHeight E))).
  { apply hoare_modify. intros s' h _. reflexivity. }
  intros _.
  apply (hoare_bind _ (fun _ s' h =>
           Wallclock_geometry s' = (0, 0, DisplayWidth E, DisplayHeight E))).
  { apply hoare_ret. intros s' h H. exact H. }
  intros _. setup_rest.
Qed.

Lemma Wallclock_setup_monitor (E : Xenv) (now : option tm)
  (s : Wallclock.state) (info : list XineramaScreenInfo)
  (m : XineramaScreenInfo) :
  XOpenDisplay E = true -> Xinerama E = Some info ->
  0 <= Wallclock.args_screen (Wallclock.args s) ->
  nth_error info (Z.to_nat (Wallclock.args_screen (Wallclock.args s)))
  = Some m ->
  hoare (fun s' h => s' = s /\ h = []) (Wallclock.setup E now)
    (fun _ => Wallclock_surface (x_org m, y_org m, width m, height m)
                (EvXCreatePixmap (width m) (height m)))
    (Wallclock_surface (x_org m, y_org m, width m, height m)
       (EvXCreatePixmap (width m) (height m))).
Proof.
  intros Hopen Hxin Hpos Hnth. unfold Wallclock.setup.
  rewrite Hopen, Hxin. cbn [negb].
  apply (hoare_bind _ (fun _ s' h => Wallclock.args s' = Wallclock.args s)).
  { apply hoare_modify. intros s' h [-> _]. reflexivity. }
  intros _.
  apply (hoare_bind _ (fun _ s' h =>
           Wallclock_geometry s' = (x_org m, y_org m, width m, height m))).
  { intros s1 pre Hargs.
    assert (Hlt : Wallclock.args_screen (Wallclock.args s)
                  < Z.of_nat (List.length info)).
    { assert (Z.to_nat (Wallclock.args_screen (Wallclock.args s))
              < List.length info)%nat
        by (apply nth_error_Some; congruence).
      lia. }
    unfold bind at 1. unfold get at 1. cbv beta iota. rewrite Hargs.
    assert (Hc1 : (Wallclock.args_screen (Wallclock.args s) =? -1) = false)
      by (apply Z.eqb_neq; lia).
    assert (Hc2 : (Z.of_nat (List.length info)
                   <=? Wallclock.args_screen (Wallclock.args s)) = false)
      by (apply Z.leb_gt; lia).
    assert (Hat : Wallclock.info_at info
                    (Wallclock.args_screen (Wallclock.args s)) = Some m).
    { unfold Wallclock.info_at.
      assert (Hc3 : (Wallclock.args_screen (Wallclock.args s) <? 0) = false)
        by (apply Z.ltb_ge; lia).
      now rewrite Hc3. }
    rewrite Hc1, Hc2. cbn [negb]. unfold bind at 1. unfold ret at 1.
    cbv beta iota. rewrite Hat. reflexivity. }
  intros _. setup_rest.
Qed.

Lemma Wallclock_setup_exceeds (E : Xenv) (now : option tm)
  (s : Wallclock.state) (info : list XineramaScreenInfo) :
  XOpenDisplay E = true -> Xinerama E = Some info ->
  Z.of_nat (List.length info) <= Wallclock.args_screen (Wallclock.args s) ->
  Wallclock.setup E now s
  = Exit 1 (Wallclock.set_dc
              (Wallclock.with_geometry 0 0 (DisplayWidth E) (DisplayHeight E))
              s)
      [EvStderr (MsgExceedsScreens (Wallclock.args_screen (Wallclock.args s))
                   (Z.of_nat (List.length info)))].
Proof.
  intros Hopen Hxin Hge. unfold Wallclock.setup.
  rewrite Hopen, Hxin. cbn [negb].
  assert (Hc1 : (Wallclock.args_screen (Wallclock.args s) =? -1) = false)
    by (apply Z.eqb_neq; lia).
  assert (Hc2 : (Z.of_nat (List.length info)
                 <=? Wallclock.args_screen (Wallclock.args s)) = true)
    by (apply Z.leb_le; lia).
  erewrite bind_Done; [|reflexivity].
  erewrite bind_Exit; [reflexivity|].
  erewrite bind_Done; [|reflexivity].
  erewrite bind_Exit; [reflexivity|].
  cbn [Wallclock.args Wallclock.set_dc]. rewrite Hc1, Hc2. reflexivity.
Qed.

(** C9, as the code has it.  In src/wallclock.c, once the display is
    open: when Xinerama is active and reports [n] monitors, a requested
    index of at least [n] makes [setup] write the diagnostic and exit with
    status 1 before the pixmap is created, and a requested index [0 <=
    screen < n] makes that monitor's origin and extent the surface
    geometry, with which the pixmap is created; when Xinerama is not
    active the request is not looked at and the surface is the whole
    display. *)
Theorem setup_monitor_selection (E : Xenv) (now : option tm)
  (s : Wallclock.state) :
  XOpenDisplay E = true ->
  let screen := Wallclock.args_screen (Wallclock.args s) in
  let o := Wallclock.setup E now s in
  (forall info : list XineramaScreenInfo,
      Xinerama E = Some info ->
      let n := Z.of_nat (List.length info) in
      (n <= screen ->
       o = Exit 1 (outcome_state o) [EvStderr (MsgExceedsScreens screen n)]
       /\ existsb is_create_pixmap (outcome_out o) = false)
      /\ (forall m : XineramaScreenInfo,
             0 <= screen -> nth_error info (Z.to_nat screen) = Some m ->
             Wallclock_geometry (outcome_state o)
             = (x_org m, y_org m, width m, height m)
             /\ In (EvXCreatePixmap (width m) (height m)) (outcome_out o)))
  /\ (Xinerama E = None ->
      Wallclock_geometry (outcome_state o)
      = (0, 0, DisplayWidth E, DisplayHeight E)
      /\ In (EvXCreatePixmap (DisplayWidth E) (DisplayHeight E))
            (outcome_out o)).
Proof.
  intros Hopen screen o. split.
  - intros info Hxin n. split.
    + intros Hge. subst o.
      rewrite (Wallclock_setup_exceeds E now s info Hopen Hxin Hge).
      split; reflexivity.
    + intros m Hpos Hnth.
      exact (triple_outcome _ _ _ s []
               (Wallclock_setup_monitor E now s info m Hopen Hxin Hpos Hnth)
               (conj eq_refl eq_refl)).
  - intros Hxin.
    exact (triple_outcome _ _ _ s []
             (Wallclock_setup_whole_display E now s Hopen Hxin)
             (conj eq_refl eq_refl)).
Qed.

Lemma setup_monitor_selection_witness :
  (let o := Wallclock.setup Monitors.env2 (Some Sample.noon)
              (Monitors.requested 2) in
   o = Exit 1 (outcome_state o) [EvStderr (MsgExceedsScreens 2 2)]
   /\ existsb is_create_pixmap (outcome_out o) = false)
  /\ (let o := Wallclock.setup Monitors.env2 (Some Sample.noon)
                 (Monitors.requested 1) in
      Wallclock_geometry (outcome_state o) = (1920, 0, 1280, 1024)
      /\ In (EvXCreatePixmap 1280 1024) (outcome_out o))
  /\ (let o := Wallclock.setup Sample.env0 (Some Sample.noon)
                 (Monitors.requested 1) in
      Wallclock_geometry (outcome_state o) = (0, 0, 1920, 1080)
      /\ In (EvXCreatePixmap 1920 1080) (outcome_out o)).
Proof.
  split; [|split]; cbv zeta.
  - exact (proj1 (proj1 (setup_monitor_selection Monitors.env2
                           (Some Sample.noon) (Monitors.requested 2) eq_refl)
                    Sample.two_monitors eq_refl)
             ltac:(vm_compute; discriminate)).
  - exact (proj2 (proj1 (setup_monitor_selection Monitors.env2
                           (Some Sample.noon) (Monitors.requested 1) eq_refl)
                    Sample.two_monitors eq_refl)
             (mk_XineramaScreenInfo 1 1920 0 1280 1024)
             ltac:(vm_compute; discriminate) eq_refl).
  - exact (proj2 (setup_monitor_selection Sample.env0
                    (Some Sample.noon) (Monitors.requested 1) eq_refl)
             eq_refl).
Defined.

(** C9 fails without Xinerama: on a display where Xinerama is not active,
    requesting monitor 2 is not an error; [setup] completes on the whole
    display, creates the pixmap and writes no diagnostic. *)
Lemma screen_request_ignored_without_xinerama :
  let s := Monitors.requested 2 in
  let o := Wallclock.setup Sample.env0 (Some Sample.noon) s in
  Xinerama Sample.env0 = None
  /\ Wallclock.args_screen (Wallclock.args s) = 2
  /\ o = Done tt (outcome_state o) (outcome_out o)
  /\ In (EvXCreatePixmap 1920 1080) (outcome_out o)
  /\ filter is_stderr (outcome_out o) = [].
Proof.
  cbv zeta. split; [reflexivity|]. split; [reflexivity|].
  split; [vm_compute; reflexivity|]. split; [|vm_compute; reflexivity].
  vm_compute. repeat (first [left; reflexivity|right]).
Qed.

(** * Properties of whole runs *)

(** ** The 64-byte buffers *)

Lemma neutral_bounded_draw (e : event) :
  is_neutral e = true -> bounded_draw e.
Proof. destruct e; simpl; try exact (fun _ => I). discriminate. Qed.

Ltac bounded_side :=
  let Hb := fresh "Hb" in
  let Hf := fresh "Hf" in
  intros ? ? [Hb Hf]; split;
  [ first [ exact Hb
          | let l := fresh "l" in
            intros l; pose proof (Hb Text1); pose proof (Hb Text2);
            destruct l; assumption ]
  | first [ exact Hf
          | apply Forall_app; split; [exact Hf|repeat constructor] ] ].

Lemma Wallclock_bounded_neutral (s : Wallclock.state) (h : list event)
  (e : event) :
  is_neutral e = true ->
  Wallclock_bounded s h -> Wallclock_bounded s (h ++ [e]).
Proof.
  intros He [Hb Hf]. split; [exact Hb|].
  apply Forall_app. split; [exact Hf|].
  constructor; [now apply neutral_bounded_draw|constructor].
Qed.

Lemma Wallclock_bounded_running (s : Wallclock.state) (h : list event)
  (b : bool) :
  Wallclock_bounded s h -> Wallclock_bounded (Wallclock.set_running b s) h.
Proof. intros [Hb Hf]. split; [exact Hb|exact Hf]. Qed.

Lemma Wallclock_bounded_repaint (E : Xenv) (s : Wallclock.state)
  (h : list event) (line : lineref) (tmp : tm) (text : string) :
  Wallclock_bounded s h ->
  formatted E (WallclockPaint.line_fmt s line) tmp = Some text ->
  Wallclock_bounded (WallclockPaint.repaint_state E s line text)
                    (h ++ WallclockPaint.repaint_events E s line text).
Proof.
  intros [Hb Hf] Hfmt. pose proof (formatted_fits _ _ _ _ Hfmt) as Hfit.
  apply formatted_Some in Hfmt. destruct Hfmt as [_ Hlen]. split.
  - intros l. destruct (lineref_eqb l line) eqn:Hl.
    + apply lineref_eqb_eq in Hl. subst l.
      rewrite Wallclock_repaint_buf, Hfit. lia.
    + apply lineref_eqb_neq in Hl.
      rewrite (Wallclock_repaint_other E s line l text Hl). apply Hb.
  - apply Forall_app. split; [exact Hf|].
    unfold WallclockPaint.repaint_events, WallclockPaint.draw_string.
    destruct (WallclockPaint.excessive E s line text);
      repeat constructor; unfold strlen; lia.
Qed.

Lemma Wallclock_initline_bounded (E : Xenv) (line : lineref)
  (arg : Wallclock.linearg_t) :
  triple Wallclock_bounded (Wallclock.initline E line arg) Wallclock_bounded.
Proof.
  unfold Wallclock.initline. destruct line; inv_tac bounded_side idtac.
Qed.

Ltac wallclock_bounded_known E :=
  first [ apply Wallclock_initline_bounded
        | first [ apply (Wallclock_draw_triple E)
                | apply Wallclock_copy_triple
                | apply (Wallclock_loop_triple E)
                | apply Wallclock_cleanup_triple ];
          first [ apply Wallclock_bounded_neutral
                | apply Wallclock_bounded_running
                | apply Wallclock_bounded_repaint ] ].

Lemma Wallclock_main_bounded (E : Xenv) (now : option tm)
  (ticks : list Wallclock.tick) :
  triple Wallclock_bounded (Wallclock.main E now ticks) Wallclock_bounded.
Proof.
  unfold Wallclock.main, Wallclock.setup.
  inv_tac bounded_side ltac:(idtac; wallclock_bounded_known E).
Qed.

Lemma FixedPitch_bounded_neutral (s : FixedPitch.state) (h : list event)
  (e : event) :
  is_neutral e = true ->
  FixedPitch_bounded s h -> FixedPitch_bounded s (h ++ [e]).
Proof.
  intros He [Hb Hf]. split; [exact Hb|].
  apply Forall_app. split; [exact Hf|].
  constructor; [now apply neutral_bounded_draw|constructor].
Qed.

Lemma FixedPitch_bounded_running (s : FixedPitch.state) (h : list event)
  (b : bool) :
  FixedPitch_bounded s h -> FixedPitch_bounded (FixedPitch.set_running b s) h.
Proof. intros [Hb Hf]. split; [exact Hb|exact Hf]. Qed.

Lemma FixedPitch_bounded_repaint (E : Xenv) (s : FixedPitch.state)
  (h : list event) (line : lineref) (tmp : tm) (text : string) :
  FixedPitch_bounded s h ->
  formatted E (FixedPitchPaint.line_fmt s line) tmp = Some text ->
  FixedPitch_bounded (FixedPitchPaint.repaint_state E s line text)
                     (h ++ FixedPitchPaint.repaint_events E s line text).
Proof.
  intros [Hb Hf] Hfmt. pose proof (formatted_fits _ _ _ _ Hfmt) as Hfit.
  apply formatted_Some in Hfmt. destruct Hfmt as [_ Hlen]. split.
  - intros l. destruct (lineref_eqb l line) eqn:Hl.
    + apply lineref_eqb_eq in Hl. subst l.
      rewrite FixedPitch_repaint_buf, Hfit. lia.
    + apply lineref_eqb_neq in Hl.
      rewrite (FixedPitch_repaint_other E s line l text Hl). apply Hb.
  - apply Forall_app. split; [exact Hf|].
    unfold FixedPitchPaint.repaint_events, FixedPitchPaint.draw_string.
    destruct (FixedPitchPaint.fixed_pitch _ text),
      (FixedPitchPaint.excessive E s line text);
      repeat constructor; unfold strlen; lia.
Qed.

Lemma FixedPitch_initline_bounded (E : Xenv) (line : lineref)
  (arg : FixedPitch.linearg_t) :
  triple FixedPitch_bounded (FixedPitch.initline E line arg)
         FixedPitch_bounded.
Proof.
  unfold FixedPitch.initline, FixedPitch.textnw.
  destruct line; inv_tac bounded_side idtac.
Qed.

Ltac fixedpitch_bounded_known E :=
  first [ apply FixedPitch_initline_bounded
        | first [ apply (FixedPitch_draw_triple E)
                | apply (FixedPitch_loop_triple E)
                | apply FixedPitch_cleanup_triple ];
          first [ apply FixedPitch_bounded_neutral
                | apply FixedPitch_bounded_running
                | apply FixedPitch_bounded_repaint ] ].

Lemma FixedPitch_main_bounded (E : Xenv) (now : option tm)
  (ticks : list FixedPitch.tick) :
  triple FixedPitch_bounded (FixedPitch.main E now ticks) FixedPitch_bounded.
Proof.
  unfold FixedPitch.main, FixedPitch.setup.
  inv_tac bounded_side ltac:(idtac; fixedpitch_bounded_known E).
Qed.

(** X1.  In both variants, at the end of every run of [main] each line's
    [buf] holds at most 63 bytes, so [strncpy(line->buf, buf, 64)] never
    cut a string short nor left the buffer without its terminator; and
    every [XftDrawStringUtf8] issued was given a string of 1 to 63 bytes
    together with exactly its length. *)
Theorem buffers_never_overflow (E : Xenv) :
  (forall (a : Wallclock.args_t) (now : option tm)
          (ticks : list Wallclock.tick),
      let o := Wallclock.main E now ticks (Wallclock.initial_state a) in
      (forall l,
          (String.length
             (Wallclock.line_buf (Wallclock.get_line l (outcome_state o)))
           <= 63)%nat)
      /\ Forall bounded_draw (outcome_out o))
  /\ (forall (a : FixedPitch.args_t) (now : option tm)
             (ticks : list FixedPitch.tick),
      let o := FixedPitch.main E now ticks (FixedPitch.initial_state a) in
      (forall l,
          (String.length
             (FixedPitch.line_buf (FixedPitch.get_line l (outcome_state o)))
           <= 63)%nat)
      /\ Forall bounded_draw (outcome_out o)).
Proof.
  split.
  - intros a now ticks o.
    assert (H0 : Wallclock_bounded (Wallclock.initial_state a) []).
    { split; [intros []; simpl; lia|constructor]. }
    pose proof (triple_outcome _ _ _ _ [] (Wallclock_main_bounded E now ticks)
                  H0) as [Hb Hf].
    split; [|exact Hf]. intros l. specialize (Hb l). fold o in Hb. lia.
  - intros a now ticks o.
    assert (H0 : FixedPitch_bounded (FixedPitch.initial_state a) []).
    { split; [intros []; simpl; lia|constructor]. }
    pose proof (triple_outcome _ _ _ _ [] (FixedPitch_main_bounded E now ticks)
                  H0) as [Hb Hf].
    split; [|exact Hf]. intros l. specialize (Hb l). fold o in Hb. lia.
Qed.

(** ** What a completed draw leaves behind *)

Lemma changed_refl (t : string) : changed t t = false.
Proof. unfold changed. now rewrite String.eqb_refl. Qed.

Lemma Wallclock_draw_bufs (E : Xenv) (s s' : Wallclock.state) (tmp : tm)
  (t1 t2 : string) (d : bool) (out : list event) :
  formatted E (WallclockPaint.line_fmt s Text1) tmp = Some t1 ->
  formatted E (WallclockPaint.line_fmt s Text2) tmp = Some t2 ->
  Wallclock.draw E (Some tmp) s = Done d s' out ->
  Wallclock.line_buf (Wallclock.get_line Text1 s') = t1
  /\ Wallclock.line_buf (Wallclock.get_line Text2 s') = t2
  /\ forall l, WallclockPaint.line_fmt s' l = WallclockPaint.line_fmt s l.
Proof.
  intros Hf1 Hf2 H.
  rewrite (Wallclock_draw_Done E s tmp t1 t2 Hf1 Hf2) in H.
  injection H as _ <- _.
  pose proof (formatted_fits _ _ _ _ Hf1) as Hfit1.
  pose proof (formatted_fits _ _ _ _ Hf2) as Hfit2.
  destruct (changed t1 _) eqn:Hc1; cbn [orb].
  - split; [|split].
    + rewrite Wallclock_repaint_other by discriminate.
      now rewrite Wallclock_repaint_buf.
    + now rewrite Wallclock_repaint_buf.
    + intros l. now rewrite !Wallclock_repaint_fmt.
  - apply changed_false_iff in Hc1.
    destruct (changed t2 _) eqn:Hc2.
    + split; [|split].
      * rewrite Wallclock_repaint_other by discriminate. now symmetry.
      * now rewrite Wallclock_repaint_buf.
      * intros l. now rewrite Wallclock_repaint_fmt.
    + apply changed_false_iff in Hc2. now repeat split.
Qed.

Lemma FixedPitch_draw_bufs (E : Xenv) (s s' : FixedPitch.state) (tmp : tm)
  (t1 t2 : string) (out : list event) :
  formatted E (FixedPitchPaint.line_fmt s Text1) tmp = Some t1 ->
  formatted E (FixedPitchPaint.line_fmt s Text2) tmp = Some t2 ->
  FixedPitch.draw E (Some tmp) true s = Done tt s' out ->
  FixedPitch.line_buf (FixedPitch.get_line Text1 s') = t1
  /\ FixedPitch.line_buf (FixedPitch.get_line Text2 s') = t2
  /\ forall l, FixedPitchPaint.line_fmt s' l = FixedPitchPaint.line_fmt s l.
Proof.
  intros Hf1 Hf2 H.
  rewrite (FixedPitch_draw_Done E s tmp t1 t2 Hf1 Hf2) in H.
  injection H as <- _.
  pose proof (formatted_fits _ _ _ _ Hf1) as Hfit1.
  pose proof (formatted_fits _ _ _ _ Hf2) as Hfit2.
  destruct (changed t1 _) eqn:Hc1; destruct (changed t2 _) eqn:Hc2;
    try apply changed_false_iff in Hc1; try apply changed_false_iff in Hc2.
  - split; [|split].
    + rewrite FixedPitch_repaint_other by discriminate.
      now rewrite FixedPitch_repaint_buf.
    + now rewrite FixedPitch_repaint_buf.
    + intros l. now rewrite !FixedPitch_repaint_fmt.
  - split; [|split].
    + now rewrite FixedPitch_repaint_buf.
    + rewrite FixedPitch_repaint_other by discriminate. now symmetry.
    + intros l. now rewrite FixedPitch_repaint_fmt.
  - split; [|split].
    + rewrite FixedPitch_repaint_other by discriminate. now symmetry.
    + now rewrite FixedPitch_repaint_buf.
    + intros l. now rewrite FixedPitch_repaint_fmt.
  - now repeat split.
Qed.

(** X2.  In both variants, after a [draw] that re-renders and returns,
    each line's [buf] is exactly the expansion of that line's format at
    the time [localtime] gave, a string of 1 to 63 bytes, whatever the
    buffers held before. *)
Theorem draw_leaves_current_text (E : Xenv) :
  (forall (s s' : Wallclock.state) (now : option tm) (d : bool)
          (out : list event),
      Wallclock.draw E now s = Done d s' out ->
      exists tmp,
        now = Some tmp
        /\ forall l,
             Wallclock.line_buf (Wallclock.get_line l s')
             = strftime_expand E (WallclockPaint.line_fmt s l) tmp
             /\ (0 < String.length
                       (Wallclock.line_buf (Wallclock.get_line l s'))
                 < 64)%nat)
  /\ (forall (s s' : FixedPitch.state) (now : option tm) (out : list event),
      FixedPitch.draw E now true s = Done tt s' out ->
      exists tmp,
        now = Some tmp
        /\ forall l,
             FixedPitch.line_buf (FixedPitch.get_line l s')
             = strftime_expand E (FixedPitchPaint.line_fmt s l) tmp
             /\ (0 < String.length
                       (FixedPitch.line_buf (FixedPitch.get_line l s'))
                 < 64)%nat).
Proof.
  split.
  - intros s s' now d out H.
    destruct (Wallclock_draw_inv _ _ _ _ _ _ H)
      as (tmp & t1 & t2 & -> & Hf1 & Hf2).
    exists tmp. split; [reflexivity|].
    destruct (Wallclock_draw_bufs E s s' tmp t1 t2 d out Hf1 Hf2 H)
      as (Hb1 & Hb2 & _).
    apply formatted_Some in Hf1, Hf2.
    intros []; [rewrite Hb1|rewrite Hb2]; tauto.
  - intros s s' now out H.
    destruct (FixedPitch_draw_inv _ _ _ _ _ H)
      as (tmp & t1 & t2 & -> & Hf1 & Hf2).
    exists tmp. split; [reflexivity|].
    destruct (FixedPitch_draw_bufs E s s' tmp t1 t2 out Hf1 Hf2 H)
      as (Hb1 & Hb2 & _).
    apply formatted_Some in Hf1, Hf2.
    intros []; [rewrite Hb1|rewrite Hb2]; tauto.
Qed.

Lemma draw_leaves_current_text_witness :
  (exists tmp,
      Some Sample.noon01 = Some tmp
      /\ forall l,
           Wallclock.line_buf
             (Wallclock.get_line l
                (outcome_state (Wallclock.draw Sample.env0
                                  (Some Sample.noon01) Examples.wnoon)))
           = strftime_expand Sample.env0
               (WallclockPaint.line_fmt Examples.wnoon l) tmp
           /\ (0 < String.length
                     (Wallclock.line_buf
                        (Wallclock.get_line l
                           (outcome_state
                              (Wallclock.draw Sample.env0
                                 (Some Sample.noon01) Examples.wnoon))))
               < 64)%nat)
  /\ (exists tmp,
      Some Sample.noon01 = Some tmp
      /\ forall l,
           FixedPitch.line_buf
             (FixedPitch.get_line l
                (outcome_state (FixedPitch.draw Sample.env0
                                  (Some Sample.noon01) true Examples.pnoon)))
           = strftime_expand Sample.env0
               (FixedPitchPaint.line_fmt Examples.pnoon l) tmp
           /\ (0 < String.length
                     (FixedPitch.line_buf
                        (FixedPitch.get_line l
                           (outcome_state
                              (FixedPitch.draw Sample.env0
                                 (Some Sample.noon01) true Examples.pnoon))))
               < 64)%nat).
Proof.
  split.
  - apply (proj1 (draw_leaves_current_text Sample.env0) Examples.wnoon _
             (Some Sample.noon01) true
             (outcome_out (Wallclock.draw Sample.env0 (Some Sample.noon01)
                             Examples.wnoon))).
    vm_compute. reflexivity.
  - apply (proj2 (draw_leaves_current_text Sample.env0) Examples.pnoon _
             (Some Sample.noon01)
             (outcome_out (FixedPitch.draw Sample.env0 (Some Sample.noon01)
                             true Examples.pnoon))).
    vm_compute. reflexivity.
Defined.

(** X3.  Drawing is idempotent as a whole: in both variants, a second
    [draw] at the same time right after one that returned formats both
    lines, finds neither changed and paints nothing.  In
    src/wallclock.c it reports [false] and only synchronises, the force
    chain notwithstanding; in the fixed-pitch variant it only copies and
    synchronises.  The state is left as it was. *)
Theorem draw_twice_paints_once (E : Xenv) :
  (forall (s s' : Wallclock.state) (now : option tm) (d : bool)
          (out : list event),
      Wallclock.draw E now s = Done d s' out ->
      Wallclock.draw E now s' = Done false s' [EvXSync])
  /\ (forall (s s' : FixedPitch.state) (now : option tm) (out : list event),
      FixedPitch.draw E now true s = Done tt s' out ->
      FixedPitch.draw E now true s'
      = Done tt s' [EvXCopyArea 0 0 (FixedPitch.dc_w (FixedPitch.dc s'))
                      (FixedPitch.dc_h (FixedPitch.dc s')) 0 0; EvXSync]).
Proof.
  split.
  - intros s s' now d out H.
    destruct (Wallclock_draw_inv _ _ _ _ _ _ H)
      as (tmp & t1 & t2 & -> & Hf1 & Hf2).
    destruct (Wallclock_draw_bufs E s s' tmp t1 t2 d out Hf1 Hf2 H)
      as (Hb1 & Hb2 & Hfmt).
    rewrite <- (Hfmt Text1) in Hf1. rewrite <- (Hfmt Text2) in Hf2.
    rewrite (Wallclock_draw_Done E s' tmp t1 t2 Hf1 Hf2).
    rewrite Hb1, Hb2, !changed_refl. reflexivity.
  - intros s s' now out H.
    destruct (FixedPitch_draw_inv _ _ _ _ _ H)
      as (tmp & t1 & t2 & -> & Hf1 & Hf2).
    destruct (FixedPitch_draw_bufs E s s' tmp t1 t2 out Hf1 Hf2 H)
      as (Hb1 & Hb2 & Hfmt).
    rewrite <- (Hfmt Text1) in Hf1. rewrite <- (Hfmt Text2) in Hf2.
    rewrite (FixedPitch_draw_Done E s' tmp t1 t2 Hf1 Hf2).
    rewrite Hb1, Hb2, !changed_refl. reflexivity.
Qed.

Lemma draw_twice_paints_once_witness :
  (let s' := outcome_state (Wallclock.draw Sample.env0 (Some Sample.noon01)
                              Examples.wnoon) in
   Wallclock.draw Sample.env0 (Some Sample.noon01) s'
   = Done false s' [EvXSync])
  /\ (let s' := outcome_state (FixedPitch.draw Sample.env0
                                 (Some Sample.noon01) true Examples.pnoon) in
      FixedPitch.draw Sample.env0 (Some Sample.noon01) true s'
      = Done tt s' [EvXCopyArea 0 0 1920 1080 0 0; EvXSync]).
Proof.
  split; cbv zeta.
  - apply (proj1 (draw_twice_paints_once Sample.env0) Examples.wnoon _
             (Some Sample.noon01) true
             (outcome_out (Wallclock.draw Sample.env0 (Some Sample.noon01)
                             Examples.wnoon))).
    vm_compute. reflexivity.
  - assert (H : FixedPitch.draw Sample.env0 (Some Sample.noon01) true
                  Examples.pnoon
                = Done tt
                    (outcome_state (FixedPitch.draw Sample.env0
                                      (Some Sample.noon01) true
                                      Examples.pnoon))
                    (outcome_out (FixedPitch.draw Sample.env0
                                    (Some Sample.noon01) true
                                    Examples.pnoon)))
      by (vm_compute; reflexivity).
    exact (proj2 (draw_twice_paints_once Sample.env0) _ _ _ _ H).
Defined.

(** ** Invariants of the loop, second form

    As above, but asking of the invariant only what the loop really does:
    it emits [loop_event]s and repaints, and it only ever clears
    [running]. *)

Section WallclockLoop.

Import Wallclock WallclockPaint.

Variable E : Xenv.
Variable I : assertion state.

Hypothesis I_event :
  forall s h e, loop_event e = true -> I s h -> I s (h ++ [e]).
Hypothesis I_stop :
  forall s h, I s h -> I (set_running false s) h.
Hypothesis I_repaint :
  forall s h line tmp text,
    I s h -> formatted E (line_fmt s line) tmp = Some text ->
    I (repaint_state E s line text) (h ++ repaint_events E s line text).

Lemma Wallclock_drawtext_keeps (line : lineref) (tmp : tm) (force : bool) :
  triple I (drawtext E line tmp force) I.
Proof.
  intros s pre H. rewrite Wallclock_drawtext_spec.
  destruct (formatted E (line_fmt s line) tmp) as [text|] eqn:Hf.
  - destruct (negb force && _).
    + now rewrite app_nil_r.
    + now apply I_repaint with (tmp := tmp).
  - now apply I_event.
Qed.

Ltac wl_side :=
  intros; first [apply I_event; [reflexivity|assumption]
                |apply I_stop; assumption].

Lemma Wallclock_draw_keeps (now : option tm) : triple I (draw E now) I.
Proof.
  unfold draw. destruct now as [tmp|];
    inv_tac wl_side ltac:(idtac; apply Wallclock_drawtext_keeps).
Qed.

Lemma Wallclock_copy_keeps : triple I copy_to_root I.
Proof. unfold copy_to_root. inv_tac wl_side idtac. Qed.

Lemma Wallclock_catch_keeps (sig : Z) : triple I (catch sig) I.
Proof. unfold catch. inv_tac wl_side idtac. Qed.

Lemma Wallclock_iteration_keeps (t : tick) : triple I (iteration E t) I.
Proof.
  unfold iteration.
  inv_tac wl_side
    ltac:(idtac; first [apply Wallclock_draw_keeps|apply Wallclock_copy_keeps
                       |apply Wallclock_catch_keeps]).
Qed.

Lemma Wallclock_loop_keeps (ticks : list tick) : triple I (loop E ticks) I.
Proof.
  induction ticks as [|t rest IH]; simpl.
  - apply triple_ret.
  - inv_tac wl_side
      ltac:(idtac; first [apply Wallclock_iteration_keeps|exact IH]).
Qed.

End WallclockLoop.

Section FixedPitchLoop.

Import FixedPitch FixedPitchPaint.

Variable E : Xenv.
Variable I : assertion state.

Hypothesis I_event :
  forall s h e, loop_event e = true -> I s h -> I s (h ++ [e]).
Hypothesis I_stop :
  forall s h, I s h -> I (set_running false s) h.
Hypothesis I_repaint :
  forall s h line tmp text,
    I s h -> formatted E (line_fmt s line) tmp = Some text ->
    I (repaint_state E s line text) (h ++ repaint_events E s line text).

Lemma FixedPitch_drawtext_keeps (line : lineref) (tmp : tm) :
  triple I (drawtext E line tmp) I.
Proof.
  intros s pre H. rewrite FixedPitch_drawtext_spec.
  destruct (formatted E (line_fmt s line) tmp) as [text|] eqn:Hf.
  - destruct (String.eqb text _).
    + now rewrite app_nil_r.
    + now apply I_repaint with (tmp := tmp).
  - now apply I_event.
Qed.

Ltac fl_side :=
  intros; first [apply I_event; [reflexivity|assumption]
                |apply I_stop; assumption].

Lemma FixedPitch_draw_keeps (now : option tm) (dirty : bool) :
  triple I (draw E now dirty) I.
Proof.
  unfold draw.
  inv_tac fl_side ltac:(idtac; apply FixedPitch_drawtext_keeps).
Qed.

Lemma FixedPitch_catch_keeps (sig : Z) : triple I (catch sig) I.
Proof. unfold catch. inv_tac fl_side idtac. Qed.

Lemma FixedPitch_iteration_keeps (t : tick) : triple I (iteration E t) I.
Proof.
  unfold iteration.
  inv_tac fl_side
    ltac:(idtac; first [apply FixedPitch_draw_keeps
                       |apply FixedPitch_catch_keeps]).
Qed.

Lemma FixedPitch_loop_keeps (ticks : list tick) : triple I (loop E ticks) I.
Proof.
  induction ticks as [|t rest IH]; simpl.
  - apply triple_ret.
  - inv_tac fl_side
      ltac:(idtac; first [apply FixedPitch_iteration_keeps|exact IH]).
Qed.

End FixedPitchLoop.

(** ** Shutdown of src/wallclock.c *)

Lemma Wallclock_loop_not_running (E : Xenv) (ticks : list Wallclock.tick)
  (s : Wallclock.state) :
  Wallclock.running s = false -> Wallclock.loop E ticks s = Done tt s [].
Proof.
  intros Hr. destruct ticks as [|t rest]; [reflexivity|].
  simpl. unfold bind, get. now rewrite Hr.
Qed.

Lemma Wallclock_stopped_repaint (E : Xenv) (s : Wallclock.state)
  (line : lineref) (text : string) :
  Wallclock.running (WallclockPaint.repaint_state E s line text)
  = Wallclock.running s.
Proof.
  now destruct (Wallclock_repaint_frame E s line Text1 text)
    as (_ & _ & _ & _ & _ & _ & _ & _ & _ & _ & ->).
Qed.

Lemma Wallclock_iteration_stops (E : Xenv) (t : Wallclock.tick) (sig : Z)
  (s s' : Wallclock.state) (d : bool) (out : list event) :
  Wallclock.tick_signal t = Some sig ->
  Wallclock.iteration E t s = Done d s' out ->
  Wallclock.running s' = false.
Proof.
  intros Hsig H.
  assert (Hk : triple (fun (x : Wallclock.state) (_ : list event) =>
                         Wallclock.running x = false)
                      (Wallclock.iteration E t)
                      (fun x _ => Wallclock.running x = false)).
  { apply (Wallclock_iteration_keeps E).
    - intros x h e _ Hx. exact Hx.
    - intros x h _. reflexivity.
    - intros x h line tmp text Hx _.
      now rewrite Wallclock_stopped_repaint. }
  assert (H0 : Wallclock.iteration E t s
               = Wallclock.iteration E t (Wallclock.set_running false s)).
  { unfold Wallclock.iteration. rewrite Hsig. reflexivity. }
  pose proof (triple_outcome _ _ _ (Wallclock.set_running false s) [] Hk
                eq_refl) as Hr.
  rewrite <- H0, H in Hr. exact Hr.
Qed.

Lemma Wallclock_loop_stops (E : Xenv) (t : Wallclock.tick)
  (rest : list Wallclock.tick) (s : Wallclock.state) :
  Wallclock.tick_signal t <> None ->
  Wallclock.loop E (t :: rest) s = Wallclock.loop E [t] s.
Proof.
  intros Hsig. destruct (Wallclock.tick_signal t) as [sig|] eqn:Hs;
    [clear Hsig|contradiction].
  simpl. unfold bind at 1 3. unfold get.
  destruct (Wallclock.running s); [|reflexivity].
  unfold bind.
  destruct (Wallclock.iteration E t s) as [d s1 out1| |] eqn:Hi;
    try reflexivity.
  rewrite (Wallclock_loop_not_running E rest s1
             (Wallclock_iteration_stops E t sig s s1 d out1 Hs Hi)).
  reflexivity.
Qed.

Lemma Wallclock_loop_prefix (E : Xenv) (ticks1 : list Wallclock.tick)
  (t : Wallclock.tick) (rest : list Wallclock.tick) (s : Wallclock.state) :
  Wallclock.tick_signal t <> None ->
  Wallclock.loop E (ticks1 ++ t :: rest) s
  = Wallclock.loop E (ticks1 ++ [t]) s.
Proof.
  intros Hsig. revert s.
  induction ticks1 as [|t1 ticks1 IH]; intros s.
  - now apply Wallclock_loop_stops.
  - simpl. unfold bind at 1 3. unfold get.
    destruct (Wallclock.running s); [|reflexivity].
    unfold bind.
    destruct (Wallclock.iteration E t1 s) as [d s1 out1| |];
      try reflexivity.
    now rewrite IH.
Qed.

Lemma Wallclock_loop_ends_stopped (E : Xenv) (ticks1 : list Wallclock.tick)
  (t : Wallclock.tick) (s s' : Wallclock.state) (out : list event) :
  Wallclock.tick_signal t <> None ->
  Wallclock.loop E (ticks1 ++ [t]) s = Done tt s' out ->
  Wallclock.running s' = false.
Proof.
  intros Hsig. destruct (Wallclock.tick_signal t) as [sig|] eqn:Hs;
    [clear Hsig|contradiction].
  revert s out.
  induction ticks1 as [|t1 ticks1 IH]; intros s out H.
  - simpl in H. apply bind_Done_inv in H.
    destruct H as (s0 & s1 & o1 & o2 & Hg & Hk & _).
    injection Hg as Hs0 Hs1 _. subst s0 s1.
    destruct (Wallclock.running s) eqn:Hr.
    + apply bind_Done_inv in Hk.
      destruct Hk as (d & s2 & o3 & o4 & Hi & Hret & _).
      injection Hret as <- _.
      exact (Wallclock_iteration_stops E t sig _ _ _ _ Hs Hi).
    + injection Hk as <- _. exact Hr.
  - simpl in H. apply bind_Done_inv in H.
    destruct H as (s0 & s1 & o1 & o2 & Hg & Hk & _).
    injection Hg as Hs0 Hs1 _. subst s0 s1.
    destruct (Wallclock.running s) eqn:Hr.
    + apply bind_Done_inv in Hk.
      destruct Hk as (d & s2 & o3 & o4 & _ & Hl & _).
      exact (IH _ _ Hl).
    + injection Hk as <- _. exact Hr.
Qed.

Ltac no_cleanup_side :=
  let H := fresh "H" in
  intros ? ? H;
  first [ exact H
        | rewrite existsb_app, H; reflexivity ].

Lemma Wallclock_no_cleanup_repaint (E : Xenv) (s : Wallclock.state)
  (h : list event) (line : lineref) (text : string) :
  existsb is_cleanup h = false ->
  existsb is_cleanup (h ++ WallclockPaint.repaint_events E s line text)
  = false.
Proof.
  intros H. rewrite existsb_app, H.
  unfold WallclockPaint.repaint_events, WallclockPaint.draw_string,
    WallclockPaint.band.
  destruct (WallclockPaint.excessive E s line text); reflexivity.
Qed.

Lemma loop_event_not_cleanup (h : list event) (e : event) :
  loop_event e = true -> existsb is_cleanup h = false ->
  existsb is_cleanup (h ++ [e]) = false.
Proof.
  intros He H. rewrite existsb_app, H. simpl.
  destruct e as [m|m| | | | | | | | | | | | | | | | |]; try discriminate;
    try reflexivity; destruct m; try discriminate; reflexivity.
Qed.

Lemma Wallclock_start_no_cleanup (E : Xenv) (now : option tm)
  (ticks : list Wallclock.tick) :
  triple (fun (_ : Wallclock.state) h => existsb is_cleanup h = false)
         (bind (Wallclock.setup E now) (fun _ => Wallclock.loop E ticks))
         (fun _ h => existsb is_cleanup h = false).
Proof.
  unfold Wallclock.setup, Wallclock.initline.
  inv_tac no_cleanup_side
    ltac:(idtac;
          first [ apply (Wallclock_draw_keeps E)
                | apply Wallclock_copy_keeps
                | apply (Wallclock_loop_keeps E) ];
          first [ intros ? ? ?; apply loop_event_not_cleanup
                | intros ? ? H; exact H
                | intros ? ? ? ? ? H _;
                  apply Wallclock_no_cleanup_repaint; exact H ]).
Qed.

(** X4.  Shutdown of src/wallclock.c.  Ticks that come after the one
    during which a signal was caught are never processed: the run is the
    run that stops at that tick.  A run that returns after such a tick has
    [running] cleared and ends with the six requests of [cleanup], in
    order, none of which was issued before; a run that returns with
    [running] still set has issued none of them. *)
Theorem wallclock_shutdown (E : Xenv) (now : option tm) :
  (forall (ticks1 rest : list Wallclock.tick) (t : Wallclock.tick)
          (s : Wallclock.state),
      Wallclock.tick_signal t <> None ->
      Wallclock.main E now (ticks1 ++ t :: rest) s
      = Wallclock.main E now (ticks1 ++ [t]) s)
  /\ (forall (ticks1 : list Wallclock.tick) (t : Wallclock.tick)
             (s s' : Wallclock.state) (out : list event),
      Wallclock.tick_signal t <> None ->
      Wallclock.main E now (ticks1 ++ [t]) s = Done tt s' out ->
      Wallclock.running s' = false
      /\ exists pre,
           out = pre ++ cleanup_events /\ existsb is_cleanup pre = false)
  /\ (forall (ticks : list Wallclock.tick) (s s' : Wallclock.state)
             (out : list event),
      Wallclock.main E now ticks s = Done tt s' out ->
      Wallclock.running s' = true ->
      existsb is_cleanup out = false).
Proof.
  assert (Hmain : forall ticks s s' out,
             Wallclock.main E now ticks s = Done tt s' out ->
             exists s1 o1 o2,
               Wallclock.setup E now s = Done tt s1 o1
               /\ Wallclock.loop E ticks s1 = Done tt s' o2
               /\ existsb is_cleanup (o1 ++ o2) = false
               /\ out = (o1 ++ o2)
                        ++ if Wallclock.running s' then []
                           else cleanup_events).
  { intros ticks s s' out H. unfold Wallclock.main in H.
    apply bind_Done_inv in H.
    destruct H as ([] & s1 & o1 & o23 & Hsetup & Hk & ->).
    apply bind_Done_inv in Hk.
    destruct Hk as ([] & s2 & o2 & o3 & Hloop & Hk & ->).
    apply bind_Done_inv in Hk.
    destruct Hk as (s3 & s4 & o4 & o5 & Hg & Hk & ->).
    injection Hg as Hs3 Hs4 Ho4. subst s3 s4 o4.
    pose proof (triple_outcome _ _ _ s [] (Wallclock_start_no_cleanup E now
                                             ticks) eq_refl) as Hnc.
    rewrite (bind_Done _ _ _ _ _ _ Hsetup), Hloop in Hnc.
    cbn [outcome_out app] in Hnc.
    exists s1, o1, o2.
    destruct (Wallclock.running s2) eqn:Hr.
    - injection Hk as <- <-. rewrite Hr.
      repeat split; try assumption. now rewrite app_assoc.
    - assert (Hc : Wallclock.cleanup s2 = Done tt s2 cleanup_events)
        by reflexivity.
      rewrite Hc in Hk. injection Hk as <- <-. rewrite Hr.
      repeat split; try assumption. now rewrite app_assoc. }
  split; [|split].
  - intros ticks1 rest t s Hsig. unfold Wallclock.main, bind.
    destruct (Wallclock.setup E now s) as [[] s1 o1| |]; try reflexivity.
    now rewrite (Wallclock_loop_prefix E ticks1 t rest s1 Hsig).
  - intros ticks1 t s s' out Hsig H.
    destruct (Hmain _ _ _ _ H) as (s1 & o1 & o2 & _ & Hloop & Hnc & ->).
    pose proof (Wallclock_loop_ends_stopped E ticks1 t s1 s' o2 Hsig Hloop)
      as Hr.
    split; [exact Hr|]. rewrite Hr. now exists (o1 ++ o2).
  - intros ticks s s' out H Hr.
    destruct (Hmain _ _ _ _ H) as (s1 & o1 & o2 & _ & _ & Hnc & ->).
    rewrite Hr, app_nil_r. exact Hnc.
Qed.

(** ** Shutdown of the fixed-pitch variant *)

Lemma FixedPitch_loop_not_running (E : Xenv) (ticks : list FixedPitch.tick)
  (s : FixedPitch.state) :
  FixedPitch.running s = false -> FixedPitch.loop E ticks s = Done tt s [].
Proof.
  intros Hr. destruct ticks as [|t rest]; [reflexivity|].
  simpl. unfold bind, get. now rewrite Hr.
Qed.

Lemma FixedPitch_stopped_repaint (E : Xenv) (s : FixedPitch.state)
  (line : lineref) (text : string) :
  FixedPitch.running (FixedPitchPaint.repaint_state E s line text)
  = FixedPitch.running s.
Proof.
  now destruct (FixedPitch_repaint_frame E s line Text1 text)
    as (_ & _ & _ & _ & _ & _ & _ & _ & ->).
Qed.

Lemma FixedPitch_iteration_stops (E : Xenv) (t : FixedPitch.tick) (sig : Z)
  (s s' : FixedPitch.state) (d : unit) (out : list event) :
  FixedPitch.tick_signal t = Some sig ->
  FixedPitch.iteration E t s = Done d s' out ->
  FixedPitch.running s' = false.
Proof.
  intros Hsig H.
  assert (Hk : triple (fun (x : FixedPitch.state) (_ : list event) =>
                         FixedPitch.running x = false)
                      (FixedPitch.iteration E t)
                      (fun x _ => FixedPitch.running x = false)).
  { apply (FixedPitch_iteration_keeps E).
    - intros x h e _ Hx. exact Hx.
    - intros x h _. reflexivity.
    - intros x h line tmp text Hx _.
      now rewrite FixedPitch_stopped_repaint. }
  assert (H0 : FixedPitch.iteration E t s
               = FixedPitch.iteration E t (FixedPitch.set_running false s)).
  { unfold FixedPitch.iteration. rewrite Hsig. reflexivity. }
  pose proof (triple_outcome _ _ _ (FixedPitch.set_running false s) [] Hk
                eq_refl) as Hr.
  rewrite <- H0, H in Hr. exact Hr.
Qed.

Lemma FixedPitch_loop_stops (E : Xenv) (t : FixedPitch.tick)
  (rest : list FixedPitch.tick) (s : FixedPitch.state) :
  FixedPitch.tick_signal t <> None ->
  FixedPitch.loop E (t :: rest) s = FixedPitch.loop E [t] s.
Proof.
  intros Hsig. destruct (FixedPitch.tick_signal t) as [sig|] eqn:Hs;
    [clear Hsig|contradiction].
  simpl. unfold bind at 1 3. unfold get.
  destruct (FixedPitch.running s); [|reflexivity].
  unfold bind.
  destruct (FixedPitch.iteration E t s) as [d s1 out1| |] eqn:Hi;
    try reflexivity.
  rewrite (FixedPitch_loop_not_running E rest s1
             (FixedPitch_iteration_stops E t sig s s1 d out1 Hs Hi)).
  reflexivity.
Qed.

Lemma FixedPitch_loop_prefix (E : Xenv) (ticks1 : list FixedPitch.tick)
  (t : FixedPitch.tick) (rest : list FixedPitch.tick) (s : FixedPitch.state) :
  FixedPitch.tick_signal t <> None ->
  FixedPitch.loop E (ticks1 ++ t :: rest) s
  = FixedPitch.loop E (ticks1 ++ [t]) s.
Proof.
  intros Hsig. revert s.
  induction ticks1 as [|t1 ticks1 IH]; intros s.
  - now apply FixedPitch_loop_stops.
  - simpl. unfold bind at 1 3. unfold get.
    destruct (FixedPitch.running s); [|reflexivity].
    unfold bind.
    destruct (FixedPitch.iteration E t1 s) as [d s1 out1| |];
      try reflexivity.
    now rewrite IH.
Qed.

Lemma FixedPitch_loop_ends_stopped (E : Xenv) (ticks1 : list FixedPitch.tick)
  (t : FixedPitch.tick) (s s' : FixedPitch.state) (out : list event) :
  FixedPitch.tick_signal t <> None ->
  FixedPitch.loop E (ticks1 ++ [t]) s = Done tt s' out ->
  FixedPitch.running s' = false.
Proof.
  intros Hsig. destruct (FixedPitch.tick_signal t) as [sig|] eqn:Hs;
    [clear Hsig|contradiction].
  revert s out.
  induction ticks1 as [|t1 ticks1 IH]; intros s out H.
  - simpl in H. apply bind_Done_inv in H.
    destruct H as (s0 & s1 & o1 & o2 & Hg & Hk & _).
    injection Hg as Hs0 Hs1 _. subst s0 s1.
    destruct (FixedPitch.running s) eqn:Hr.
    + apply bind_Done_inv in Hk.
      destruct Hk as (d & s2 & o3 & o4 & Hi & Hret & _).
      injection Hret as <- _.
      exact (FixedPitch_iteration_stops E t sig _ _ _ _ Hs Hi).
    + injection Hk as <- _. exact Hr.
  - simpl in H. apply bind_Done_inv in H.
    destruct H as (s0 & s1 & o1 & o2 & Hg & Hk & _).
    injection Hg as Hs0 Hs1 _. subst s0 s1.
    destruct (FixedPitch.running s) eqn:Hr.
    + apply bind_Done_inv in Hk.
      destruct Hk as (d & s2 & o3 & o4 & _ & Hl & _).
      exact (IH _ _ Hl).
    + injection Hk as <- _. exact Hr.
Qed.


Lemma FixedPitch_no_cleanup_repaint (E : Xenv) (s : FixedPitch.state)
  (h : list event) (line : lineref) (text : string) :
  existsb is_cleanup h = false ->
  existsb is_cleanup (h ++ FixedPitchPaint.repaint_events E s line text)
  = false.
Proof.
  intros H. rewrite existsb_app, H.
  unfold FixedPitchPaint.repaint_events, FixedPitchPaint.draw_string,
    FixedPitchPaint.clear_rect.
  destruct (FixedPitchPaint.fixed_pitch _ text),
    (FixedPitchPaint.excessive E s line text); reflexivity.
Qed.

Lemma FixedPitch_start_no_cleanup (E : Xenv) (now : option tm)
  (ticks : list FixedPitch.tick) :
  triple (fun (_ : FixedPitch.state) h => existsb is_cleanup h = false)
         (bind (FixedPitch.setup E)
               (fun _ => bind (FixedPitch.draw E now true)
                              (fun _ => FixedPitch.loop E ticks)))
         (fun _ h => existsb is_cleanup h = false).
Proof.
  unfold FixedPitch.setup, FixedPitch.initline, FixedPitch.textnw.
  inv_tac no_cleanup_side
    ltac:(idtac;
          first [ apply (FixedPitch_draw_keeps E)
                | apply (FixedPitch_loop_keeps E) ];
          first [ intros ? ? ?; apply loop_event_not_cleanup
                | intros ? ? H; exact H
                | intros ? ? ? ? ? H _;
                  apply FixedPitch_no_cleanup_repaint; exact H ]).
Qed.

(** X5.  Shutdown of the fixed-pitch variant.  Ticks that come after the
    one during which a signal was caught are never processed.  A run that
    returns after such a tick has [running] cleared and ends with the six
    requests of [cleanup], in order, none of which was issued before; a
    run that returns with [running] still set has issued none of them. *)
Theorem fixed_pitch_shutdown (E : Xenv) (now : option tm) :
  (forall (ticks1 rest : list FixedPitch.tick) (t : FixedPitch.tick)
          (s : FixedPitch.state),
      FixedPitch.tick_signal t <> None ->
      FixedPitch.main E now (ticks1 ++ t :: rest) s
      = FixedPitch.main E now (ticks1 ++ [t]) s)
  /\ (forall (ticks1 : list FixedPitch.tick) (t : FixedPitch.tick)
             (s s' : FixedPitch.state) (out : list event),
      FixedPitch.tick_signal t <> None ->
      FixedPitch.main E now (ticks1 ++ [t]) s = Done tt s' out ->
      FixedPitch.running s' = false
      /\ exists pre,
           out = pre ++ cleanup_events /\ existsb is_cleanup pre = false)
  /\ (forall (ticks : list FixedPitch.tick) (s s' : FixedPitch.state)
             (out : list event),
      FixedPitch.main E now ticks s = Done tt s' out ->
      FixedPitch.running s' = true ->
      existsb is_cleanup out = false).
Proof.
  assert (Hmain : forall ticks s s' out,
             FixedPitch.main E now ticks s = Done tt s' out ->
             exists s1 o1 o2,
               bind (FixedPitch.setup E)
                    (fun _ => FixedPitch.draw E now true) s = Done tt s1 o1
               /\ FixedPitch.loop E ticks s1 = Done tt s' o2
               /\ existsb is_cleanup (o1 ++ o2) = false
               /\ out = (o1 ++ o2)
                        ++ if FixedPitch.running s' then []
                           else cleanup_events).
  { intros ticks s s' out H. unfold FixedPitch.main in H.
    apply bind_Done_inv in H.
    destruct H as ([] & s0 & o0 & o123 & Hsetup & Hk & ->).
    apply bind_Done_inv in Hk.
    destruct Hk as ([] & s1 & o1 & o23 & Hdraw & Hk & ->).
    apply bind_Done_inv in Hk.
    destruct Hk as ([] & s2 & o2 & o3 & Hloop & Hk & ->).
    apply bind_Done_inv in Hk.
    destruct Hk as (s3 & s4 & o4 & o5 & Hg & Hk & ->).
    injection Hg as Hs3 Hs4 Ho4. subst s3 s4 o4.
    pose proof (triple_outcome _ _ _ s [] (FixedPitch_start_no_cleanup E now
                                             ticks) eq_refl) as Hnc.
    rewrite (bind_Done _ _ _ _ _ _ Hsetup) in Hnc.
    rewrite (bind_Done _ _ _ _ _ _ Hdraw), Hloop in Hnc.
    cbn [outcome_out app] in Hnc.
    exists s1, (o0 ++ o1), o2.
    split; [now rewrite (bind_Done _ _ _ _ _ _ Hsetup), Hdraw|].
    rewrite <- app_assoc.
    destruct (FixedPitch.running s2) eqn:Hr.
    - injection Hk as <- <-. rewrite Hr.
      repeat split; try assumption. cbn [app]. now rewrite !app_nil_r.
    - assert (Hc : FixedPitch.cleanup s2 = Done tt s2 cleanup_events)
        by reflexivity.
      rewrite Hc in Hk. injection Hk as <- <-. rewrite Hr.
      repeat split; try assumption. cbn [app]. now rewrite <- !app_assoc. }
  split; [|split].
  - intros ticks1 rest t s Hsig. unfold FixedPitch.main, bind.
    destruct (FixedPitch.setup E s) as [[] s0 o0| |]; try reflexivity.
    destruct (FixedPitch.draw E now true s0) as [[] s1 o1| |];
      try reflexivity.
    now rewrite (FixedPitch_loop_prefix E ticks1 t rest s1 Hsig).
  - intros ticks1 t s s' out Hsig H.
    destruct (Hmain _ _ _ _ H) as (s1 & o1 & o2 & _ & Hloop & Hnc & ->).
    pose proof (FixedPitch_loop_ends_stopped E ticks1 t s1 s' o2 Hsig Hloop)
      as Hr.
    split; [exact Hr|]. rewrite Hr. now exists (o1 ++ o2).
  - intros ticks s s' out H Hr.
    destruct (Hmain _ _ _ _ H) as (s1 & o1 & o2 & _ & _ & Hnc & ->).
    rewrite Hr, app_nil_r. exact Hnc.
Qed.

Lemma wallclock_shutdown_witness :
  Wallclock.main Sample.env0 (Some Sample.noon)
    ([Runs.w_timeout] ++ Runs.w_sigterm :: [Runs.w_later]) Runs.w_start
  = Wallclock.main Sample.env0 (Some Sample.noon)
      ([Runs.w_timeout] ++ [Runs.w_sigterm]) Runs.w_start
  /\ (let o := Wallclock.main Sample.env0 (Some Sample.noon)
                 ([Runs.w_timeout] ++ [Runs.w_sigterm]) Runs.w_start in
      Wallclock.running (outcome_state o) = false
      /\ exists pre,
           outcome_out o = pre ++ cleanup_events
           /\ existsb is_cleanup pre = false)
  /\ existsb is_cleanup
       (outcome_out (Wallclock.main Sample.env0 (Some Sample.noon)
                       [Runs.w_timeout] Runs.w_start)) = false.
Proof.
  pose proof (wallclock_shutdown Sample.env0 (Some Sample.noon))
    as (H1 & H2 & H3).
  split; [|split].
  - apply H1. discriminate.
  - cbv zeta.
    apply (H2 [Runs.w_timeout] Runs.w_sigterm Runs.w_start);
      [discriminate|vm_compute; reflexivity].
  - apply (H3 [Runs.w_timeout] Runs.w_start
              (outcome_state (Wallclock.main Sample.env0 (Some Sample.noon)
                                [Runs.w_timeout] Runs.w_start)));
      vm_compute; reflexivity.
Defined.

Lemma fixed_pitch_shutdown_witness :
  FixedPitch.main Sample.env0 (Some Sample.noon)
    ([Runs.p_timeout] ++ Runs.p_sigterm :: [Runs.p_later]) Runs.p_start
  = FixedPitch.main Sample.env0 (Some Sample.noon)
      ([Runs.p_timeout] ++ [Runs.p_sigterm]) Runs.p_start
  /\ (let o := FixedPitch.main Sample.env0 (Some Sample.noon)
                 ([Runs.p_timeout] ++ [Runs.p_sigterm]) Runs.p_start in
      FixedPitch.running (outcome_state o) = false
      /\ exists pre,
           outcome_out o = pre ++ cleanup_events
           /\ existsb is_cleanup pre = false)
  /\ existsb is_cleanup
       (outcome_out (FixedPitch.main Sample.env0 (Some Sample.noon)
                       [Runs.p_timeout] Runs.p_start)) = false.
Proof.
  pose proof (fixed_pitch_shutdown Sample.env0 (Some Sample.noon))
    as (H1 & H2 & H3).
  split; [|split].
  - apply H1. discriminate.
  - cbv zeta.
    apply (H2 [Runs.p_timeout] Runs.p_sigterm Runs.p_start);
      [discriminate|vm_compute; reflexivity].
  - apply (H3 [Runs.p_timeout] Runs.p_start
              (outcome_state (FixedPitch.main Sample.env0 (Some Sample.noon)
                                [Runs.p_timeout] Runs.p_start)));
      vm_compute; reflexivity.
Defined.

(** ** Fatal exits *)

Section FatalRules.

Context {S : Type}.

Lemma fatal_ret {A} (a : A) : fails_with_diagnostic (@ret S A a).
Proof. intros s. exact I. Qed.

Lemma fatal_get : fails_with_diagnostic (@get S).
Proof. intros s. exact I. Qed.

Lemma fatal_modify (f : S -> S) : fails_with_diagnostic (modify f).
Proof. intros s. exact I. Qed.

Lemma fatal_emit (e : event) : fails_with_diagnostic (@emit S e).
Proof. intros s. exact I. Qed.

Lemma fatal_undefined {A} : fails_with_diagnostic (@undefined S A).
Proof. intros s. exact I. Qed.

Lemma fatal_errx {A} (m : message) : fails_with_diagnostic (@errx S A 1 m).
Proof. intros s. split; [reflexivity|]. now exists [], m. Qed.

Lemma fatal_bind {A B} (m : M S A) (k : A -> M S B) :
  fails_with_diagnostic m -> (forall a, fails_with_diagnostic (k a)) ->
  fails_with_diagnostic (bind m k).
Proof.
  intros Hm Hk s. specialize (Hm s). unfold bind.
  destruct (m s) as [a s1 out1| |]; try exact Hm.
  specialize (Hk a s1). destruct (k a s1) as [| c s2 out2 |]; try exact I.
  destruct Hk as (-> & pre & msg & ->). split; [reflexivity|].
  exists (out1 ++ pre), msg. now rewrite app_assoc.
Qed.

Lemma fatal_when (b : bool) (m : M S unit) :
  fails_with_diagnostic m -> fails_with_diagnostic (when b m).
Proof. intros H. destruct b; [exact H|apply fatal_ret]. Qed.

End FatalRules.

Ltac fatal_tac known :=
  lazymatch goal with
  | |- fails_with_diagnostic (bind _ _) =>
      apply fatal_bind; [fatal_tac known|intro; fatal_tac known]
  | |- fails_with_diagnostic (ret _) => apply fatal_ret
  | |- fails_with_diagnostic get => apply fatal_get
  | |- fails_with_diagnostic undefined => apply fatal_undefined
  | |- fails_with_diagnostic (modify _) => apply fatal_modify
  | |- fails_with_diagnostic (emit _) => apply fatal_emit
  | |- fails_with_diagnostic (errx _ _) => apply fatal_errx
  | |- fails_with_diagnostic (err _ _) => apply fatal_errx
  | |- fails_with_diagnostic (warn _) => apply fatal_emit
  | |- fails_with_diagnostic (warnx _) => apply fatal_emit
  | |- fails_with_diagnostic (printf _) => apply fatal_emit
  | |- fails_with_diagnostic (when _ _) => apply fatal_when; fatal_tac known
  | |- fails_with_diagnostic (if ?b then _ else _) =>
      destruct b; fatal_tac known
  | |- fails_with_diagnostic (match ?x with Some _ => _ | None => _ end) =>
      destruct x; fatal_tac known
  | |- _ => known
  end.

Lemma Wallclock_drawtext_fatal (E : Xenv) (line : lineref) (tmp : tm)
  (force : bool) :
  fails_with_diagnostic (Wallclock.drawtext E line tmp force).
Proof.
  intros s. rewrite Wallclock_drawtext_spec.
  destruct (formatted E _ tmp); [destruct (negb force && _); exact I|].
  split; [reflexivity|]. now eexists [], _.
Qed.

Lemma Wallclock_loop_fatal (E : Xenv) (ticks : list Wallclock.tick) :
  fails_with_diagnostic (Wallclock.loop E ticks).
Proof.
  induction ticks as [|t rest IH]; simpl; [apply fatal_ret|].
  unfold Wallclock.iteration, Wallclock.draw, Wallclock.copy_to_root,
    Wallclock.catch.
  fatal_tac ltac:(idtac; first [apply Wallclock_drawtext_fatal|exact IH]).
Qed.

Lemma Wallclock_main_fatal (E : Xenv) (now : option tm)
  (ticks : list Wallclock.tick) :
  fails_with_diagnostic (Wallclock.main E now ticks).
Proof.
  unfold Wallclock.main, Wallclock.setup, Wallclock.initline,
    Wallclock.draw, Wallclock.copy_to_root, Wallclock.cleanup.
  fatal_tac ltac:(idtac; first [apply Wallclock_drawtext_fatal
                               |apply Wallclock_loop_fatal]).
Qed.

Lemma FixedPitch_drawtext_fatal (E : Xenv) (line : lineref) (tmp : tm) :
  fails_with_diagnostic (FixedPitch.drawtext E line tmp).
Proof.
  intros s. rewrite FixedPitch_drawtext_spec.
  destruct (formatted E _ tmp); [destruct (String.eqb _ _); exact I|].
  split; [reflexivity|]. now eexists [], _.
Qed.

Lemma FixedPitch_loop_fatal (E : Xenv) (ticks : list FixedPitch.tick) :
  fails_with_diagnostic (FixedPitch.loop E ticks).
Proof.
  induction ticks as [|t rest IH]; simpl; [apply fatal_ret|].
  unfold FixedPitch.iteration, FixedPitch.draw, FixedPitch.catch.
  fatal_tac ltac:(idtac; first [apply FixedPitch_drawtext_fatal|exact IH]).
Qed.

Lemma FixedPitch_main_fatal (E : Xenv) (now : option tm)
  (ticks : list FixedPitch.tick) :
  fails_with_diagnostic (FixedPitch.main E now ticks).
Proof.
  unfold FixedPitch.main, FixedPitch.setup, FixedPitch.initline,
    FixedPitch.textnw, FixedPitch.draw, FixedPitch.cleanup.
  fatal_tac ltac:(idtac; first [apply FixedPitch_drawtext_fatal
                               |apply FixedPitch_loop_fatal]).
Qed.

Lemma Wallclock_main_exit_start (E : Xenv) (now : option tm)
  (ticks : list Wallclock.tick) (s s' : Wallclock.state) (c : Z)
  (out : list event) :
  Wallclock.main E now ticks s = Exit c s' out ->
  bind (Wallclock.setup E now) (fun _ => Wallclock.loop E ticks) s
  = Exit c s' out.
Proof.
  unfold Wallclock.main, bind.
  destruct (Wallclock.setup E now s) as [[] s1 o1| |]; [|tauto|discriminate].
  destruct (Wallclock.loop E ticks s1) as [[] s2 o2| |];
    [|tauto|discriminate].
  unfold get. destruct (Wallclock.running s2); discriminate.
Qed.

Lemma FixedPitch_main_exit_start (E : Xenv) (now : option tm)
  (ticks : list FixedPitch.tick) (s s' : FixedPitch.state) (c : Z)
  (out : list event) :
  FixedPitch.main E now ticks s = Exit c s' out ->
  bind (FixedPitch.setup E)
       (fun _ => bind (FixedPitch.draw E now true)
                      (fun _ => FixedPitch.loop E ticks)) s
  = Exit c s' out.
Proof.
  unfold FixedPitch.main. unfold bind at 1 5.
  destruct (FixedPitch.setup E s) as [[] s0 o0| |]; [|tauto|discriminate].
  unfold bind at 1 4.
  destruct (FixedPitch.draw E now true s0) as [[] s1 o1| |];
    [|tauto|discriminate].
  unfold bind.
  destruct (FixedPitch.loop E ticks s1) as [[] s2 o2| |];
    [|tauto|discriminate].
  unfold get. destruct (FixedPitch.running s2); discriminate.
Qed.

(** X6.  In both variants, whenever a run of [main] terminates the
    process on a fatal path (the display, a font or a colour cannot be
    had, the monitor index is too large, [localtime] or [strftime]
    fails), the exit status is 1, the last thing the process did was to
    write a diagnostic to standard error, and none of the resources
    [cleanup] frees was released. *)
Theorem fatal_exit_reports_and_skips_cleanup (E : Xenv) (now : option tm) :
  (forall (ticks : list Wallclock.tick) (s s' : Wallclock.state)
          (status : Z) (out : list event),
      Wallclock.main E now ticks s = Exit status s' out ->
      status = 1
      /\ (exists pre m, out = pre ++ [EvStderr m])
      /\ existsb is_cleanup out = false)
  /\ (forall (ticks : list FixedPitch.tick) (s s' : FixedPitch.state)
             (status : Z) (out : list event),
      FixedPitch.main E now ticks s = Exit status s' out ->
      status = 1
      /\ (exists pre m, out = pre ++ [EvStderr m])
      /\ existsb is_cleanup out = false).
Proof.
  split.
  - intros ticks s s' status out H.
    pose proof (Wallclock_main_fatal E now ticks s) as Hf.
    rewrite H in Hf. destruct Hf as [Hs Hd].
    split; [exact Hs|]. split; [exact Hd|].
    pose proof (triple_outcome _ _ _ s [] (Wallclock_start_no_cleanup E now
                                             ticks) eq_refl) as Hnc.
    now rewrite (Wallclock_main_exit_start _ _ _ _ _ _ _ H) in Hnc.
  - intros ticks s s' status out H.
    pose proof (FixedPitch_main_fatal E now ticks s) as Hf.
    rewrite H in Hf. destruct Hf as [Hs Hd].
    split; [exact Hs|]. split; [exact Hd|].
    pose proof (triple_outcome _ _ _ s [] (FixedPitch_start_no_cleanup E now
                                             ticks) eq_refl) as Hnc.
    now rewrite (FixedPitch_main_exit_start _ _ _ _ _ _ _ H) in Hnc.
Qed.

Lemma fatal_exit_reports_and_skips_cleanup_witness :
  (let o := Wallclock.main Sample.env0 (Some Sample.noon) [Runs.w_timeout]
              (Wallclock.initial_state
                 (Examples.wargs Examples.long_fmt "%Y-%m-%d" 1 (-1))) in
   o = Exit 1 (outcome_state o) (outcome_out o)
   /\ (exists pre m, outcome_out o = pre ++ [EvStderr m])
   /\ existsb is_cleanup (outcome_out o) = false)
  /\ (let o := FixedPitch.main Sample.env0 (Some Sample.noon) [Runs.p_timeout]
                 (FixedPitch.initial_state
                    (Examples.pargs "%H:%M" Examples.long_fmt "mono" 1)) in
      o = Exit 1 (outcome_state o) (outcome_out o)
      /\ (exists pre m, outcome_out o = pre ++ [EvStderr m])
      /\ existsb is_cleanup (outcome_out o) = false).
Proof.
  split; cbv zeta.
  - assert (H : Wallclock.main Sample.env0 (Some Sample.noon)
                  [Runs.w_timeout]
                  (Wallclock.initial_state
                     (Examples.wargs Examples.long_fmt "%Y-%m-%d" 1 (-1)))
                = Exit 1
                    (outcome_state
                       (Wallclock.main Sample.env0 (Some Sample.noon)
                          [Runs.w_timeout]
                          (Wallclock.initial_state
                             (Examples.wargs Examples.long_fmt "%Y-%m-%d"
                                             1 (-1)))))
                    (outcome_out
                       (Wallclock.main Sample.env0 (Some Sample.noon)
                          [Runs.w_timeout]
                          (Wallclock.initial_state
                             (Examples.wargs Examples.long_fmt "%Y-%m-%d"
                                             1 (-1))))))
      by (vm_compute; reflexivity).
    split; [exact H|].
    exact (proj2 (proj1 (fatal_exit_reports_and_skips_cleanup Sample.env0
                           (Some Sample.noon)) _ _ _ _ _ H)).
  - assert (H : FixedPitch.main Sample.env0 (Some Sample.noon)
                  [Runs.p_timeout]
                  (FixedPitch.initial_state
                     (Examples.pargs "%H:%M" Examples.long_fmt "mono" 1))
                = Exit 1
                    (outcome_state
                       (FixedPitch.main Sample.env0 (Some Sample.noon)
                          [Runs.p_timeout]
                          (FixedPitch.initial_state
                             (Examples.pargs "%H:%M" Examples.long_fmt
                                             "mono" 1))))
                    (outcome_out
                       (FixedPitch.main Sample.env0 (Some Sample.noon)
                          [Runs.p_timeout]
                          (FixedPitch.initial_state
                             (Examples.pargs "%H:%M" Examples.long_fmt
                                             "mono" 1)))))
      by (vm_compute; reflexivity).
    split; [exact H|].
    exact (proj2 (proj2 (fatal_exit_reports_and_skips_cleanup Sample.env0
                           (Some Sample.noon)) _ _ _ _ _ H)).
Defined.

(** ** The default monitor of src/wallclock.c *)

Lemma first_origin_spec (info : list XineramaScreenInfo) (i : Z) :
  let r := Wallclock.first_origin info i in
  i <= r <= i + Z.of_nat (List.length info)
  /\ (forall k m, (k < Z.to_nat (r - i))%nat ->
                  nth_error info k = Some m -> x_org m <> 0)
  /\ (r < i + Z.of_nat (List.length info) ->
      exists m, nth_error info (Z.to_nat (r - i)) = Some m /\ x_org m = 0).
Proof.
  revert i. induction info as [|m0 info IH]; intros i; cbn zeta.
  - simpl. split; [lia|]. split; [|lia].
    intros k m Hk. replace (i - i) with 0 in Hk by lia. simpl in Hk. lia.
  - cbn [Wallclock.first_origin List.length].
    destruct (Z.eqb_spec (x_org m0) 0) as [Hz|Hnz].
    + split; [lia|]. split.
      * intros k m Hk. replace (i - i) with 0 in Hk by lia.
        simpl in Hk. lia.
      * intros _. exists m0. replace (i - i) with 0 by lia.
        split; [reflexivity|exact Hz].
    + specialize (IH (i + 1)). cbn zeta in IH.
      destruct IH as (Hr & Hbefore & Hat).
      set (r := Wallclock.first_origin info (i + 1)) in *.
      assert (Hsucc : Z.to_nat (r - i) = Datatypes.S (Z.to_nat (r - (i + 1))))
        by lia.
      split; [lia|]. split.
      * intros k m Hk Hnth. destruct k as [|k].
        -- simpl in Hnth. injection Hnth as <-. exact Hnz.
        -- simpl in Hnth. apply (Hbefore k m); [lia|exact Hnth].
      * intros Hlt. destruct Hat as (m & Hnth & Hm); [lia|].
        exists m. rewrite Hsucc. split; [exact Hnth|exact Hm].
Qed.

Lemma bind_Undefined {S A B} (m : M S A) (k : A -> M S B) (s s1 : S)
  (out1 : list event) :
  m s = Undefined s1 out1 -> bind m k s = Undefined s1 out1.
Proof. intros H. unfold bind. now rewrite H. Qed.

Lemma Wallclock_setup_default (E : Xenv) (now : option tm)
  (s : Wallclock.state) (info : list XineramaScreenInfo)
  (m : XineramaScreenInfo) :
  XOpenDisplay E = true -> Xinerama E = Some info ->
  Wallclock.args_screen (Wallclock.args s) = -1 ->
  Wallclock.info_at info (Wallclock.first_origin info 0) = Some m ->
  hoare (fun s' h => s' = s /\ h = []) (Wallclock.setup E now)
    (fun _ => Wallclock_surface (x_org m, y_org m, width m, height m)
                (EvXCreatePixmap (width m) (height m)))
    (Wallclock_surface (x_org m, y_org m, width m, height m)
       (EvXCreatePixmap (width m) (height m))).
Proof.
  intros Hopen Hxin Hscr Hat. unfold Wallclock.setup.
  rewrite Hopen, Hxin. cbn [negb].
  apply (hoare_bind _ (fun _ s' h => Wallclock.args s' = Wallclock.args s)).
  { apply hoare_modify. intros s' h [-> _]. reflexivity. }
  intros _.
  apply (hoare_bind _ (fun _ s' h =>
           Wallclock_geometry s' = (x_org m, y_org m, width m, height m))).
  { intros s1 pre Hargs.
    unfold bind at 1. unfold get at 1. cbv beta iota.
    rewrite Hargs, Hscr. cbn [Z.eqb negb Pos.eqb].
    unfold bind at 1. unfold ret at 1. cbv beta iota.
    rewrite Hat. reflexivity. }
  intros _. setup_rest.
Qed.

Lemma Wallclock_setup_out_of_bounds (E : Xenv) (now : option tm)
  (s : Wallclock.state) (info : list XineramaScreenInfo) :
  XOpenDisplay E = true -> Xinerama E = Some info ->
  let screen := Wallclock.args_screen (Wallclock.args s) in
  let i := if screen =? -1 then Wallclock.first_origin info 0 else screen in
  screen < Z.of_nat (List.length info) ->
  Wallclock.info_at info i = None ->
  Wallclock.setup E now s
  = Undefined (Wallclock.set_dc
                 (Wallclock.with_geometry 0 0 (DisplayWidth E)
                    (DisplayHeight E)) s) [].
Proof.
  intros Hopen Hxin screen i Hlt Hat. unfold Wallclock.setup.
  rewrite Hopen, Hxin. cbn [negb].
  erewrite bind_Done; [|reflexivity].
  erewrite bind_Undefined; [reflexivity|].
  erewrite bind_Done; [|reflexivity].
  cbn [Wallclock.args Wallclock.set_dc]. fold screen.
  assert (Hc2 : (Z.of_nat (List.length info) <=? screen) = false)
    by (apply Z.leb_gt; lia).
  subst i. destruct (screen =? -1) eqn:Hc1; cbn [negb].
  - erewrite bind_Done; [|reflexivity]. now rewrite Hat.
  - rewrite Hc2. erewrite bind_Done; [|reflexivity]. now rewrite Hat.
Qed.

(** X7.  In src/wallclock.c with Xinerama active and no [-s] given, when
    some monitor has its x origin at 0, [setup] takes the first such
    monitor in the order Xinerama reports them: its origin and extent
    become the surface geometry (so [dc.x] is 0), and the pixmap is
    created with its extent. *)
Theorem default_monitor_is_first_at_origin (E : Xenv) (now : option tm)
  (s : Wallclock.state) (info : list XineramaScreenInfo) :
  XOpenDisplay E = true -> Xinerama E = Some info ->
  Wallclock.args_screen (Wallclock.args s) = -1 ->
  (exists m, In m info /\ x_org m = 0) ->
  let o := Wallclock.setup E now s in
  exists (k : nat) (m : XineramaScreenInfo),
    nth_error info k = Some m /\ x_org m = 0
    /\ (forall j m', (j < k)%nat -> nth_error info j = Some m' ->
                     x_org m' <> 0)
    /\ Wallclock_geometry (outcome_state o)
       = (0, y_org m, width m, height m)
    /\ In (EvXCreatePixmap (width m) (height m)) (outcome_out o).
Proof.
  intros Hopen Hxin Hscr (m0 & Hin & Hm0) o.
  destruct (first_origin_spec info 0) as (Hr & Hbefore & Hat).
  set (r := Wallclock.first_origin info 0) in *.
  assert (Hlt : r < 0 + Z.of_nat (List.length info)).
  { destruct (Z_lt_le_dec r (0 + Z.of_nat (List.length info)))
      as [|Hge]; [assumption|exfalso].
    apply In_nth_error in Hin. destruct Hin as [k Hk].
    apply (Hbefore k m0); [|exact Hk|exact Hm0].
    assert (k < List.length info)%nat by (apply nth_error_Some; congruence).
    lia. }
  destruct (Hat Hlt) as (m & Hnth & Hm).
  replace (r - 0) with r in * by lia.
  exists (Z.to_nat r), m.
  split; [exact Hnth|]. split; [exact Hm|]. split; [exact Hbefore|].
  assert (Hinfo : Wallclock.info_at info r = Some m).
  { unfold Wallclock.info_at.
    assert (Hc : (r <? 0) = false) by (apply Z.ltb_ge; lia).
    now rewrite Hc. }
  pose proof (triple_outcome _ _ _ s []
                (Wallclock_setup_default E now s info m Hopen Hxin Hscr Hinfo)
                (conj eq_refl eq_refl)) as [Hg Hp].
  rewrite Hm in Hg. split; [exact Hg|exact Hp].
Qed.

Lemma default_monitor_is_first_at_origin_witness :
  let info := [mk_XineramaScreenInfo 0 1920 0 1280 1024;
               mk_XineramaScreenInfo 1 0 56 1920 1080;
               mk_XineramaScreenInfo 2 0 1136 800 600] in
  let E := Sample.world (Some info) 70 3200 1736 in
  let o := Wallclock.setup E (Some Sample.noon) Runs.w_start in
  exists (k : nat) (m : XineramaScreenInfo),
    nth_error info k = Some m /\ x_org m = 0
    /\ (forall j m', (j < k)%nat -> nth_error info j = Some m' ->
                     x_org m' <> 0)
    /\ Wallclock_geometry (outcome_state o)
       = (0, y_org m, width m, height m)
    /\ In (EvXCreatePixmap (width m) (height m)) (outcome_out o).
Proof.
  cbv zeta.
  apply default_monitor_is_first_at_origin;
    [reflexivity|reflexivity|reflexivity|].
  exists (mk_XineramaScreenInfo 1 0 56 1920 1080).
  split; [right; left; reflexivity|reflexivity].
Defined.

(** X8.  In src/wallclock.c with Xinerama active, [setup] reads the
    monitor array outside its bounds, before the pixmap is created and
    without any diagnostic, in two cases: no [-s] was given and no monitor
    has its x origin at 0 (the scan stops at [n] and [info[n]] is read),
    or a screen below -1 was given (the check [args.screen >= n] lets it
    through and [info[args.screen]] is read). *)
Theorem monitor_array_read_out_of_bounds (E : Xenv) (now : option tm)
  (s : Wallclock.state) (info : list XineramaScreenInfo) :
  XOpenDisplay E = true -> Xinerama E = Some info ->
  (Wallclock.args_screen (Wallclock.args s) = -1
   /\ forall m, In m info -> x_org m <> 0)
  \/ Wallclock.args_screen (Wallclock.args s) < -1 ->
  Wallclock.setup E now s
  = Undefined (Wallclock.set_dc
                 (Wallclock.with_geometry 0 0 (DisplayWidth E)
                    (DisplayHeight E)) s) [].
Proof.
  intros Hopen Hxin Hcase.
  apply (Wallclock_setup_out_of_bounds E now s info Hopen Hxin).
  - destruct Hcase as [[-> _]|Hneg]; lia.
  - destruct Hcase as [[Hscr Hnone]|Hneg].
    + rewrite Hscr. cbn [Z.eqb Pos.eqb].
      destruct (first_origin_spec info 0) as (Hr & _ & Hat).
      set (r := Wallclock.first_origin info 0) in *.
      assert (Hend : r = Z.of_nat (List.length info)).
      { destruct (Z_lt_le_dec r (0 + Z.of_nat (List.length info)))
          as [Hlt|Hge]; [exfalso|lia].
        destruct (Hat Hlt) as (m & Hnth & Hm).
        apply (Hnone m); [|exact Hm].
        eapply nth_error_In; exact Hnth. }
      unfold Wallclock.info_at.
      assert (Hc : (r <? 0) = false) by (apply Z.ltb_ge; lia).
      rewrite Hc. apply nth_error_None. lia.
    + assert (Hc : (Wallclock.args_screen (Wallclock.args s) =? -1) = false)
        by (apply Z.eqb_neq; lia).
      rewrite Hc. unfold Wallclock.info_at.
      assert (Hc' : (Wallclock.args_screen (Wallclock.args s) <? 0) = true)
        by (apply Z.ltb_lt; lia).
      now rewrite Hc'.
Qed.

Lemma monitor_array_read_out_of_bounds_witness :
  (let E := Sample.world (Some [mk_XineramaScreenInfo 0 1920 0 1280 1024])
              70 3200 1080 in
   Wallclock.setup E (Some Sample.noon) Runs.w_start
   = Undefined (Wallclock.set_dc (Wallclock.with_geometry 0 0 3200 1080)
                  Runs.w_start) [])
  /\ Wallclock.setup Monitors.env2 (Some Sample.noon)
       (Monitors.requested (-2))
     = Undefined (Wallclock.set_dc (Wallclock.with_geometry 0 0 3200 1080)
                    (Monitors.requested (-2))) [].
Proof.
  split; cbv zeta.
  - apply (monitor_array_read_out_of_bounds
             (Sample.world (Some [mk_XineramaScreenInfo 0 1920 0 1280 1024])
                70 3200 1080)
             (Some Sample.noon) Runs.w_start
             [mk_XineramaScreenInfo 0 1920 0 1280 1024] eq_refl eq_refl).
    left. split; [reflexivity|].
    intros m [<-|[]]. discriminate.
  - apply (monitor_array_read_out_of_bounds Monitors.env2 (Some Sample.noon)
             (Monitors.requested (-2)) Sample.two_monitors eq_refl eq_refl).
    right. vm_compute. reflexivity.
Defined.

(** ** Failed polls *)

Section SameButWarnings.

Context {S : Type}.

Lemma same_refl {A} (o : outcome S A) : same_but_poll_warnings o o.
Proof. destruct o; simpl; auto. Qed.

Lemma same_trans {A} (o1 o2 o3 : outcome S A) :
  same_but_poll_warnings o1 o2 -> same_but_poll_warnings o2 o3 ->
  same_but_poll_warnings o1 o3.
Proof.
  destruct o1, o2, o3; simpl; try tauto;
    intuition (subst; try congruence).
Qed.

Lemma drop_poll_warnings_app (a b : list event) :
  drop_poll_warnings (a ++ b) = drop_poll_warnings a ++ drop_poll_warnings b.
Proof. apply filter_app. Qed.

Lemma same_bind {A B} (m : M S A) (k k' : A -> M S B) (s : S) :
  (forall a s1, same_but_poll_warnings (k a s1) (k' a s1)) ->
  same_but_poll_warnings (bind m k s) (bind m k' s).
Proof.
  intros Hk. unfold bind. destruct (m s) as [a s1 out1| |];
    [|apply same_refl|apply same_refl].
  specialize (Hk a s1).
  destruct (k a s1), (k' a s1); simpl in *; try tauto;
    rewrite !drop_poll_warnings_app; intuition congruence.
Qed.

Lemma same_after_warning {A B} (m : M S A) (k : A -> M S B) (s : S) (a : A) :
  m s = Done a s [EvStderr MsgPoll] ->
  same_but_poll_warnings (bind m k s) (k a s).
Proof.
  intros Hm. unfold bind. rewrite Hm.
  destruct (k a s); simpl; auto.
Qed.

End SameButWarnings.

Lemma bind_get {S A} (k : S -> M S A) (s : S) : bind get k s = k s s.
Proof. unfold bind, get. destruct (k s s); reflexivity. Qed.

Lemma Wallclock_failed_poll_iteration (E : Xenv) (t : Wallclock.tick)
  (s : Wallclock.state) :
  Wallclock_poll_failed t = true ->
  Wallclock.iteration E t s = Done false s [EvStderr MsgPoll].
Proof.
  unfold Wallclock_poll_failed. intros H. apply andb_prop in H.
  destruct H as [Hp Hs]. rewrite Wallclock_iteration_spec. cbv zeta.
  rewrite Hp. destruct (Wallclock.tick_signal t); [discriminate|reflexivity].
Qed.

Lemma Wallclock_loop_without_failed_polls (E : Xenv)
  (ticks : list Wallclock.tick) (s : Wallclock.state) :
  same_but_poll_warnings
    (Wallclock.loop E ticks s)
    (Wallclock.loop E
       (filter (fun t => negb (Wallclock_poll_failed t)) ticks) s).
Proof.
  revert s. induction ticks as [|t rest IH]; intros s; [apply same_refl|].
  cbn [filter]. destruct (Wallclock_poll_failed t) eqn:Hf; cbn [negb].
  - destruct (Wallclock.running s) eqn:Hr.
    + eapply same_trans; [|apply IH].
      cbn [Wallclock.loop]. rewrite bind_get, Hr.
      apply (same_after_warning (Wallclock.iteration E t)
               (fun _ => Wallclock.loop E rest) s false).
      now apply Wallclock_failed_poll_iteration.
    + rewrite !Wallclock_loop_not_running by exact Hr. apply same_refl.
  - cbn [Wallclock.loop]. rewrite !bind_get.
    destruct (Wallclock.running s); [|apply same_refl].
    apply same_bind. intros _ s1. apply IH.
Qed.

Lemma FixedPitch_failed_poll_iteration (E : Xenv) (t : FixedPitch.tick)
  (s : FixedPitch.state) :
  FixedPitch_poll_failed t = true ->
  FixedPitch.iteration E t s = Done tt s [EvStderr MsgPoll].
Proof.
  unfold FixedPitch_poll_failed. intros H. apply andb_prop in H.
  destruct H as [Hp Hs]. unfold FixedPitch.iteration.
  rewrite Hp. destruct (FixedPitch.tick_signal t); [discriminate|reflexivity].
Qed.

Lemma FixedPitch_loop_without_failed_polls (E : Xenv)
  (ticks : list FixedPitch.tick) (s : FixedPitch.state) :
  same_but_poll_warnings
    (FixedPitch.loop E ticks s)
    (FixedPitch.loop E
       (filter (fun t => negb (FixedPitch_poll_failed t)) ticks) s).
Proof.
  revert s. induction ticks as [|t rest IH]; intros s; [apply same_refl|].
  cbn [filter]. destruct (FixedPitch_poll_failed t) eqn:Hf; cbn [negb].
  - destruct (FixedPitch.running s) eqn:Hr.
    + eapply same_trans; [|apply IH].
      cbn [FixedPitch.loop]. rewrite bind_get, Hr.
      apply (same_after_warning (FixedPitch.iteration E t)
               (fun _ => FixedPitch.loop E rest) s tt).
      now apply FixedPitch_failed_poll_iteration.
    + rewrite !FixedPitch_loop_not_running by exact Hr. apply same_refl.
  - cbn [FixedPitch.loop]. rewrite !bind_get.
    destruct (FixedPitch.running s); [|apply same_refl].
    apply same_bind. intros _ s1. apply IH.
Qed.

(** X9.  A failed [poll] is harmless: in both variants, a run of [main]
    ends in the same way and in the same state, and emits the same events
    in the same order, as the run from which every iteration with a
    failed [poll] (and no signal) is left out, but for the warnings
    of those polls. *)
Theorem failed_polls_only_warn (E : Xenv) (now : option tm) :
  (forall (ticks : list Wallclock.tick) (s : Wallclock.state),
      same_but_poll_warnings
        (Wallclock.main E now ticks s)
        (Wallclock.main E now
           (filter (fun t => negb (Wallclock_poll_failed t)) ticks) s))
  /\ (forall (ticks : list FixedPitch.tick) (s : FixedPitch.state),
      same_but_poll_warnings
        (FixedPitch.main E now ticks s)
        (FixedPitch.main E now
           (filter (fun t => negb (FixedPitch_poll_failed t)) ticks) s)).
Proof.
  split.
  - intros ticks s. unfold Wallclock.main.
    apply same_bind. intros _ s1.
    pose proof (Wallclock_loop_without_failed_polls E ticks s1) as Hl.
    unfold bind.
    destruct (Wallclock.loop E ticks s1) as [[] s2 o2| |],
      (Wallclock.loop E _ s1) as [[] s2' o2'| |]; simpl in Hl; try tauto;
      try exact Hl.
    destruct Hl as (_ & <- & Hd). unfold get.
    destruct (Wallclock.running s2); simpl;
      rewrite !drop_poll_warnings_app, Hd; auto.
  - intros ticks s. unfold FixedPitch.main.
    apply same_bind. intros _ s0. apply same_bind. intros _ s1.
    pose proof (FixedPitch_loop_without_failed_polls E ticks s1) as Hl.
    unfold bind.
    destruct (FixedPitch.loop E ticks s1) as [[] s2 o2| |],
      (FixedPitch.loop E _ s1) as [[] s2' o2'| |]; simpl in Hl; try tauto;
      try exact Hl.
    destruct Hl as (_ & <- & Hd). unfold get.
    destruct (FixedPitch.running s2); simpl;
      rewrite !drop_poll_warnings_app, Hd; auto.
Qed.

(** ** What the loop leaves alone *)

Lemma Wallclock_settled_repaint (E : Xenv) (s : Wallclock.state)
  (line : lineref) (text : string) :
  Wallclock_settled (WallclockPaint.repaint_state E s line text)
  = Wallclock_settled s.
Proof.
  unfold WallclockPaint.repaint_state.
  destruct (WallclockPaint.excessive E s line text), line; reflexivity.
Qed.

Lemma FixedPitch_settled_repaint (E : Xenv) (s : FixedPitch.state)
  (line : lineref) (text : string) :
  FixedPitch_settled (FixedPitchPaint.repaint_state E s line text)
  = FixedPitch_settled s.
Proof.
  unfold FixedPitchPaint.repaint_state.
  destruct (FixedPitchPaint.excessive E s line text), line; reflexivity.
Qed.

Lemma Wallclock_loop_settled (E : Xenv) (ticks : list Wallclock.tick)
  (s : Wallclock.state) :
  Wallclock_settled (outcome_state (Wallclock.loop E ticks s))
  = Wallclock_settled s.
Proof.
  apply (triple_outcome
           (fun s' _ => Wallclock_settled s' = Wallclock_settled s)
           (fun s' _ => Wallclock_settled s' = Wallclock_settled s)
           (Wallclock.loop E ticks) s []); [|reflexivity].
  apply (Wallclock_loop_triple E); cbv beta.
  - intros s' h e _ H. exact H.
  - intros s' h b H. exact H.
  - intros s' h line tmp text H _.
    now rewrite Wallclock_settled_repaint.
Qed.

Lemma FixedPitch_loop_settled (E : Xenv) (ticks : list FixedPitch.tick)
  (s : FixedPitch.state) :
  FixedPitch_settled (outcome_state (FixedPitch.loop E ticks s))
  = FixedPitch_settled s.
Proof.
  apply (triple_outcome
           (fun s' _ => FixedPitch_settled s' = FixedPitch_settled s)
           (fun s' _ => FixedPitch_settled s' = FixedPitch_settled s)
           (FixedPitch.loop E ticks) s []); [|reflexivity].
  apply (FixedPitch_loop_triple E); cbv beta.
  - intros s' h e _ H. exact H.
  - intros s' h b H. exact H.
  - intros s' h line tmp text H _.
    now rewrite FixedPitch_settled_repaint.
Qed.

(** X10.  In both variants the event loop, however long it runs and
    however it ends, changes nothing of what start-up settled: the
    arguments, the background colour, the surface geometry and each
    line's position, metrics, font, colour and argument record are in the
    final state what they were when the loop was entered.  Only the
    lines' [buf] and [warned] and the flag [running] can differ. *)
Theorem loop_changes_only_text_and_flag (E : Xenv) :
  (forall (ticks : list Wallclock.tick) (s : Wallclock.state),
      Wallclock_settled (outcome_state (Wallclock.loop E ticks s))
      = Wallclock_settled s)
  /\ (forall (ticks : list FixedPitch.tick) (s : FixedPitch.state),
      FixedPitch_settled (outcome_state (FixedPitch.loop E ticks s))
      = FixedPitch_settled s).
Proof.
  split.
  - apply Wallclock_loop_settled.
  - apply FixedPitch_loop_settled.
Qed.

(** ** What start-up arranges *)

Lemma hoare_top {S A} (P : assertion S) (m : M S A) :
  hoare P m (fun _ _ _ => True) (fun _ _ => True).
Proof. intros s pre _. destruct (m s); exact I. Qed.

Lemma Wallclock_laid_out_settled (E : Xenv) (s s' : Wallclock.state) :
  Wallclock_settled s' = Wallclock_settled s ->
  Wallclock_laid_out E s -> Wallclock_laid_out E s'.
Proof.
  unfold Wallclock_settled, Wallclock_line_settled, Wallclock_geometry,
    Wallclock_laid_out, Wallclock_line_ready. cbv zeta.
  intros H. injection H. intros.
  repeat match goal with
         | H : _ = _ |- _ => rewrite ?H; clear H
         end.
  assumption.
Qed.

Lemma Wallclock_initline_ready (E : Xenv) (line : lineref)
  (arg : Wallclock.linearg_t) (s0 : Wallclock.state) :
  hoare (fun s _ => s = s0) (Wallclock.initline E line arg)
    (fun _ s _ =>
       Wallclock_line_ready E arg (Wallclock.get_line line s)
       /\ (forall l, l <> line ->
             Wallclock.get_line l s = Wallclock.get_line l s0)
       /\ Wallclock.args s = Wallclock.args s0
       /\ Wallclock.dc_bg (Wallclock.dc s) = Wallclock.dc_bg (Wallclock.dc s0)
       /\ Wallclock.dc_h (Wallclock.dc s) = Wallclock.dc_h (Wallclock.dc s0))
    (fun _ _ => True).
Proof.
  intros s pre ->. unfold Wallclock.initline.
  destruct (XftFontOpenName E (Wallclock.arg_font arg)) as [xfont|] eqn:Hf;
    [|exact I].
  destruct (XftColorAllocName E (Wallclock.arg_color arg)) as [color|] eqn:Hc.
  - unfold bind, get, modify, when, printf, emit, ret.
    destruct (1 <? _); cbn [app];
      (split; [|split; [|split; [|split]]];
       [ destruct line; repeat split; assumption
       | intros l Hl; destruct line, l; try reflexivity; now elim Hl
       | reflexivity
       | destruct line; reflexivity
       | destruct line; reflexivity ]).
  - unfold bind, get, modify, when, printf, emit, ret, errx, exit_.
    destruct (1 <? _); exact I.
Qed.

Lemma hoare_from {S A} (P : S -> Prop) (Q : S -> A -> S -> Prop)
  (m : M S A) :
  (forall s0, hoare (fun s _ => s = s0) m (fun a s _ => Q s0 a s)
                    (fun _ _ => True)) ->
  hoare (fun s _ => P s) m (fun a s _ => exists s0, P s0 /\ Q s0 a s)
        (fun _ _ => True).
Proof.
  intros H s pre HP. specialize (H s s pre eq_refl).
  destruct (m s); [|exact I|exact I]. now exists s.
Qed.

Lemma Wallclock_laid_out_running (E : Xenv) (s : Wallclock.state)
  (b : bool) :
  Wallclock_laid_out E s -> Wallclock_laid_out E (Wallclock.set_running b s).
Proof. intros H. exact H. Qed.

Lemma Wallclock_laid_out_repaint (E : Xenv) (s : Wallclock.state)
  (line : lineref) (text : string) :
  Wallclock_laid_out E s ->
  Wallclock_laid_out E (WallclockPaint.repaint_state E s line text).
Proof.
  apply Wallclock_laid_out_settled, Wallclock_settled_repaint.
Qed.

Ltac laid_out_known E :=
  first [ apply (Wallclock_draw_triple E)
        | apply Wallclock_copy_triple
        | apply (Wallclock_loop_triple E)
        | apply Wallclock_cleanup_triple ];
  cbv beta; intros;
  first [ assumption
        | now apply Wallclock_laid_out_running
        | now apply Wallclock_laid_out_repaint ].

Lemma Wallclock_setup_laid_out (E : Xenv) (now : option tm) :
  hoare (fun _ _ => True) (Wallclock.setup E now)
        (fun _ s _ => Wallclock_laid_out E s) (fun _ _ => True).
Proof.
  unfold Wallclock.setup.
  destruct (negb (XOpenDisplay E)); [apply hoare_errx; auto|].
  apply (hoare_bind _ (fun _ _ _ => True)); [apply hoare_top|intros _].
  apply (hoare_bind _ (fun _ _ _ => True)); [apply hoare_top|intros _].
  apply hoare_get_bind; intros s0; cbv beta.
  apply (hoare_bind _ (fun _ s _ => s = s0)).
  { unfold when. destruct (1 <? _); [apply hoare_emit|apply hoare_ret];
      intros s h [H _]; exact H. }
  intros _.
  apply (hoare_bind _ (fun _ s _ => s = s0));
    [apply hoare_emit; auto|intros _].
  apply (hoare_bind _ (fun _ s _ => s = s0));
    [apply hoare_emit; auto|intros _].
  destruct (XAllocNamedColor E _) as [bg|] eqn:Hbg;
    [|apply hoare_errx; auto].
  set (a1 := Wallclock.args_text1 (Wallclock.args s0)).
  set (a2 := Wallclock.args_text2 (Wallclock.args s0)).
  pose (P0 := fun s : Wallclock.state =>
          Wallclock.args s = Wallclock.args s0
          /\ Wallclock.dc_bg (Wallclock.dc s) = bg).
  pose (P1 := fun s : Wallclock.state =>
          P0 s
          /\ Wallclock_line_ready E a1 (Wallclock.dc_text1 (Wallclock.dc s))).
  pose (P2 := fun s : Wallclock.state =>
          P1 s
          /\ Wallclock_line_ready E a2 (Wallclock.dc_text2 (Wallclock.dc s))).
  apply (hoare_bind _ (fun _ s _ => P0 s)).
  { apply hoare_modify. intros s h ->. split; reflexivity. }
  intros _.
  apply (hoare_bind _ (fun _ s _ => P1 s)).
  { eapply hoare_conseq;
      [ |apply (hoare_from P0), (Wallclock_initline_ready E Text1 a1)
        | |intros s h H; exact H].
    - intros s h H. exact H.
    - intros _ s h (s1 & [Ha Hb] & Hr & _ & Ha' & Hb' & _).
      split; [split; congruence|exact Hr]. }
  intros _.
  apply (hoare_bind _ (fun _ s _ => P2 s)).
  { eapply hoare_conseq;
      [ |apply (hoare_from P1), (Wallclock_initline_ready E Text2 a2)
        | |intros s h H; exact H].
    - intros s h H. exact H.
    - intros _ s h (s1 & [[Ha Hb] H1] & Hr & Ho & Ha' & Hb' & _).
      split; [split; [split; congruence|]|exact Hr].
      change (Wallclock.dc_text1 (Wallclock.dc s))
        with (Wallclock.get_line Text1 s).
      rewrite (Ho Text1) by discriminate. exact H1. }
  intros _.
  apply (hoare_bind _ (fun _ s _ =>
         P2 s
         /\ Wallclock.line_y (Wallclock.dc_text1 (Wallclock.dc s))
            = int_add
                (int_div
                   (int_sub
                      (int_sub (Wallclock.dc_h (Wallclock.dc s))
                         (Wallclock.line_height
                            (Wallclock.dc_text1 (Wallclock.dc s))))
                      (Wallclock.line_height
                         (Wallclock.dc_text2 (Wallclock.dc s)))) 2)
                (Wallclock.arg_dy a1))).
  { apply hoare_modify. intros s h [[[Ha Hb] H1] H2].
    split; [split; [split; [split|]|]|].
    - exact Ha.
    - exact Hb.
    - exact H1.
    - exact H2.
    - unfold a1. rewrite <- Ha. reflexivity. }
  intros _.
  apply (hoare_bind _ (fun _ s _ => Wallclock_laid_out E s)).
  { apply hoare_modify. intros s h [[[[Ha Hb] H1] H2] Hy].
    unfold Wallclock_laid_out. cbv zeta.
    change (Wallclock.args (Wallclock.set_line Text2 _ s))
      with (Wallclock.args s).
    rewrite Ha. fold a1 a2.
    split; [exact H1|]. split; [exact H2|].
    split; [rewrite <- Hb in Hbg; exact Hbg|].
    split; [exact Hy|reflexivity]. }
  intros _.
  apply (hoare_conseq _ (fun s _ => Wallclock_laid_out E s)
           _ (fun _ s _ => Wallclock_laid_out E s)
           _ (fun s _ => Wallclock_laid_out E s));
    [intros ? ? H; exact H| |intros ? ? ? H; exact H|intros ? ? _; exact I].
  apply hoare_triple.
  inv_tac ltac:(idtac; intros; assumption) ltac:(idtac; laid_out_known E).
Qed.

Lemma Wallclock_main_laid_out (E : Xenv) (now : option tm)
  (ticks : list Wallclock.tick) (s s' : Wallclock.state)
  (out : list event) :
  Wallclock.main E now ticks s = Done tt s' out -> Wallclock_laid_out E s'.
Proof.
  intros H.
  assert (Hh : hoare (fun _ _ => True) (Wallclock.main E now ticks)
                 (fun _ s _ => Wallclock_laid_out E s) (fun _ _ => True)).
  { unfold Wallclock.main.
    apply (hoare_bind _ (fun _ s _ => Wallclock_laid_out E s));
      [apply Wallclock_setup_laid_out|intros _].
    apply (hoare_conseq _ (fun s _ => Wallclock_laid_out E s)
             _ (fun _ s _ => Wallclock_laid_out E s)
             _ (fun s _ => Wallclock_laid_out E s));
      [intros ? ? H0; exact H0| |intros ? ? ? H0; exact H0
      |intros ? ? _; exact I].
    apply hoare_triple.
    inv_tac ltac:(idtac; intros; assumption) ltac:(idtac; laid_out_known E). }
  specialize (Hh s [] I). rewrite H in Hh. exact Hh.
Qed.

Lemma FixedPitch_laid_out_settled (E : Xenv) (s s' : FixedPitch.state) :
  FixedPitch_settled s' = FixedPitch_settled s ->
  FixedPitch_laid_out E s -> FixedPitch_laid_out E s'.
Proof.
  unfold FixedPitch_settled, FixedPitch_line_settled,
    FixedPitch_laid_out, FixedPitch_line_ready. cbv zeta.
  intros H. injection H. intros.
  repeat match goal with
         | H : _ = _ |- _ => rewrite ?H; clear H
         end.
  assumption.
Qed.

Lemma FixedPitch_initline_ready (E : Xenv) (line : lineref)
  (arg : FixedPitch.linearg_t) (s0 : FixedPitch.state) :
  hoare (fun s _ => s = s0) (FixedPitch.initline E line arg)
    (fun _ s _ =>
       FixedPitch_line_ready E arg (FixedPitch.get_line line s)
       /\ (forall l, l <> line ->
             FixedPitch.get_line l s = FixedPitch.get_line l s0)
       /\ FixedPitch.args s = FixedPitch.args s0
       /\ FixedPitch.dc_bg (FixedPitch.dc s)
          = FixedPitch.dc_bg (FixedPitch.dc s0)
       /\ FixedPitch.dc_h (FixedPitch.dc s)
          = FixedPitch.dc_h (FixedPitch.dc s0))
    (fun _ _ => True).
Proof.
  intros s pre ->. unfold FixedPitch.initline.
  destruct (XftFontOpenName E (FixedPitch.arg_font arg)) as [xfont|] eqn:Hf;
    [|exact I].
  destruct (XftColorAllocName E (FixedPitch.arg_color arg))
    as [color|] eqn:Hc.
  - unfold FixedPitch.textnw, bind, get, modify, when, warnx, emit, ret.
    destruct (FixedPitch.exceeds_one_and_a_half _ _); cbn [app];
      [destruct (0 <? _); cbn [app]| ];
      (split; [|split; [|split; [|split]]];
       [ destruct line; repeat split; assumption
       | intros l Hl; destruct line, l; try reflexivity; now elim Hl
       | destruct line; reflexivity
       | destruct line; reflexivity
       | destruct line; reflexivity ]).
  - unfold FixedPitch.textnw, bind, get, modify, when, warnx, emit, ret,
      errx, exit_.
    destruct (FixedPitch.exceeds_one_and_a_half _ _);
      [destruct (0 <? _)| ]; exact I.
Qed.

Lemma FixedPitch_laid_out_running (E : Xenv) (s : FixedPitch.state)
  (b : bool) :
  FixedPitch_laid_out E s ->
  FixedPitch_laid_out E (FixedPitch.set_running b s).
Proof. intros H. exact H. Qed.

Lemma FixedPitch_laid_out_repaint (E : Xenv) (s : FixedPitch.state)
  (line : lineref) (text : string) :
  FixedPitch_laid_out E s ->
  FixedPitch_laid_out E (FixedPitchPaint.repaint_state E s line text).
Proof.
  apply FixedPitch_laid_out_settled, FixedPitch_settled_repaint.
Qed.

Ltac fixed_pitch_laid_out_known E :=
  first [ apply (FixedPitch_draw_triple E)
        | apply (FixedPitch_loop_triple E)
        | apply FixedPitch_cleanup_triple ];
  cbv beta; intros;
  first [ assumption
        | now apply FixedPitch_laid_out_running
        | now apply FixedPitch_laid_out_repaint ].

Lemma FixedPitch_setup_laid_out (E : Xenv) :
  hoare (fun _ _ => True) (FixedPitch.setup E)
        (fun _ s _ => FixedPitch_laid_out E s) (fun _ _ => True).
Proof.
  unfold FixedPitch.setup.
  destruct (negb (XOpenDisplay E)); [apply hoare_errx; auto|].
  apply (hoare_bind _ (fun _ _ _ => True)); [apply hoare_top|intros _].
  apply hoare_get_bind; intros s0; cbv beta.
  apply (hoare_bind _ (fun _ s _ => s = s0));
    [apply hoare_emit; intros s h [H _]; exact H|intros _].
  apply (hoare_bind _ (fun _ s _ => s = s0));
    [apply hoare_emit; auto|intros _].
  destruct (XAllocNamedColor E _) as [bg|] eqn:Hbg;
    [|apply hoare_errx; auto].
  set (a1 := FixedPitch.args_text1 (FixedPitch.args s0)).
  set (a2 := FixedPitch.args_text2 (FixedPitch.args s0)).
  pose (P0 := fun s : FixedPitch.state =>
          FixedPitch.args s = FixedPitch.args s0
          /\ FixedPitch.dc_bg (FixedPitch.dc s) = bg).
  pose (P1 := fun s : FixedPitch.state =>
          P0 s
          /\ FixedPitch_line_ready E a1
               (FixedPitch.dc_text1 (FixedPitch.dc s))).
  pose (P2 := fun s : FixedPitch.state =>
          P1 s
          /\ FixedPitch_line_ready E a2
               (FixedPitch.dc_text2 (FixedPitch.dc s))).
  apply (hoare_bind _ (fun _ s _ => P0 s)).
  { apply hoare_modify. intros s h ->. split; reflexivity. }
  intros _.
  apply (hoare_bind _ (fun _ s _ => P1 s)).
  { eapply hoare_conseq;
      [ |apply (hoare_from P0), (FixedPitch_initline_ready E Text1 a1)
        | |intros s h H; exact H].
    - intros s h H. exact H.
    - intros _ s h (s1 & [Ha Hb] & Hr & _ & Ha' & Hb' & _).
      split; [split; congruence|exact Hr]. }
  intros _.
  apply (hoare_bind _ (fun _ s _ => P2 s)).
  { eapply hoare_conseq;
      [ |apply (hoare_from P1), (FixedPitch_initline_ready E Text2 a2)
        | |intros s h H; exact H].
    - intros s h H. exact H.
    - intros _ s h (s1 & [[Ha Hb] H1] & Hr & Ho & Ha' & Hb' & _).
      split; [split; [split; congruence|]|exact Hr].
      change (FixedPitch.dc_text1 (FixedPitch.dc s))
        with (FixedPitch.get_line Text1 s).
      rewrite (Ho Text1) by discriminate. exact H1. }
  intros _.
  apply (hoare_bind _ (fun _ s _ =>
         P2 s
         /\ FixedPitch.line_y (FixedPitch.dc_text1 (FixedPitch.dc s))
            = int_add
                (int_div
                   (int_sub
                      (int_sub (FixedPitch.dc_h (FixedPitch.dc s))
                         (FixedPitch.line_height
                            (FixedPitch.dc_text1 (FixedPitch.dc s))))
                      (FixedPitch.line_height
                         (FixedPitch.dc_text2 (FixedPitch.dc s)))) 2)
                (FixedPitch.arg_dy a1))).
  { apply hoare_modify. intros s h [[[Ha Hb] H1] H2].
    split; [split; [split; [split|]|]|].
    - exact Ha.
    - exact Hb.
    - exact H1.
    - exact H2.
    - unfold a1. rewrite <- Ha. reflexivity. }
  intros _.
  apply (hoare_bind _ (fun _ s _ => FixedPitch_laid_out E s)).
  { apply hoare_modify. intros s h [[[[Ha Hb] H1] H2] Hy].
    unfold FixedPitch_laid_out. cbv zeta.
    change (FixedPitch.args (FixedPitch.set_line Text2 _ s))
      with (FixedPitch.args s).
    rewrite Ha. fold a1 a2.
    split; [exact H1|]. split; [exact H2|].
    split; [rewrite <- Hb in Hbg; exact Hbg|].
    split; [exact Hy|reflexivity]. }
  intros _.
  apply (hoare_conseq _ (fun s _ => FixedPitch_laid_out E s)
           _ (fun _ s _ => FixedPitch_laid_out E s)
           _ (fun s _ => FixedPitch_laid_out E s));
    [intros ? ? H; exact H| |intros ? ? ? H; exact H|intros ? ? _; exact I].
  apply hoare_triple.
  inv_tac ltac:(idtac; intros; assumption) idtac.
Qed.

Lemma FixedPitch_main_laid_out (E : Xenv) (now : option tm)
  (ticks : list FixedPitch.tick) (s s' : FixedPitch.state)
  (out : list event) :
  FixedPitch.main E now ticks s = Done tt s' out -> FixedPitch_laid_out E s'.
Proof.
  intros H.
  assert (Hh : hoare (fun _ _ => True) (FixedPitch.main E now ticks)
                 (fun _ s _ => FixedPitch_laid_out E s) (fun _ _ => True)).
  { unfold FixedPitch.main.
    apply (hoare_bind _ (fun _ s _ => FixedPitch_laid_out E s));
      [apply FixedPitch_setup_laid_out|intros _].
    apply (hoare_conseq _ (fun s _ => FixedPitch_laid_out E s)
             _ (fun _ s _ => FixedPitch_laid_out E s)
             _ (fun s _ => FixedPitch_laid_out E s));
      [intros ? ? H0; exact H0| |intros ? ? ? H0; exact H0
      |intros ? ? _; exact I].
    apply hoare_triple.
    inv_tac ltac:(idtac; intros; assumption)
            ltac:(idtac; fixed_pitch_laid_out_known E). }
  specialize (Hh s [] I). rewrite H in Hh. exact Hh.
Qed.

(** X11.  What start-up arranges, in both variants.  In the state in
    which a run of [main] returns, each line points to its argument
    record of [args] and holds the font and the colour that the X server
    gave for the names in that record; its ascent is the font's and its
    height the font's ascent plus descent; the background is the colour
    allocated for [args.background]; the first line's [y] is
    [(dc.h - height1 - height2) / 2 + dy1] and the second line's is
    [y1 + height1 + dy2], in [int] arithmetic.  Drawing, the loop and
    [cleanup] leave all of it as [setup] computed it. *)
Theorem startup_arranges_lines (E : Xenv) (now : option tm) :
  (forall (ticks : list Wallclock.tick) (s s' : Wallclock.state)
          (out : list event),
      Wallclock.main E now ticks s = Done tt s' out ->
      Wallclock_laid_out E s')
  /\ (forall (ticks : list FixedPitch.tick) (s s' : FixedPitch.state)
             (out : list event),
      FixedPitch.main E now ticks s = Done tt s' out ->
      FixedPitch_laid_out E s').
Proof.
  split.
  - intros ticks s s' out. apply Wallclock_main_laid_out.
  - intros ticks s s' out. apply FixedPitch_main_laid_out.
Qed.

Lemma startup_arranges_lines_witness :
  Wallclock_laid_out Sample.env0
    (outcome_state (Wallclock.main Sample.env0 (Some Sample.noon)
                      [Runs.w_later; Runs.w_sigterm] Runs.w_start))
  /\ FixedPitch_laid_out Sample.env0
       (outcome_state (FixedPitch.main Sample.env0 (Some Sample.noon)
                         [Runs.p_later; Runs.p_sigterm] Runs.p_start)).
Proof.
  pose proof (startup_arranges_lines Sample.env0 (Some Sample.noon))
    as [Hw Hp].
  split.
  - apply (Hw [Runs.w_later; Runs.w_sigterm] Runs.w_start _
              (outcome_out (Wallclock.main Sample.env0 (Some Sample.noon)
                              [Runs.w_later; Runs.w_sigterm] Runs.w_start))).
    vm_compute. reflexivity.
  - apply (Hp [Runs.p_later; Runs.p_sigterm] Runs.p_start _
              (outcome_out (FixedPitch.main Sample.env0 (Some Sample.noon)
                              [Runs.p_later; Runs.p_sigterm] Runs.p_start))).
    vm_compute. reflexivity.
Defined.

(** X12.  In src/wallclock.c, when neither line is given an offset, the
    heights are not negative and the two lines fit into a surface of
    height below 2^30, the lines are stacked without a gap and the block
    they form is centred: the margin below it equals the margin above it,
    or is larger by one pixel. *)
Theorem lines_are_centred (E : Xenv) (now : option tm)
  (ticks : list Wallclock.tick) (s s' : Wallclock.state)
  (out : list event) :
  Wallclock.main E now ticks s = Done tt s' out ->
  let l1 := Wallclock.dc_text1 (Wallclock.dc s') in
  let l2 := Wallclock.dc_text2 (Wallclock.dc s') in
  let h := Wallclock.dc_h (Wallclock.dc s') in
  Wallclock.arg_dy (Wallclock.args_text1 (Wallclock.args s')) = 0 ->
  Wallclock.arg_dy (Wallclock.args_text2 (Wallclock.args s')) = 0 ->
  0 <= Wallclock.line_height l1 -> 0 <= Wallclock.line_height l2 ->
  Wallclock.line_height l1 + Wallclock.line_height l2 <= h < 2 ^ 30 ->
  let above := Wallclock.line_y l1 in
  let below := h - (Wallclock.line_y l2 + Wallclock.line_height l2) in
  Wallclock.line_y l2 = Wallclock.line_y l1 + Wallclock.line_height l1
  /\ 0 <= above /\ above <= below <= above + 1.
Proof.
  intros H l1 l2 h Hd1 Hd2 H1 H2 Hh above below.
  apply Wallclock_main_laid_out in H.
  destruct H as (_ & _ & _ & Hy1 & Hy2). cbv zeta in Hy1, Hy2.
  fold l1 l2 h in Hy1, Hy2. rewrite Hd1 in Hy1. rewrite Hd2 in Hy2.
  unfold above, below. clear above below.
  set (h1 := Wallclock.line_height l1) in *.
  set (h2 := Wallclock.line_height l2) in *.
  assert (Hq : 0 <= Z.quot (h - h1 - h2) 2 <= h - h1 - h2
               /\ h - h1 - h2 - 1 <= 2 * Z.quot (h - h1 - h2) 2
                  <= h - h1 - h2).
  { rewrite Z.quot_div_nonneg by lia.
    pose proof (Z.div_mod (h - h1 - h2) 2 ltac:(lia)).
    pose proof (Z.mod_pos_bound (h - h1 - h2) 2 ltac:(lia)). lia. }
  unfold int_add, int_div, int_sub in Hy1, Hy2.
  assert (E1 : to_int (h - h1) = h - h1)
    by (apply to_int_small; unfold in_int; lia).
  rewrite E1 in Hy1.
  assert (E2 : to_int (h - h1 - h2) = h - h1 - h2)
    by (apply to_int_small; unfold in_int; lia).
  rewrite E2 in Hy1.
  assert (E3 : to_int (Z.quot (h - h1 - h2) 2) = Z.quot (h - h1 - h2) 2)
    by (apply to_int_small; unfold in_int; lia).
  rewrite E3, Z.add_0_r, E3 in Hy1.
  rewrite Hy1 in Hy2 |- *.
  assert (E4 : to_int (Z.quot (h - h1 - h2) 2 + h1)
               = Z.quot (h - h1 - h2) 2 + h1)
    by (apply to_int_small; unfold in_int; lia).
  rewrite E4, Z.add_0_r, E4 in Hy2. rewrite Hy2. lia.
Qed.

Lemma lines_are_centred_witness :
  let s' := outcome_state (Wallclock.main Sample.env0 (Some Sample.noon)
                             [Runs.w_later; Runs.w_sigterm] Runs.w_start) in
  Wallclock.line_y (Wallclock.dc_text1 (Wallclock.dc s')) = 440
  /\ Wallclock.line_y (Wallclock.dc_text2 (Wallclock.dc s')) = 540
  /\ Wallclock.line_y (Wallclock.dc_text2 (Wallclock.dc s'))
     = Wallclock.line_y (Wallclock.dc_text1 (Wallclock.dc s'))
       + Wallclock.line_height (Wallclock.dc_text1 (Wallclock.dc s')).
Proof.
  cbv zeta. split; [reflexivity|]. split; [reflexivity|].
  refine (proj1 (lines_are_centred Sample.env0 (Some Sample.noon)
                   [Runs.w_later; Runs.w_sigterm] Runs.w_start
                   _
                   (outcome_out
                      (Wallclock.main Sample.env0 (Some Sample.noon)
                         [Runs.w_later; Runs.w_sigterm] Runs.w_start))
                   _ _ _ _ _ _)).
  - vm_compute. reflexivity.
  - reflexivity.
  - reflexivity.
  - vm_compute. discriminate.
  - vm_compute. discriminate.
  - vm_compute. split; [discriminate|reflexivity].
Defined.

(** ** The life of the pixmap and of the drawing objects *)


Lemma hoare_of_triple {S A} (P Qx : assertion S) (m : M S A) :
  triple P m P -> entails P Qx -> hoare P m (fun _ => P) Qx.
Proof.
  intros Hm HP. eapply hoare_conseq;
    [intros s h H; exact H|exact Hm|intros a s h H; exact H|exact HP].
Qed.

Lemma hoare_get_then {S B} (P : assertion S) (Qn : B -> assertion S)
  (Qx : assertion S) (k : S -> M S B) :
  (forall s0, hoare P (k s0) Qn Qx) -> hoare P (bind get k) Qn Qx.
Proof.
  intros Hk. apply (hoare_bind _ (fun _ => P)); [|exact Hk].
  apply hoare_get. auto.
Qed.














(** ** Where the text goes *)




(** ** The first frame *)

Lemma shown_complete_drawn (out : list event) :
  shown_complete true true out = true.
Proof. induction out as [|e rest IH]; simpl; [|destruct (is_copy e)]; auto. Qed.

Lemma shown_complete_app_nocopy (a b : list event) (d1 d2 : bool) :
  existsb is_copy a = false ->
  shown_complete d1 d2 (a ++ b)
  = shown_complete (d1 || existsb (is_draw_of Text1) a)
                   (d2 || existsb (is_draw_of Text2) a) b.
Proof.
  revert d1 d2. induction a as [|e rest IH]; intros d1 d2 H; simpl.
  - now rewrite !orb_false_r.
  - simpl in H. apply orb_false_iff in H. destruct H as [He Hr].
    rewrite He, (IH _ _ Hr), !orb_assoc. reflexivity.
Qed.

Lemma shown_complete_app_copy (a b : list event) (d1 d2 : bool) :
  existsb is_copy a = true ->
  shown_complete d1 d2 (a ++ b) = shown_complete d1 d2 a.
Proof.
  revert d1 d2. induction a as [|e rest IH]; intros d1 d2 H; simpl;
    [discriminate|].
  simpl in H. destruct (is_copy e); [reflexivity|]. now apply IH.
Qed.

Lemma shown_complete_nocopy (a : list event) (d1 d2 : bool) :
  existsb is_copy a = false -> shown_complete d1 d2 a = true.
Proof.
  intros H. rewrite <- (app_nil_r a).
  now rewrite shown_complete_app_nocopy.
Qed.

Lemma frames_complete_app {S} (s s' : S) (h x : list event) :
  frames_complete s h -> frames_complete s' (h ++ x).
Proof.
  unfold frames_complete, both_drawn. intros [Hs Hd].
  destruct (existsb is_copy h) eqn:Hc.
  - rewrite shown_complete_app_copy by exact Hc.
    rewrite existsb_app, Hc. now split.
  - cbn [orb] in Hd. apply andb_prop in Hd. destruct Hd as [H1 H2].
    rewrite shown_complete_app_nocopy by exact Hc.
    rewrite H1, H2. cbn [orb]. rewrite shown_complete_drawn.
    split; [reflexivity|].
    rewrite !existsb_app, H1, H2. cbn [orb andb]. apply orb_true_r.
Qed.

Lemma frames_complete_so_far {S} :
  entails (@frames_complete S) shown_complete_so_far.
Proof. intros s h [H _]. exact H. Qed.

Lemma Wallclock_blank_so_far :
  entails Wallclock_blank shown_complete_so_far.
Proof. intros s h [H _]. now apply shown_complete_nocopy. Qed.

Lemma FixedPitch_blank_so_far :
  entails FixedPitch_blank shown_complete_so_far.
Proof. intros s h [H _]. now apply shown_complete_nocopy. Qed.

Lemma formatted_nonempty (E : Xenv) (fmt : string) (t : tm) (text : string) :
  formatted E fmt t = Some text -> String.eqb text "" = false.
Proof.
  intros H. apply formatted_Some in H. destruct H as [_ H].
  destruct text; [simpl in H; lia|reflexivity].
Qed.

Lemma Wallclock_repaint_no_copy (E : Xenv) (s : Wallclock.state)
  (line : lineref) (text : string) :
  existsb is_copy (WallclockPaint.repaint_events E s line text) = false.
Proof.
  unfold WallclockPaint.repaint_events, WallclockPaint.draw_string,
    WallclockPaint.band.
  destruct (WallclockPaint.excessive E s line text); reflexivity.
Qed.

Lemma FixedPitch_repaint_no_copy (E : Xenv) (s : FixedPitch.state)
  (line : lineref) (text : string) :
  existsb is_copy (FixedPitchPaint.repaint_events E s line text) = false.
Proof.
  unfold FixedPitchPaint.repaint_events, FixedPitchPaint.draw_string,
    FixedPitchPaint.clear_rect.
  destruct (FixedPitchPaint.fixed_pitch _ _),
    (FixedPitchPaint.excessive E s line text); reflexivity.
Qed.

Ltac blank_side :=
  let Hc := fresh "Hc" in
  let Hb := fresh "Hb" in
  intros ? ? [Hc Hb]; split;
  [ first [ exact Hc | rewrite existsb_app, Hc; reflexivity ]
  | first [ exact Hb
          | let l := fresh "l" in
            intros l; pose proof (Hb Text1); pose proof (Hb Text2);
            destruct l; assumption ] ].

Ltac complete_side :=
  let H := fresh "H" in
  intros ? ? H;
  first [ exact H
        | apply (frames_complete_app _ _ _ _ H)
        | rewrite <- (app_nil_r _); apply (frames_complete_app _ _ _ _ H) ].

Lemma Wallclock_initline_blank (E : Xenv) (line : lineref)
  (arg : Wallclock.linearg_t) :
  triple Wallclock_blank (Wallclock.initline E line arg) Wallclock_blank.
Proof.
  unfold Wallclock.initline. destruct line; inv_tac blank_side idtac.
Qed.

Lemma FixedPitch_initline_blank (E : Xenv) (line : lineref)
  (arg : FixedPitch.linearg_t) :
  triple FixedPitch_blank (FixedPitch.initline E line arg) FixedPitch_blank.
Proof.
  unfold FixedPitch.initline, FixedPitch.textnw.
  destruct line; inv_tac blank_side idtac.
Qed.

(** The first [draw] paints both lines, and copies nothing before it has. *)
Lemma Wallclock_first_draw (E : Xenv) (now : option tm) :
  hoare Wallclock_blank (Wallclock.draw E now)
    (fun _ _ h => existsb is_copy h = false /\ both_drawn h = true)
    shown_complete_so_far.
Proof.
  intros s pre [Hc Hb]. destruct now as [tmp|].
  2:{ cbn. apply shown_complete_nocopy. now rewrite existsb_app, Hc. }
  destruct (formatted E (WallclockPaint.line_fmt s Text1) tmp)
    as [t1|] eqn:Hf1.
  - destruct (formatted E (WallclockPaint.line_fmt s Text2) tmp)
      as [t2|] eqn:Hf2.
    + rewrite (Wallclock_draw_Done E s tmp t1 t2 Hf1 Hf2).
      rewrite (Hb Text1).
      assert (Hch : changed t1 "" = true)
        by (unfold changed; now rewrite (formatted_nonempty _ _ _ _ Hf1)).
      rewrite !Hch. cbn [orb]. unfold both_drawn.
      rewrite !existsb_app, !Wallclock_repaint_no_copy, Hc,
        !Wallclock_repaint_draws.
      split; [reflexivity|]. cbn. now rewrite !orb_true_r.
    + unfold Wallclock.draw.
      rewrite (bind_Done _ _ _ _ _ _ (Wallclock_draw_first E s tmp t1 Hf1)).
      cbv beta. erewrite bind_Exit.
      2:{ rewrite Wallclock_drawtext_spec.
          assert (Hfmt : WallclockPaint.line_fmt
                     (if changed t1 (Wallclock.line_buf
                                       (Wallclock.get_line Text1 s))
                      then WallclockPaint.repaint_state E s Text1 t1
                      else s) Text2
                   = WallclockPaint.line_fmt s Text2).
          { destruct (changed t1 _);
              [apply Wallclock_repaint_fmt|reflexivity]. }
          rewrite Hfmt, Hf2. reflexivity. }
      apply shown_complete_nocopy.
      rewrite !existsb_app, Hc.
      destruct (changed t1 _);
        rewrite ?existsb_app, ?Wallclock_repaint_no_copy; reflexivity.
  - unfold Wallclock.draw. erewrite bind_Exit.
    2:{ rewrite Wallclock_drawtext_spec, Hf1. reflexivity. }
    apply shown_complete_nocopy. now rewrite existsb_app, Hc.
Qed.

Lemma frames_complete_intro {S} (s : S) (h : list event) :
  existsb is_copy h = false -> both_drawn h = true -> frames_complete s h.
Proof.
  intros Hc Hd. split; [now apply shown_complete_nocopy|].
  rewrite Hd. apply orb_true_r.
Qed.

Ltac wallclock_blank_step :=
  apply (hoare_bind _ (fun _ => Wallclock_blank));
  [ apply hoare_of_triple;
    [ inv_tac blank_side ltac:(idtac; apply Wallclock_initline_blank)
    | apply Wallclock_blank_so_far ]
  | intros ? ].

Ltac wallclock_complete_known E :=
  first [ apply (Wallclock_draw_triple E)
        | apply Wallclock_copy_triple
        | apply (Wallclock_loop_triple E)
        | apply Wallclock_cleanup_triple ];
  cbv beta; intros;
  first [ eapply frames_complete_app; eassumption
        | assumption ].

Lemma Wallclock_setup_frames (E : Xenv) (now : option tm) :
  hoare Wallclock_blank (Wallclock.setup E now)
        (fun _ => frames_complete) shown_complete_so_far.
Proof.
  unfold Wallclock.setup.
  destruct (negb (XOpenDisplay E)).
  { apply hoare_errx. intros s h H. apply Wallclock_blank_so_far.
    revert s h H. blank_side. }
  wallclock_blank_step. wallclock_blank_step.
  apply hoare_get_then. intros s0.
  wallclock_blank_step. wallclock_blank_step. wallclock_blank_step.
  destruct (XAllocNamedColor E _) as [bg|].
  2:{ apply hoare_errx. intros s h H. apply Wallclock_blank_so_far.
      revert s h H. blank_side. }
  wallclock_blank_step. wallclock_blank_step. wallclock_blank_step.
  wallclock_blank_step. wallclock_blank_step.
  apply hoare_get_then. intros s1.
  wallclock_blank_step. wallclock_blank_step. wallclock_blank_step.
  apply (hoare_bind _ (fun _ => frames_complete)).
  { eapply hoare_conseq;
      [intros s h H; exact H|apply Wallclock_first_draw
      | |intros s h H; exact H].
    intros _ s h [Hc Hd]. now apply frames_complete_intro. }
  intros _. apply hoare_of_triple; [|apply frames_complete_so_far].
  wallclock_complete_known E.
Qed.

Lemma Wallclock_main_frames (E : Xenv) (now : option tm)
  (ticks : list Wallclock.tick) :
  hoare Wallclock_blank (Wallclock.main E now ticks)
        (fun _ => frames_complete) shown_complete_so_far.
Proof.
  unfold Wallclock.main.
  apply (hoare_bind _ (fun _ => frames_complete));
    [apply Wallclock_setup_frames|intros _].
  apply hoare_of_triple; [|apply frames_complete_so_far].
  inv_tac complete_side ltac:(idtac; wallclock_complete_known E).
Qed.

Lemma FixedPitch_drawtext_blank (E : Xenv) (line : lineref) (tmp : tm)
  (s : FixedPitch.state) :
  FixedPitch.line_buf (FixedPitch.get_line line s) = "" ->
  match FixedPitch.drawtext E line tmp s with
  | Done _ s' out =>
      existsb is_copy out = false
      /\ existsb (is_draw_of line) out = true
      /\ forall l, l <> line ->
           FixedPitch.get_line l s' = FixedPitch.get_line l s
  | Exit _ _ out | Undefined _ out => existsb is_copy out = false
  end.
Proof.
  intros Hb. rewrite FixedPitch_drawtext_spec.
  destruct (formatted E _ tmp) as [text|] eqn:Hf; [|reflexivity].
  rewrite Hb, (formatted_nonempty _ _ _ _ Hf).
  split; [apply FixedPitch_repaint_no_copy|]. split.
  - rewrite FixedPitch_repaint_draws. now destruct line.
  - intros l Hl. now apply FixedPitch_repaint_other.
Qed.

Lemma FixedPitch_first_draw (E : Xenv) (now : option tm) :
  hoare FixedPitch_blank (FixedPitch.draw E now true)
        (fun _ => frames_complete) shown_complete_so_far.
Proof.
  intros s pre [Hc Hb]. unfold FixedPitch.draw. cbn [when].
  destruct now as [tmp|].
  2:{ cbn. apply shown_complete_nocopy. now rewrite existsb_app, Hc. }
  pose proof (FixedPitch_drawtext_blank E Text1 tmp s (Hb Text1)) as H1.
  unfold bind at 1 2.
  destruct (FixedPitch.drawtext E Text1 tmp s) as [[] s1 o1|c s1 o1|s1 o1].
  - destruct H1 as (Hc1 & Hd1 & Ho1).
    assert (Hb2 : FixedPitch.line_buf (FixedPitch.get_line Text2 s1) = "").
    { rewrite Ho1 by discriminate. apply Hb. }
    pose proof (FixedPitch_drawtext_blank E Text2 tmp s1 Hb2) as H2.
    destruct (FixedPitch.drawtext E Text2 tmp s1)
      as [[] s2 o2|c s2 o2|s2 o2].
    + destruct H2 as (Hc2 & Hd2 & _). cbn.
      rewrite app_assoc. apply frames_complete_app with (s := s).
      apply frames_complete_intro.
      * now rewrite !existsb_app, Hc, Hc1, Hc2.
      * unfold both_drawn. rewrite !existsb_app, Hd1, Hd2.
        cbn [orb andb]. now rewrite !orb_true_r.
    + apply shown_complete_nocopy. now rewrite !existsb_app, Hc, Hc1, H2.
    + apply shown_complete_nocopy. now rewrite !existsb_app, Hc, Hc1, H2.
  - apply shown_complete_nocopy. now rewrite !existsb_app, Hc, H1.
  - apply shown_complete_nocopy. now rewrite !existsb_app, Hc, H1.
Qed.

Ltac fixed_pitch_complete_known E :=
  first [ apply (FixedPitch_draw_triple E)
        | apply (FixedPitch_loop_triple E)
        | apply FixedPitch_cleanup_triple ];
  cbv beta; intros;
  first [ eapply frames_complete_app; eassumption
        | assumption ].

Lemma FixedPitch_main_frames (E : Xenv) (now : option tm)
  (ticks : list FixedPitch.tick) :
  hoare FixedPitch_blank (FixedPitch.main E now ticks)
        (fun _ => frames_complete) shown_complete_so_far.
Proof.
  unfold FixedPitch.main.
  apply (hoare_bind _ (fun _ => FixedPitch_blank)).
  { apply hoare_of_triple; [|apply FixedPitch_blank_so_far].
    unfold FixedPitch.setup.
    inv_tac blank_side ltac:(idtac; apply FixedPitch_initline_blank). }
  intros _.
  apply (hoare_bind _ (fun _ => frames_complete));
    [apply FixedPitch_first_draw|intros _].
  apply hoare_of_triple; [|apply frames_complete_so_far].
  inv_tac complete_side ltac:(idtac; fixed_pitch_complete_known E).
Qed.

(** X15.  No incomplete frame is shown.  In both variants, in every run
    of [main] from the program's initial state, whatever the arguments,
    the clock and the events, the canvas is never copied to the root
    window before both lines have been drawn on it: the first frame
    already shows both lines, also when the run ends early. *)
Theorem first_frame_shows_both_lines (E : Xenv) (now : option tm) :
  (forall (a : Wallclock.args_t) (ticks : list Wallclock.tick),
      shown_complete false false
        (outcome_out
           (Wallclock.main E now ticks (Wallclock.initial_state a)))
      = true)
  /\ (forall (a : FixedPitch.args_t) (ticks : list FixedPitch.tick),
      shown_complete false false
        (outcome_out
           (FixedPitch.main E now ticks (FixedPitch.initial_state a)))
      = true).
Proof.
  split.
  - intros a ticks.
    assert (H0 : Wallclock_blank (Wallclock.initial_state a) []).
    { split; [reflexivity|intros []; reflexivity]. }
    pose proof (Wallclock_main_frames E now ticks _ [] H0) as H.
    destruct (Wallclock.main E now ticks (Wallclock.initial_state a));
      [apply H|exact H|exact H].
  - intros a ticks.
    assert (H0 : FixedPitch_blank (FixedPitch.initial_state a) []).
    { split; [reflexivity|intros []; reflexivity]. }
    pose proof (FixedPitch_main_frames E now ticks _ [] H0) as H.
    destruct (FixedPitch.main E now ticks (FixedPitch.initial_state a));
      [apply H|exact H|exact H].
Qed.
